(** * JanawarCensus edge device: capture, storage reclaim, location log, upload

    A shallow embedding of the edge-device scripts

      - [audio_capture/audio_recorder.py]   (module [Recorder])
      - [gps_tracking/gps_tracker.py]       (module [Gps])
      - [upload_scripts/sync_to_server.py]  (module [Sync])

    Stateful code is written in a state-and-exception monad over a [world]
    that holds the local file system and a trace of every call that leaves
    the process.  What the operating system, the GPS daemon and the SFTP
    server answer is not decided by the program: it is read from an
    environment indexed by the position in the trace, so that every theorem
    quantifies over all behaviours of the outside world. *)

From Stdlib Require Import ZArith QArith String Ascii.
From stdpp Require Import base option list gmap strings sorting.

(** ** Python runtime: exceptions, paths, files *)

Module Py.

(** The exception classes the handlers of the edge code tell apart.  In
    Python 3 [IOError] is [OSError], and [FileNotFoundError] is one of its
    subclasses; [PyException] stands for every other [Exception]. *)
Inductive exn := FileNotFoundError | OSError | PyException.

Definition is_OSError (e : exn) : bool :=
  match e with PyException => false | _ => true end.

Definition is_FileNotFoundError (e : exn) : bool :=
  match e with FileNotFoundError => true | _ => false end.

Inductive outcome (A : Type) := Ret (a : A) | Raise (e : exn).
Arguments Ret {A} a.
Arguments Raise {A} e.

(** [pathlib.Path] values are kept as their tuple of parts; an absolute
    path starts with the part ["/"]. *)
Definition path := list string.

(** [p / name] *)
Definition joinpath (p : path) (name : string) : path := p ++ [name].

(** [p.parent] *)
Definition parent (p : path) : path :=
  match p with
  | [r] => if bool_decide (r = "/") then p else []
  | _ => removelast p
  end.

(** [p.name] *)
Definition name (p : path) : string := List.last p "".

(** The path named by the formatted string [f"{p}{suf}"]. *)
Definition fstr (p : path) (suf : string) : path :=
  match p with
  | [] => ["." +:+ suf]
  | _ => removelast p ++ [name p +:+ suf]
  end.

Definition is_absolute (p : path) : bool :=
  match p with r :: _ => bool_decide (r = "/") | [] => false end.

(** [p.absolute()], for a process whose working directory is [cwd] *)
Definition absolute (cwd p : path) : path :=
  if is_absolute p then p else cwd ++ p.

Fixpoint join_parts (ps : list string) : string :=
  match ps with
  | [] => ""
  | [x] => x
  | x :: rest => x +:+ "/" +:+ join_parts rest
  end.

(** The paths [base / x1], [base / x1 / x2], ... preceded by [base]. *)
Fixpoint inits_from (base : path) (parts : list string) : list path :=
  match parts with
  | [] => [base]
  | x :: rest => base :: inits_from (base ++ [x]) rest
  end.

(** [str(p)] *)
Definition str (p : path) : string :=
  match p with
  | [] => "."
  | r :: rest => if bool_decide (r = "/") then "/" +:+ join_parts rest
                 else join_parts p
  end.

(** [s.endswith(suf)], which is how the pattern [*suf] matches a name *)
Definition ends_with (suf s : string) : bool :=
  bool_decide (String.list_ascii_of_string suf `suffix_of`
               String.list_ascii_of_string s).

(** A directory entry: a regular file with its bytes and its modification
    time, or a directory. *)
Inductive node := File (data : string) (mtime : Z) | Dir (mtime : Z).

Definition is_file (n : option node) : bool :=
  match n with Some (File _ _) => true | _ => false end.

Definition mtime_of (n : node) : Z :=
  match n with File _ t => t | Dir t => t end.

(** Calls that change the local file system. *)
Inductive fs_op :=
  | OpMkdir (p : path)                (* p.mkdir(parents=True, exist_ok=True) *)
  | OpCreate (p : path)               (* open(p, 'w') or 'wb': create or truncate *)
  | OpWrite (p : path) (d : string)   (* the file open at p now holds d *)
  | OpAppend (p : path) (d : string)  (* open(p, 'a') and write d *)
  | OpRename (src dst : path)         (* os.rename(src, dst) *)
  | OpUnlink (p : path).              (* Path.unlink() *)

(** The effect of a call on the file system when the clock reads [t], or
    the exception it raises. *)
Definition apply_op (t : Z) (op : fs_op) (fs : gmap path node)
  : exn + gmap path node :=
  match op with
  | OpMkdir p =>
      match fs !! p with
      | Some (File _ _) => inl OSError
      | Some (Dir _) => inr fs
      | None => inr (<[p := Dir t]> fs)
      end
  | OpCreate p =>
      match fs !! p with
      | Some (Dir _) => inl OSError
      | _ => inr (<[p := File "" t]> fs)
      end
  | OpWrite p d =>
      match fs !! p with
      | Some (File _ _) => inr (<[p := File d t]> fs)
      | Some (Dir _) => inl OSError
      | None => inl FileNotFoundError
      end
  | OpAppend p d =>
      match fs !! p with
      | Some (File old _) => inr (<[p := File (old +:+ d) t]> fs)
      | Some (Dir _) => inl OSError
      | None => inr (<[p := File d t]> fs)
      end
  | OpRename src dst =>
      match fs !! src, fs !! dst with
      | Some _, Some (Dir _) => inl OSError
      | Some n, _ => inr (<[dst := n]> (delete src fs))
      | None, _ => inl FileNotFoundError
      end
  | OpUnlink p =>
      match fs !! p with
      | Some (File _ _) => inr (delete p fs)
      | Some (Dir _) => inl OSError
      | None => inl FileNotFoundError
      end
  end.

(** Calls on the SSH connection and its SFTP session. *)
Inductive sftp_call :=
  | SshConnect                        (* client.connect(...) *)
  | OpenSftp                          (* client.open_sftp() *)
  | SftpStat (remote : path)
  | SftpMkdir (remote : path)
  | SftpPut (local : path) (remote : path)
  | SftpChmod (remote : path).

(** Everything that leaves the process, in the order it happened. *)
Inductive event :=
  | EvFs (op : fs_op)                       (* took effect *)
  | EvFsRaised (op : fs_op) (e : exn)       (* was attempted and raised *)
  | EvFsRead (p : path) (r : option exn)    (* open(p, 'r') and read *)
  | EvOsSync                                (* os.sync() *)
  | EvDiskUsage                             (* shutil.disk_usage *)
  | EvGpsd                                  (* gpsd.get_current() *)
  | EvRandom                                (* random.random() *)
  | EvSftp (c : sftp_call) (r : option exn).

(** The state a computation runs in: the local files, the trace, and the
    one attribute the edge code mutates after construction that outlives a
    raised exception, [ServerSynchronizer.synced_files]. *)
Record world := World {
  w_fs : gmap path node;
  w_trace : list event;
  w_synced : gset string;
}.

(** The position in time of the next call. *)
Definition now (w : world) : nat := length (w_trace w).

Definition emit (ev : event) (w : world) : world :=
  World (w_fs w) (w_trace w ++ [ev]) (w_synced w).

(** Computations: a state monad over [world] with exceptions. *)
Definition M (A : Type) : Type := world -> outcome A * world.

Definition ret {A} (a : A) : M A := fun w => (Ret a, w).

Definition bind {A B} (c : M A) (k : A -> M B) : M B :=
  fun w =>
    match c w with
    | (Ret a, w') => k a w'
    | (Raise e, w') => (Raise e, w')
    end.

Definition raise {A} (e : exn) : M A := fun w => (Raise e, w).

(** [try: c  except <classes accepted by sel> as e: h e] *)
Definition try_except {A} (c : M A) (sel : exn -> bool) (h : exn -> M A) : M A :=
  fun w =>
    match c w with
    | (Ret a, w') => (Ret a, w')
    | (Raise e, w') => if sel e then h e w' else (Raise e, w')
    end.

(** [except Exception] *)
Definition any_exception (e : exn) : bool := true.

Declare Scope py_scope.
Delimit Scope py_scope with py.
Notation "'let*' x ':=' c 'in' k" := (bind c (fun x => k))
  (at level 10, x name, c at level 100, k at level 200) : py_scope.
Notation "c '>>' k" := (bind c (fun _ => k))
  (at level 100, k at level 200, right associativity) : py_scope.

#[local] Open Scope py_scope.

(** [for x in xs: body x] *)
Fixpoint for_each {A} (xs : list A) (body : A -> M unit) : M unit :=
  match xs with
  | [] => ret tt
  | x :: rest => bind (body x) (fun _ => for_each rest body)
  end.

(** How a [while] loop ended: its condition became false, its body
    executed [break], or the model ran out of fuel. *)
Inductive loop_exit (S : Type) := CondFalse (st : S) | Broke (st : S) | OutOfFuel.
Arguments CondFalse {S} st.
Arguments Broke {S} st.
Arguments OutOfFuel {S}.

(** [while cond(st): st = body(st)], where the body answers [None] when it
    executes [break].  Python loops carry no bound; [fuel] bounds the
    number of passes the model makes. *)
Fixpoint while_loop {S} (fuel : nat) (cond : S -> bool)
    (body : S -> M (option S)) (st : S) : M (loop_exit S) :=
  if cond st then
    match fuel with
    | O => ret OutOfFuel
    | Datatypes.S fuel' =>
        let* r := body st in
        match r with
        | Some st' => while_loop fuel' cond body st'
        | None => ret (Broke st)
        end
    end
  else ret (CondFalse st).

(** [sorted(items, key=...)] on items already paired with their key:
    ascending, and stable as Python guarantees. *)
Fixpoint insert_by_key {A} (x : Z * A) (l : list (Z * A)) : list (Z * A) :=
  match l with
  | [] => [x]
  | y :: l' => if (x.1 <=? y.1)%Z then x :: y :: l' else y :: insert_by_key x l'
  end.

Definition sort_by_key {A} (l : list (Z * A)) : list (Z * A) :=
  foldr insert_by_key [] l.

(** [x < y] on the rationals that stand for Python floats *)
Definition Qltb (x y : Q) : bool := negb (Qle_bool y x).

(** JSON documents, as [json.dump] takes them and [json.load] gives them. *)
#[warnings="-register-all"]
Inductive json :=
  | JNull
  | JBool (b : bool)
  | JInt (n : Z)
  | JFloat (q : Q)
  | JStr (s : string)
  | JArr (items : list json)
  | JObj (fields : list (string * json)).

(** What the operating system answers.  Each answer is indexed by [now]:
    the number of calls made before it. *)
Record os_env := OsEnv {
  (* the local file-system call made at this time fails with an OSError
     of its own (medium unmounted, read-only, I/O error) *)
  io_raises : nat -> bool;
  (* the modification time stamped on a file written at this time *)
  clock : nat -> Z;
  (* (total, used, free) of shutil.disk_usage; None when it raises *)
  disk_usage_at : nat -> option (Z * Z * Z);
  (* the order in which a directory scan yields the entries that exist *)
  scandir : list path;
}.

Section Os.
Context (E : os_env).

Definition fs_call (op : fs_op) : M unit := fun w =>
  if io_raises E (now w) then (Raise OSError, emit (EvFsRaised op OSError) w)
  else match apply_op (clock E (now w)) op (w_fs w) with
       | inr fs' => (Ret tt, World fs' (w_trace w ++ [EvFs op]) (w_synced w))
       | inl e => (Raise e, emit (EvFsRaised op e) w)
       end.

Definition os_sync : M unit := fun w => (Ret tt, emit EvOsSync w).

Definition disk_usage : M (Z * Z * Z) := fun w =>
  match disk_usage_at E (now w) with
  | Some u => (Ret u, emit EvDiskUsage w)
  | None => (Raise OSError, emit EvDiskUsage w)
  end.

(** [p.exists()] *)
Definition path_exists (p : path) : M bool := fun w =>
  (Ret (bool_decide (is_Some (w_fs w !! p))), w).

(** [os.path.getmtime(p)] *)
Definition getmtime (p : path) : M Z := fun w =>
  match w_fs w !! p with
  | Some n => (Ret (mtime_of n), w)
  | None => (Raise FileNotFoundError, w)
  end.

(** [open(p, 'r')] and read the whole file *)
Definition read_file (p : path) : M string := fun w =>
  if io_raises E (now w) then (Raise OSError, emit (EvFsRead p (Some OSError)) w)
  else match w_fs w !! p with
       | Some (File d _) => (Ret d, emit (EvFsRead p None) w)
       | Some (Dir _) => (Raise OSError, emit (EvFsRead p (Some OSError)) w)
       | None => (Raise FileNotFoundError,
                  emit (EvFsRead p (Some FileNotFoundError)) w)
       end.

(** The name matches the pattern [pre + '*' + suf]. *)
Definition fnmatch (pre suf s : string) : bool :=
  String.prefix pre s && ends_with suf s
  && bool_decide (String.length pre + String.length suf <= String.length s).

Definition is_child (dir p : path) : bool :=
  bool_decide (removelast p = dir /\ p <> []).

(** [dir.glob(pre + '*' + suf)]: the entries directly under [dir] whose
    name matches. *)
Definition glob (dir : path) (pre suf : string) : M (list path) := fun w =>
  (Ret (filter (fun p => bool_decide (is_Some (w_fs w !! p))
                         && is_child dir p
                         && fnmatch pre suf (name p)) (scandir E)), w).

(** [sorted(paths, key=os.path.getmtime)] *)
Fixpoint with_mtime (ps : list path) : M (list (Z * path)) :=
  match ps with
  | [] => ret []
  | p :: rest =>
      let* t := getmtime p in
      let* ts := with_mtime rest in
      ret ((t, p) :: ts)
  end.

Definition sorted_by_mtime (ps : list path) : M (list path) :=
  let* keyed := with_mtime ps in
  ret ((sort_by_key keyed).*2).

(** The entries below [dir] in the files [fs], in scan order. *)
Definition listing (dir : path) (fs : gmap path node) : list path :=
  filter (fun p => bool_decide (is_Some (fs !! p))
                   && bool_decide (dir `prefix_of` p /\ p <> dir))
         (scandir E).

(** [dir.glob('**/*')]: every entry below [dir]. *)
Definition glob_all (dir : path) : M (list path) := fun w =>
  (Ret (listing dir (w_fs w)), w).
End Os.

(** *** File systems seen while a computation runs

    A computation leaves its calls in the trace.  Replaying a prefix of the
    calls it made gives a file system that another thread or a crash can
    observe while it runs. *)
Section Trace.
Context (E : os_env).

Definition step_event (t : nat) (ev : event) (fs : gmap path node)
  : gmap path node :=
  match ev with
  | EvFs op =>
      match apply_op (clock E t) op fs with inr fs' => fs' | inl _ => fs end
  | _ => fs
  end.

Fixpoint replay (t : nat) (evs : list event) (fs : gmap path node)
  : gmap path node :=
  match evs with
  | [] => fs
  | ev :: rest => replay (S t) rest (step_event t ev fs)
  end.

(** [run_spec I G Pre c Post]: started in a world that satisfies [Pre] and
    whose files satisfy [I], the computation [c] makes calls [evs] such
    that the files it ends with are the replay of [evs], every file
    system seen on the way satisfies [I], every call satisfies [G], and
    the outcome and the final world satisfy [Post]. *)
Definition run_spec {A : Type} (I : gmap path node -> Prop) (G : event -> Prop)
    (Pre : world -> Prop) (c : M A)
    (Post : outcome A -> world -> Prop) : Prop :=
  forall w, I (w_fs w) -> Pre w ->
    exists evs,
      w_trace (c w).2 = w_trace w ++ evs
      /\ w_fs (c w).2 = replay (now w) evs (w_fs w)
      /\ (forall k, I (replay (now w) (take k evs) (w_fs w)))
      /\ Forall G evs
      /\ Post (c w).1 (c w).2.
End Trace.

(** [keeps R c]: the world [c] ends in is related by [R] to the one it
    starts in. *)
Definition keeps {A : Type} (R : world -> world -> Prop) (c : M A) : Prop :=
  forall w, R w (c w).2.

End Py.

(** ** audio_recorder.py *)

Module Recorder.
Import Py.
#[local] Open Scope py_scope.

(** The fields of [AudioRecorder] that [__init__] reads from the
    environment variables; directories are kept resolved against the
    working directory, as are the keys of the file system. *)
Record config := Config {
  device_id : string;            (* DEVICE_ID *)
  ssd_mount_point : path;        (* SSD_MOUNT_POINT *)
  base_dir : path;               (* BASE_DATA_DIR *)
  output_dir : path;             (* RECORDINGS_DIR *)
  max_storage_gb : Q;            (* MAX_STORAGE_GB, a float in the source *)
  min_free_space_gb : Q;         (* SSD_MIN_FREE_GB, a float in the source *)
}.

(** The audio configuration that [__init__] fixes. *)
Definition chunk : Z := 1024.
Definition channels : Z := 6.
Definition rate : Z := 16000.
Definition record_seconds : Z := 60.
(** [self.audio.get_sample_size(pyaudio.paInt16)] *)
Definition sample_size : Z := 2.

(** [x / 2**30].  The source computes in binary floating point; the model
    computes in exact rationals. *)
Definition to_gb (bytes : Z) : Q := inject_Z bytes / inject_Z (2 ^ 30).

(** The variables of the clean-up loop of [_check_storage]. *)
Record loop_state := LoopState {
  total_used_gb : Q;
  free_gb : Q;
  recordings : list path;
}.

Section WithEnv.
Context (E : os_env) (cfg : config).
(** [json.dump(obj, f, indent=2)]: the text written for [obj]. *)
Variable json_dumps : json -> string.
(** The [wave] module: the file image for the given channel count, sample
    width, frame rate and payload, and the contents the file passes
    through while header and payload are being written. *)
Variable wave_encode : Z -> Z -> Z -> string -> string.
Variable wave_partials : string -> list string.

Definition get_recording_filename (timestamp : string) : path :=
  joinpath (output_dir cfg) (device_id cfg +:+ "_" +:+ timestamp +:+ ".wav").

(** [gps_data or {}] *)
Definition or_empty (gps_data : option (list (string * json))) : json :=
  match gps_data with
  | Some (f :: fs) => JObj (f :: fs)
  | _ => JObj []
  end.

Definition metadata (iso : string) (gps_data : option (list (string * json))) : json :=
  JObj [ ("device_id", JStr (device_id cfg));
         ("timestamp", JStr iso);
         ("location", or_empty gps_data);
         ("audio_format", JObj [ ("channels", JInt channels);
                                 ("sample_width", JInt sample_size);
                                 ("frame_rate", JInt rate) ]) ].

(** [iso] is what [datetime.now().isoformat()] returns at the call. *)
Definition save_metadata (filename : path) (iso : string)
    (gps_data : option (list (string * json))) : M unit :=
  let sidecar := fstr filename ".json" in
  fs_call E (OpCreate sidecar) >>
  fs_call E (OpWrite sidecar (json_dumps (metadata iso gps_data))).

Definition _force_sync : M unit :=
  try_except (os_sync) any_exception (fun _ => ret tt).

(** The loop condition of [_check_storage]. *)
Definition over_limit (factor : Q) (used free : Q) : bool :=
  Qltb (max_storage_gb cfg * factor) used || Qltb free (min_free_space_gb cfg).

Definition loop_cond (st : loop_state) : bool :=
  over_limit (9 # 10) (total_used_gb st) (free_gb st)
  && negb (bool_decide (recordings st = [])).

(** One pass through the body of the clean-up loop; [None] is [break]. *)
Definition loop_body (st : loop_state) : M (option loop_state) :=
  try_except
    (match recordings st with
     | [] => raise PyException               (* pop from empty list *)
     | oldest_recording :: rest =>
         let metadata_file := fstr oldest_recording ".json" in
         fs_call E (OpUnlink oldest_recording) >>
         let* has_meta := path_exists metadata_file in
         (if has_meta then fs_call E (OpUnlink metadata_file) else ret tt) >>
         let* u := disk_usage E in
         ret (Some (LoopState (to_gb u.1.2) (to_gb u.2) rest))
     end)
    any_exception
    (fun _ => ret None).

Definition cleanup_loop (fuel : nat) (st : loop_state) : M (loop_exit loop_state) :=
  while_loop fuel loop_cond loop_body st.

(** [sorted(self.output_dir.glob('*.wav'), key=os.path.getmtime)] *)
Definition sorted_recordings : M (list path) :=
  let* wavs := glob E (output_dir cfg) "" ".wav" in
  sorted_by_mtime wavs.

Definition _check_storage : M unit :=
  try_except
    (let* u := disk_usage E in
     let free_gb := to_gb u.2 in
     let total_used_gb := to_gb u.1.2 in
     if over_limit 1 total_used_gb free_gb then
       let* recordings := sorted_recordings in
       cleanup_loop (S (length recordings))
                    (LoopState total_used_gb free_gb recordings) >>
       ret tt
     else ret tt)
    any_exception
    (fun _ => ret tt).

(** Lines 149-174 of [record_audio]: the recorded frames go to a
    temporary file that is then renamed to [filename]. *)
Definition save_recording (filename : path) (frames : list string) : M unit :=
  try_except
    (let temp_filename := fstr filename ".tmp" in
     let payload := String.concat "" frames in
     fs_call E (OpCreate temp_filename) >>
     for_each (wave_partials payload)
              (fun d => fs_call E (OpWrite temp_filename d)) >>
     fs_call E (OpWrite temp_filename
                  (wave_encode channels sample_size rate payload)) >>
     fs_call E (OpRename temp_filename filename) >>
     os_sync)
    is_OSError
    (fun e => (* the mount check and the remount change no file *) raise e).

(** What one pass through the loop of [record_audio] reads from outside. *)
Record cycle_input := CycleInput {
  check_due : bool;      (* current_time - last_check_time > 300 *)
  free_space_gb : outcome Q;  (* self._get_available_space_gb(...), or its error *)
  timestamp : string;    (* strftime in get_recording_filename *)
  sync_due : bool;       (* time.time() - self.last_sync_time > sync_interval *)
  audio : outcome (list string);  (* the frames read, or the error of the stream *)
  iso : string;          (* isoformat in save_metadata *)
}.

(** One pass through the [while self.recording] loop of [record_audio]. *)
Definition record_cycle (i : cycle_input) : M unit :=
  try_except
    ((if check_due i then
        let* free_space := (fun w => (free_space_gb i, w)) in
        if Qltb free_space (min_free_space_gb cfg) then _check_storage else ret tt
      else ret tt) >>
     fs_call E (OpMkdir (output_dir cfg)) >>
     let filename := get_recording_filename (timestamp i) in
     (if sync_due i then _force_sync else ret tt) >>
     let* frames := (fun w => (audio i, w)) in
     save_recording filename frames >>
     save_metadata filename (iso i) None)
    any_exception
    (fun _ => ret tt).

End WithEnv.

(** *** The frames of one recording and the recording loop *)

(** [int(x)] on a float: truncation towards zero. *)
Definition py_int (x : Q) : Z := Z.quot (Qnum x) (Z.pos (Qden x)).

(** [int(self.rate / self.chunk * self.record_seconds)]: the number of
    reads the loop at lines 138-142 asks for. *)
Definition chunks_per_file : Z :=
  py_int (inject_Z rate / inject_Z chunk * inject_Z record_seconds).

(** What the audio device answers during one pass. *)
Record stream := Stream {
  stream_open : option exn;             (* self.audio.open(...) raises *)
  recording_at : nat -> bool;           (* self.recording before the k-th read *)
  stream_read : nat -> outcome string;  (* the k-th stream.read(self.chunk) *)
  stream_close : option exn;            (* stop_stream() or close() raises *)
}.

(** Lines 138-142 from the [k]-th read on, with [n] reads still to go. *)
Fixpoint read_frames (s : stream) (n k : nat) (frames : list string)
  : outcome (list string) :=
  match n with
  | O => Ret frames
  | S n' =>
      if negb (recording_at s k) then Ret frames
      else match stream_read s k with
           | Ret data => read_frames s n' (S k) (frames ++ [data])
           | Raise e => Raise e
           end
  end.

(** Lines 126-146: open the stream, read the chunks, stop and close. *)
Definition capture (s : stream) : outcome (list string) :=
  match stream_open s with
  | Some e => Raise e
  | None =>
      match read_frames s (Z.to_nat chunks_per_file) 0 [] with
      | Ret frames =>
          match stream_close s with Some e => Raise e | None => Ret frames end
      | Raise e => Raise e
      end
  end.

(** [self._get_available_space_gb(path)] from the fields of [os.statvfs]. *)
Definition _get_available_space_gb (f_bavail f_frsize : Z) : Q :=
  to_gb (f_bavail * f_frsize).

Section Loop.
Context (E : os_env) (cfg : config).
Variable json_dumps : json -> string.
Variable wave_encode : Z -> Z -> Z -> string -> string.
Variable wave_partials : string -> list string.

(** [record_audio]: one pass through the loop for each input, for as long
    as [self.recording] is found set at the head of the loop. *)
Definition record_audio (passes : list cycle_input) : M unit :=
  for_each passes (record_cycle E cfg json_dumps wave_encode wave_partials).
End Loop.

(** *** Notions used to state what the recorder does *)

(** The modification time [_check_storage] sorts a recording by. *)
Definition mtime_key (fs : gmap path node) (p : path) : Z :=
  from_option mtime_of 0%Z (fs !! p).



(** The file at [p], if there is one, is a whole wave file: the image the
    [wave] module produces for some payload. *)
Definition whole_wave (wave_encode : Z -> Z -> Z -> string -> string)
    (fs : gmap path node) (p : path) : Prop :=
  forall d t, fs !! p = Some (File d t) ->
    exists payload, d = wave_encode channels sample_size rate payload.

(** Every file at a recording path [*.wav] is a whole wave file. *)
Definition wav_complete (wave_encode : Z -> Z -> Z -> string -> string)
    (fs : gmap path node) : Prop :=
  forall p, ends_with ".wav" (name p) = true -> whole_wave wave_encode fs p.

(** The whole file a cycle is to leave at its recording path: the image of
    all the frames it accumulated. *)
Definition whole_file (wave_encode : Z -> Z -> Z -> string -> string)
    (audio : outcome (list string)) : string :=
  wave_encode channels sample_size rate
    (String.concat "" (match audio with Ret frames => frames | Raise _ => [] end)).

(** The path [p] is absent, or as it was in [fs0], or holds the whole
    file [full]. *)
Definition absent_old_or_full (fs0 : gmap path node) (p : path) (full : string)
    (fs : gmap path node) : Prop :=
  fs !! p = None \/ fs !! p = fs0 !! p \/ exists t, fs !! p = Some (File full t).

(** What holds of the files throughout a capture cycle that started with
    the files [fs0] and records to [filename] the whole file [full]. *)
Definition cycle_invariant (wave_encode : Z -> Z -> Z -> string -> string)
    (fs0 : gmap path node) (filename : path) (full : string)
    (fs : gmap path node) : Prop :=
  wav_complete wave_encode fs /\ absent_old_or_full fs0 filename full fs.

(** The call does not write in place to a recording path. *)
Definition no_write_in_place (ev : event) : Prop :=
  match ev with
  | EvFs (OpCreate p) | EvFs (OpWrite p _) | EvFs (OpAppend p _) =>
      ends_with ".wav" (name p) = false
  | _ => True
  end.


(** In [evs] the metadata file of a recording is never unlinked after the
    recording itself. *)
Definition metadata_unlinked_first (evs : list event) : Prop :=
  forall r i j,
    evs !! i = Some (EvFs (OpUnlink r)) ->
    evs !! j = Some (EvFs (OpUnlink (fstr r ".json"))) ->
    j < i.

(** No metadata file is left without its recording. *)
Definition no_orphan_metadata (fs : gmap path node) : Prop :=
  forall r, is_Some (fs !! fstr r ".json") -> is_Some (fs !! r).

(** What one pass of the clean-up loop on the recording [r], with [rest]
    the candidates after it and [fs] the files before it, can do: the
    calls it makes, the loop state it hands on ([None] for [break]), and
    the files after it. *)
Inductive deletes_pair (r : path) (rest : list path) (fs : gmap path node)
  : list event -> option loop_state -> gmap path node -> Prop :=
  | recording_unlink_raises e :
      deletes_pair r rest fs [EvFsRaised (OpUnlink r) e] None fs
  | recording_without_metadata o :
      fs !! fstr r ".json" = None ->
      (forall st', o = Some st' -> recordings st' = rest) ->
      deletes_pair r rest fs [EvFs (OpUnlink r); EvDiskUsage] o (delete r fs)
  | recording_then_metadata o :
      (forall st', o = Some st' -> recordings st' = rest) ->
      deletes_pair r rest fs
        [EvFs (OpUnlink r); EvFs (OpUnlink (fstr r ".json")); EvDiskUsage]
        o (delete (fstr r ".json") (delete r fs))
  | metadata_unlink_raises e :
      is_Some (fs !! fstr r ".json") ->
      deletes_pair r rest fs
        [EvFs (OpUnlink r); EvFsRaised (OpUnlink (fstr r ".json")) e]
        None (delete r fs).

(** A recording of the output directory, as the scan of [_check_storage]
    matches it: a direct child named [*.wav]. *)
Definition is_recording (cfg : config) (p : path) : bool :=
  is_child (output_dir cfg) p && fnmatch "" ".wav" (name p).

(** A path [_check_storage] may delete: a recording of the output
    directory, or the metadata file of one. *)
Definition evictable (cfg : config) (p : path) : Prop :=
  is_recording cfg p = true
  \/ exists r, is_recording cfg r = true /\ p = fstr r ".json".

(** A call [_check_storage] may make. *)
Definition reclaim_call (cfg : config) (ev : event) : Prop :=
  match ev with
  | EvDiskUsage => True
  | EvFs (OpUnlink p) | EvFsRaised (OpUnlink p) _ => evictable cfg p
  | _ => False
  end.

(** From [w] to [w'] nothing happened but calls of [_check_storage]: no
    file appeared or changed, and the files that went were evictable. *)
Definition reclaims (cfg : config) (w w' : world) : Prop :=
  w_synced w' = w_synced w
  /\ (forall p, w_fs w' !! p = w_fs w !! p
                \/ (w_fs w' !! p = None /\ evictable cfg p))
  /\ exists evs, w_trace w' = w_trace w ++ evs /\ Forall (reclaim_call cfg) evs.

(** A call of the clean-up: a reading of the disk usage, or an unlink. *)
Definition cleanup_call (ev : event) : Prop :=
  match ev with
  | EvDiskUsage | EvFs (OpUnlink _) | EvFsRaised (OpUnlink _) _ => True
  | _ => False
  end.

End Recorder.

(** ** gps_tracker.py *)

Module Gps.
Import Py.
#[local] Open Scope py_scope.

(** What [gpsd.get_current()] answers.  [time] is the formatted result of
    [packet.get_time()], which raises when the packet carries no time; an
    attribute that may be missing is an [option]. *)
Record packet := Packet {
  mode : Z;
  time : outcome string;
  lat : Q;
  lon : Q;
  alt : option Q;
  hspeed : option Q;
  track : option Q;
  sats : Z;
  error : option (list (string * Q));
}.

(** [max_gps_logs] *)
Definition max_gps_logs : nat := 30.

Definition newline : string := String (ascii_of_nat 10) EmptyString.

Definition opt_float (x : option Q) : json :=
  match x with Some q => JFloat q | None => JNull end.

(** [d.get(k, 0)] *)
Definition get_or_zero (d : list (string * Q)) (k : string) : json :=
  match List.find (fun kv => bool_decide (kv.1 = k)) d with
  | Some kv => JFloat kv.2
  | None => JInt 0
  end.

Section WithEnv.
Context (E : os_env).
Variable gps_available : bool.
Variable data_dir : path.
(** [gpsd.get_current()] at a given time: a packet, or an exception. *)
Variable gpsd_at : nat -> outcome packet.
(** [random.random()] at a given time. *)
Variable random_at : nat -> Q.
(** [json.dumps(obj)] *)
Variable json_dumps : json -> string.

Definition gpsd_get_current : M packet := fun w =>
  (gpsd_at (now w), emit EvGpsd w).

Definition random : M Q := fun w => (Ret (random_at (now w)), emit EvRandom w).

Definition get_current_location : M (option (list (string * json))) :=
  if negb gps_available then ret None
  else
    try_except
      (let* packet := gpsd_get_current in
       if (2 <=? mode packet)%Z then
         let* ts := (fun w => (time packet, w)) in
         ret (Some
           [ ("timestamp", JStr ts);
             ("latitude", JFloat (lat packet));
             ("longitude", JFloat (lon packet));
             ("altitude", opt_float (alt packet));
             ("speed", opt_float (hspeed packet));
             ("track", opt_float (track packet));
             ("mode", JInt (mode packet));
             ("satellites_used", JInt (sats packet));
             ("error", match error packet with
                       | Some err => JObj [ ("lat", get_or_zero err "y");
                                            ("lon", get_or_zero err "x");
                                            ("alt", get_or_zero err "v") ]
                       | None => JObj []
                       end) ])
       else ret None)
      any_exception
      (fun _ => ret None).

(** The body of the loop of [_cleanup_old_logs]. *)
Definition cleanup_body (gps_logs : list path) : M (option (list path)) :=
  try_except
    (match gps_logs with
     | [] => raise PyException
     | old_log :: rest => fs_call E (OpUnlink old_log) >> ret (Some rest)
     end)
    any_exception
    (fun _ => ret None).

Definition _cleanup_old_logs : M unit :=
  try_except
    (let* logs := glob E data_dir "gps_" ".jsonl" in
     let* gps_logs := sorted_by_mtime logs in
     while_loop (S (length gps_logs))
                (fun l => bool_decide (max_gps_logs < length l))
                cleanup_body gps_logs >>
     ret tt)
    any_exception
    (fun _ => ret tt).

(** [if location:] a dictionary is true when it is not empty. *)
Definition truthy (location : option (list (string * json))) : bool :=
  match location with Some (_ :: _) => true | _ => false end.

(** [today] is [datetime.utcnow().strftime('%Y%m%d')] at the call. *)
Definition log_location (today : string) : M (option (list (string * json))) :=
  let* location := get_current_location in
  (if truthy location then
     let filename := joinpath data_dir ("gps_" +:+ today +:+ ".jsonl") in
     try_except
       (fs_call E (OpAppend filename
                     (json_dumps (JObj (default [] location)) +:+ newline)) >>
        let* r := random in
        if Qltb r (1 # 100) then _cleanup_old_logs else ret tt)
       any_exception
       (fun _ => ret tt)
   else ret tt) >>
  ret location.

(** The tick at which [w] stands gets no fix: the read from gpsd fails,
    or the packet it returns has a mode below 2. *)
Definition no_fix (w : world) : Prop :=
  match gpsd_at (now w) with
  | Raise _ => True
  | Ret packet => (mode packet < 2)%Z
  end.

(** The lines appended to log files by the calls in [evs]. *)
Definition appended (evs : list event) : list (path * string) :=
  omap (fun ev => match ev with
                  | EvFs (OpAppend p d) => Some (p, d)
                  | _ => None
                  end) evs.

(** [start_tracking]: one pass of the loop for each tick that elapses
    before [running] is cleared; a tick carries the date it falls on. *)
Definition start_tracking (ticks : list string) : M unit :=
  if negb gps_available then ret tt
  else
    try_except
      (for_each ticks (fun today => log_location today >> ret tt))
      any_exception
      (fun _ => ret tt).

End WithEnv.

(** *** Notions used to state what the tracker does *)

(** The record [get_current_location] builds from a packet with a fix whose
    time formats to [ts]. *)
Definition fix_record (pk : packet) (ts : string) : list (string * json) :=
  [ ("timestamp", JStr ts);
    ("latitude", JFloat (lat pk));
    ("longitude", JFloat (lon pk));
    ("altitude", opt_float (alt pk));
    ("speed", opt_float (hspeed pk));
    ("track", opt_float (track pk));
    ("mode", JInt (mode pk));
    ("satellites_used", JInt (sats pk));
    ("error", match error pk with
              | Some err => JObj [ ("lat", get_or_zero err "y");
                                   ("lon", get_or_zero err "x");
                                   ("alt", get_or_zero err "v") ]
              | None => JObj []
              end) ].

(** The daily log [log_location] writes to on the day [today]. *)
Definition daily_log (data_dir : path) (today : string) : path :=
  joinpath data_dir ("gps_" +:+ today +:+ ".jsonl").

(** The text of the file at [p]; empty when there is none. *)
Definition text_of (fs : gmap path node) (p : path) : string :=
  match fs !! p with Some (File d _) => d | _ => "" end.

(** A log file of the tracker, as the scan of [_cleanup_old_logs] matches
    it: a direct child of the data directory named [gps_*.jsonl]. *)
Definition is_gps_log (data_dir : path) (p : path) : bool :=
  is_child data_dir p && fnmatch "gps_" ".jsonl" (name p).

(** A call the tracker may make: a read from gpsd, a random draw, an
    append to a log file or the unlink of one. *)
Definition tracker_call (data_dir : path) (ev : event) : Prop :=
  match ev with
  | EvGpsd | EvRandom => True
  | EvFs (OpAppend p _) | EvFsRaised (OpAppend p _) _
  | EvFs (OpUnlink p) | EvFsRaised (OpUnlink p) _ => is_gps_log data_dir p = true
  | _ => False
  end.

(** From [w] to [w'] nothing happened but calls of the tracker, and no
    file other than a log file changed. *)
Definition tracks (data_dir : path) (w w' : world) : Prop :=
  w_synced w' = w_synced w
  /\ (forall p, is_gps_log data_dir p = false -> w_fs w' !! p = w_fs w !! p)
  /\ exists evs, w_trace w' = w_trace w ++ evs
                 /\ Forall (tracker_call data_dir) evs.

End Gps.

(** ** sync_to_server.py *)

Module Sync.
Import Py.
#[local] Open Scope py_scope.

(** The fields of [ServerSynchronizer] that [__init__] reads from the
    environment variables, and the working directory of the process.  The
    local directories are kept resolved against the working directory, as
    are the keys of the file system. *)
Record config := Config {
  cwd : path;
  server_address : option string;     (* VPS_SERVER_ADDRESS *)
  server_username : option string;    (* VPS_USERNAME *)
  local_recordings_dir : path;        (* RECORDINGS_DIR *)
  local_gps_dir : path;               (* GPS_DATA_DIR *)
  remote_base_dir : path;             (* REMOTE_BASE_DIR *)
}.

(** A string read from the environment is true when set and not empty. *)
Definition is_set (v : option string) : bool :=
  match v with Some s => negb (bool_decide (s = "")) | None => false end.

(** [d.get(key, [])] on a parsed document; a document that is not an
    object has no [get]. *)
Definition get_or_empty (doc : json) (key : string) : option json :=
  match doc with
  | JObj fields =>
      match List.find (fun kv => bool_decide (kv.1 = key)) fields with
      | Some kv => Some kv.2
      | None => Some (JArr [])
      end
  | _ => None
  end.

Definition chars (s : string) : list string :=
  (fun c => String c EmptyString) <$> String.list_ascii_of_string s.

(** The strings among the members of a list; [None] when a member cannot
    be hashed. *)
Fixpoint hashable_strings (items : list json) : option (list string) :=
  match items with
  | [] => Some []
  | JStr s :: rest => cons s <$> hashable_strings rest
  | JArr _ :: _ | JObj _ :: _ => None
  | _ :: rest => hashable_strings rest
  end.

(** [set(v)].  [None] is a TypeError.  Members that are not strings are
    left out of the model's set: they never compare equal to the
    [str(path)] that [sync_files] looks up. *)
Definition py_set (v : json) : option (gset string) :=
  match v with
  | JArr items => list_to_set <$> hashable_strings items
  | JStr s => Some (list_to_set (chars s))
  | JObj fields => Some (list_to_set (fields.*1))
  | _ => None
  end.

Section WithEnv.
Context (E : os_env) (cfg : config).
(** What the server answers to a call at a given time: [None] when the
    call succeeds, the exception it raises otherwise. *)
Variable sftp_at : nat -> sftp_call -> option exn.
(** [json.load]: the document a text parses to, [None] when it does not. *)
Variable json_loads : string -> option json.
(** [json.dump(obj, f, indent=2)] *)
Variable json_dumps : json -> string.

Definition remote_recordings_dir : path := joinpath (remote_base_dir cfg) "recordings".
Definition remote_gps_dir : path := joinpath (remote_base_dir cfg) "gps_data".

(** [self.sync_log_file], as the file the process opens. *)
Definition sync_log_file : path := absolute (cwd cfg) ["sync_status.json"].

Definition sftp (c : sftp_call) : M unit := fun w =>
  let r := sftp_at (now w) c in
  (match r with None => Ret tt | Some e => Raise e end, emit (EvSftp c r) w).

Definition get_synced : M (gset string) := fun w => (Ret (w_synced w), w).

Definition set_synced (s : gset string) : M unit := fun w =>
  (Ret tt, World (w_fs w) (w_trace w) s).

Definition _load_sync_status : M (gset string) :=
  let* found := path_exists sync_log_file in
  if found then
    try_except
      (let* text := read_file E sync_log_file in
       match json_loads text with
       | None => raise PyException                       (* JSONDecodeError *)
       | Some doc =>
           match get_or_empty doc "synced_files" with
           | None => raise PyException                   (* AttributeError *)
           | Some v =>
               match py_set v with
               | None => raise PyException               (* TypeError *)
               | Some s => ret s
               end
           end
       end)
      any_exception
      (fun _ => ret ∅)
  else ret ∅.

(** The index file is missing, cannot be read, or does not hold JSON. *)
Definition index_unusable (w : world) : Prop :=
  w_fs w !! sync_log_file = None
  \/ io_raises E (now w) = true
  \/ (exists t, w_fs w !! sync_log_file = Some (Dir t))
  \/ (exists d t, w_fs w !! sync_log_file = Some (File d t)
                  /\ json_loads d = None).

(** The index file can be read and holds a document whose [synced_files]
    make up the set [s]. *)
Definition index_lists (w : world) (s : gset string) : Prop :=
  io_raises E (now w) = false
  /\ exists d t doc v,
       w_fs w !! sync_log_file = Some (File d t)
       /\ json_loads d = Some doc
       /\ get_or_empty doc "synced_files" = Some v
       /\ py_set v = Some s.

(** The part of [__init__] that sets [self.synced_files]. *)
Definition init : M unit :=
  let* s := _load_sync_status in
  set_synced s.

Definition index_document (s : gset string) : json :=
  JObj [ ("synced_files", JArr (JStr <$> elements s)) ].

Definition _save_sync_status : M unit :=
  try_except
    (let* s := get_synced in
     fs_call E (OpCreate sync_log_file) >>
     fs_call E (OpWrite sync_log_file (json_dumps (index_document s))))
    any_exception
    (fun _ => ret tt).

(** [false] stands for the [None] returned when connecting fails. *)
Definition _get_ssh_client : M bool :=
  try_except (sftp SshConnect >> ret true) any_exception (fun _ => ret false).

Definition _ensure_remote_directories : M unit :=
  try_except
    (for_each [remote_recordings_dir; remote_gps_dir] (fun directory =>
       try_except (sftp (SftpStat directory))
                  is_FileNotFoundError
                  (fun _ => sftp (SftpMkdir directory))))
    any_exception
    (fun e => raise e).

Definition _upload_file (local_path remote_path : path) : M bool :=
  try_except
    (sftp (SftpPut local_path remote_path) >>
     sftp (SftpChmod remote_path) >>
     let* s := get_synced in
     set_synced ({[ str (absolute (cwd cfg) local_path) ]} ∪ s) >>
     _save_sync_status >>
     ret true)
    any_exception
    (fun _ => ret false).

(** Lines 156-167: make sure the remote parent directory exists. *)
Definition ensure_remote_parent (remote_parent : path) : M unit :=
  try_except
    (sftp (SftpStat remote_parent))
    is_FileNotFoundError
    (fun _ =>
       match remote_parent with
       | [] => raise PyException                          (* parts[0] *)
       | first :: parts =>
           for_each (tail (inits_from [first] parts)) (fun current_path =>
             try_except (sftp (SftpMkdir current_path))
                        is_OSError
                        (fun _ => ret tt))
       end).

(** The body of the inner loop of [sync_files], lines 151-173. *)
Definition sync_one (local_dir remote_dir file_path : path) : M unit :=
  let* isfile := (fun w => (Ret (is_file (w_fs w !! file_path)), w)) in
  let* s := get_synced in
  if isfile && negb (bool_decide (str (absolute (cwd cfg) file_path) ∈ s)) then
    let remote_path := remote_dir ++ drop (length local_dir) file_path in
    let remote_parent := parent remote_path in
    ensure_remote_parent remote_parent >>
    _upload_file file_path remote_path >>
    ret tt
  else ret tt.

(** [sync_files].  The [finally] clause closes [sftp] and [client]; when
    [open_sftp] itself raised, [sftp] is unbound there and the clause
    raises in its turn. *)
Definition sync_files : M bool :=
  if negb (is_set (server_address cfg) && is_set (server_username cfg))
  then ret false
  else
    let* client := _get_ssh_client in
    if negb client then ret false
    else
      let* opened := try_except (sftp OpenSftp >> ret true)
                                any_exception (fun _ => ret false) in
      if negb opened then raise PyException
      else
        try_except
          (_ensure_remote_directories >>
           for_each [ (local_recordings_dir cfg, remote_recordings_dir);
                      (local_gps_dir cfg, remote_gps_dir) ]
             (fun dirs =>
                let* files := glob_all E dirs.1 in
                for_each files (sync_one dirs.1 dirs.2)) >>
           ret true)
          any_exception
          (fun _ => ret false).

(** *** Notions used to state what the synchronizer does *)

(** The transfers attempted by the calls in [evs]. *)
Definition puts (evs : list event) : list (path * path) :=
  omap (fun ev => match ev with
                  | EvSftp (SftpPut l r) _ => Some (l, r)
                  | _ => None
                  end) evs.

Definition managed_dirs : list path :=
  [local_recordings_dir cfg; local_gps_dir cfg].

(** Every file under the managed directories listed by [sync_files] in
    the files [fs] has its absolute path in the set [s]. *)
Definition covered (fs : gmap path node) (s : gset string) : Prop :=
  forall dir p, dir ∈ managed_dirs -> p ∈ listing E dir fs ->
    is_file (fs !! p) = true -> str (absolute (cwd cfg) p) ∈ s.

Definition all_synced (w : world) : Prop := covered (w_fs w) (w_synced w).

(** The server accepts every transfer. *)
Definition accepts_transfers : Prop :=
  forall t l r, sftp_at t (SftpPut l r) = None /\ sftp_at t (SftpChmod r) = None.

(** The index file does not lie under a managed directory. *)
Definition index_outside : Prop :=
  forall dir, dir ∈ managed_dirs -> ~ dir `prefix_of` sync_log_file.

(** How [_save_sync_status] rewrites the index file [sync_log_file] with
    the text [doc], from the files [fs]: the calls it makes and the files
    it leaves. *)
Inductive rewrites_index_in_place (doc : string) (fs : gmap path node)
  : list event -> gmap path node -> Prop :=
  | open_raises e :
      rewrites_index_in_place doc fs
        [EvFsRaised (OpCreate sync_log_file) e] fs
  | write_raises e t :
      rewrites_index_in_place doc fs
        [EvFs (OpCreate sync_log_file);
         EvFsRaised (OpWrite sync_log_file doc) e]
        (<[sync_log_file := File "" t]> fs)
  | index_rewritten t :
      rewrites_index_in_place doc fs
        [EvFs (OpCreate sync_log_file); EvFs (OpWrite sync_log_file doc)]
        (<[sync_log_file := File doc t]> fs).

(** The index file is replaced atomically by the calls [evs] made from
    [w]: whenever it is looked at, it is as before them or as after. *)
Definition index_replaced_atomically (w : world) (evs : list event) : Prop :=
  forall k,
    replay E (now w) (take k evs) (w_fs w) !! sync_log_file
    = w_fs w !! sync_log_file
    \/ replay E (now w) (take k evs) (w_fs w) !! sync_log_file
       = replay E (now w) evs (w_fs w) !! sync_log_file.

(** Files and index set are as they were. *)
Definition unchanged (w w' : world) : Prop :=
  w_fs w' = w_fs w /\ w_synced w' = w_synced w.

(** Files and index set are as they were, and no transfer was attempted. *)
Definition no_transfer (w w' : world) : Prop :=
  unchanged w w'
  /\ exists evs, w_trace w' = w_trace w ++ evs /\ puts evs = [].

(** Nothing but the index file changed, and the index set only grew. *)
Definition index_grows (w w' : world) : Prop :=
  (forall p, p <> sync_log_file -> w_fs w' !! p = w_fs w !! p)
  /\ w_synced w ⊆ w_synced w'.


(** The local path [l] goes to the remote path [r] that lies at the same
    place under the remote directory as [l] under its managed directory. *)
Definition mirrored (l r : path) : Prop :=
  exists rel, rel <> []
    /\ ((l = local_recordings_dir cfg ++ rel /\ r = remote_recordings_dir ++ rel)
        \/ (l = local_gps_dir cfg ++ rel /\ r = remote_gps_dir ++ rel)).

(** A transfer, if the call is one, is mirrored and is of a file whose
    absolute path is not in the set [s0]. *)
Definition transfers_new (s0 : gset string) (ev : event) : Prop :=
  match ev with
  | EvSftp (SftpPut l r) _ => mirrored l r /\ str (absolute (cwd cfg) l) ∉ s0
  | _ => True
  end.

(** The directories [sftp.mkdir] was called on, in the order of the calls. *)
Definition mkdirs (evs : list event) : list path :=
  omap (fun ev => match ev with
                  | EvSftp (SftpMkdir p) _ => Some p
                  | _ => None
                  end) evs.

(** An [sftp.stat] that raised something other than [FileNotFoundError]. *)
Definition failed_stat (ev : event) : Prop :=
  match ev with
  | EvSftp (SftpStat _) (Some e) => is_FileNotFoundError e = false
  | _ => False
  end.

(** The calls [evs], made by a computation that ended with [r], hold no
    failed stat, or hold one as their last call, and then [r] is [stop]. *)
Definition stops_at_failed_stat {A} (stop : outcome A -> Prop)
    (evs : list event) (r : outcome A) : Prop :=
  Forall (fun ev => ~ failed_stat ev) evs
  \/ exists evs0 ev, evs = evs0 ++ [ev]
       /\ Forall (fun ev => ~ failed_stat ev) evs0 /\ failed_stat ev /\ stop r.

(** The calls [evs] hold a transfer, made or failed, of a local file whose
    absolute path reads [s]. *)
Definition offers (s : string) (evs : list event) : Prop :=
  exists l r res, str (absolute (cwd cfg) l) = s
                  /\ EvSftp (SftpPut l r) res ∈ evs.

End WithEnv.
End Sync.

(** ** bird_recorder_service.py: the sync scheduler *)

Module Service.
Import Py.

(** A naive local [datetime]: the proleptic Gregorian ordinal of its day
    and the microseconds elapsed since midnight. *)
Record datetime := Datetime { ordinal : Z; micros : Z }.

Definition micros_per_day : Z := 86400000000.

(** [date.max.toordinal()] *)
Definition max_ordinal : Z := 3652059.

(** [(now + timedelta(days=1)).replace(hour=0, minute=0, second=0,
    microsecond=0)]; the addition raises [OverflowError] past the last
    day a [datetime] can hold. *)
Definition next_midnight (now : datetime) : outcome datetime :=
  if (ordinal now + 1 <=? max_ordinal)%Z
  then Ret (Datetime (ordinal now + 1) 0)
  else Raise PyException.

(** [(later - earlier).total_seconds()] *)
Definition total_seconds (later earlier : datetime) : Q :=
  ((ordinal later - ordinal earlier) * micros_per_day
   + (micros later - micros earlier)) # 1000000.

(** [min(60, wait_seconds)] *)
Definition sleep_chunk (wait_seconds : Q) : Q :=
  if Qle_bool 60 wait_seconds then 60 else wait_seconds.

(** How the wait of one pass of [sync_loop] ended. *)
Record waited := Waited {
  last_wait : Q;          (* wait_seconds when the inner loop was left *)
  reads : nat;            (* reads of self.running made so far *)
  sleeps : list Q;        (* the arguments of time.sleep, in order *)
}.

Section Scheduler.
(** The value the [k]-th read of [self.running] finds, and the [k]-th
    clock reading taken inside the inner loop. *)
Variable running_at : nat -> bool.
Variable clock_at : nat -> datetime.

(** Lines 115-117: [while wait_seconds > 0 and self.running], entered for
    the [k]-th time; [self.running] is read only when the wait is
    positive. *)
Fixpoint wait_loop (fuel : nat) (next_sync : datetime) (wait_seconds : Q)
    (k : nat) (slept : list Q) : option waited :=
  if Qltb 0 wait_seconds then
    if running_at k then
      match fuel with
      | O => None
      | S fuel' =>
          wait_loop fuel' next_sync (total_seconds next_sync (clock_at k))
                    (S k) (slept ++ [sleep_chunk wait_seconds])
      end
    else Some (Waited wait_seconds (S k) slept)
  else Some (Waited wait_seconds k slept).

(** Lines 106-121, up to the call of [sync_files]: whether the pass goes
    on to synchronize, with the wait that preceded.  [None] stands for a
    wait the fuel does not cover. *)
Definition sync_pass (fuel : nat) (now : datetime) : outcome (option (bool * waited)) :=
  match next_midnight now with
  | Raise e => Raise e
  | Ret next_sync =>
      Ret (match wait_loop fuel next_sync (total_seconds next_sync now) 0 [] with
           | None => None
           | Some r => Some (running_at (reads r), r)
           end)
  end.
End Scheduler.

(** A [datetime] holds a time of day. *)
Definition valid (t : datetime) : Prop :=
  (0 <= micros t < micros_per_day)%Z.

End Service.

(** ** A device with two recordings *)

Module Scenario.
Import Py.

Definition gib : Z := 2 ^ 30.

Definition recordings_dir : path := ["/"; "mnt"; "ssd"; "bird_recorder"; "recordings"].

Definition recorder_cfg : Recorder.config :=
  Recorder.Config "dev" ["/"; "mnt"; "ssd"] ["/"; "mnt"; "ssd"; "bird_recorder"]
                  recordings_dir 400 10.

(** Captured on 1 January, last modified at time 200. *)
Definition jan01 : path := recordings_dir ++ ["dev_20240101_000000.wav"].
(** Captured on 2 January, last modified at time 100. *)
Definition jan02 : path := recordings_dir ++ ["dev_20240102_000000.wav"].

Definition two_recordings : gmap path node :=
  <[ jan01 := File "RIFF1" 200 ]>
  (<[ fstr jan01 ".json" := File "{}" 200 ]>
  (<[ jan02 := File "RIFF2" 100 ]>
  (<[ fstr jan02 ".json" := File "{}" 100 ]> ∅))).

(** The disk is over the budget at the first reading and under 90% of it
    from the second reading on; the file-system call made at time
    [fails_at], if any, raises. *)
Definition disk (fails_at : option nat) : os_env :=
  OsEnv (fun t => bool_decide (fails_at = Some t))
        (fun t => Z.of_nat t)
        (fun t => if bool_decide (t = 0)
                  then Some (1000 * gib, 500 * gib, 500 * gib)%Z
                  else Some (1000 * gib, 300 * gib, 700 * gib)%Z)
        [jan01; fstr jan01 ".json"; jan02; fstr jan02 ".json"].

Definition start : world := World two_recordings [] ∅.

(** The same disk when a directory scan also yields the paths of the
    cycle of 3 January. *)
Definition disk_scanning_jan03 : os_env :=
  OsEnv (io_raises (disk None)) (clock (disk None)) (disk_usage_at (disk None))
        (scandir (disk None)
           ++ [recordings_dir ++ ["dev_20240103_000000.wav.tmp"];
               recordings_dir ++ ["dev_20240103_000000.wav"]]).

(** A stand-in for the [wave] module: a tag, then the payload. *)
Definition toy_wave (nchannels sampwidth framerate : Z) (payload : string) : string :=
  "RIFF" +:+ payload.

(** A capture cycle on 3 January that reads two chunks. *)
Definition jan03_cycle : Recorder.cycle_input :=
  Recorder.CycleInput false (Ret (100 # 1)) "20240103_000000" false (Ret ["ab"; "cd"])
                      "2024-01-03T00:01:00".

Definition jan03 : path := recordings_dir ++ ["dev_20240103_000000.wav"].

(** A packet with a 3D fix, and a packet without a fix. *)
Definition fix_packet : Gps.packet :=
  Gps.Packet 3 (Ret "2024-01-03T00:00:59") (3408 # 100) (7479 # 100)
             (Some (1585 # 1)) (Some (0 # 1)) (Some (0 # 1)) 9 (Some []).

Definition no_fix_packet : Gps.packet :=
  Gps.Packet 1 (Raise PyException) 0 0 None None None 0 None.

(** The synchronizer of the same device. *)
Definition gps_dir : path := ["/"; "mnt"; "ssd"; "bird_recorder"; "gps_data"].

Definition sync_cfg : Sync.config :=
  Sync.Config ["/"; "home"; "pi"] (Some "vps.example.org") (Some "pi")
              recordings_dir gps_dir ["/"; "srv"; "audio"].

(** A server that accepts every call. *)
Definition server_accepts : nat -> sftp_call -> option exn := fun _ _ => None.


(** A stand-in for [json.dump] on index documents: the listed paths,
    separated by commas. *)
Definition toy_dumps (doc : json) : string :=
  match doc with
  | JObj [(_, JArr items)] =>
      String.concat "," (omap (fun j => match j with
                                        | JStr s => Some s
                                        | _ => None
                                        end) items)
  | _ => ""
  end.

(** The device when the index already lists the first recording. *)
Definition index_file : path := ["/"; "home"; "pi"; "sync_status.json"].

Definition jan01_synced : world :=
  World (<[ index_file := File (str jan01) 50 ]> two_recordings) []
        {[ str jan01 ]}.

(** The device after one call, when the disk is read as within budget. *)
Definition after_one_call : world := World two_recordings [EvOsSync] ∅.

(** A stream on which the recorder is stopped before the third read. *)
Definition stopped_stream : Recorder.stream :=
  Recorder.Stream None (fun k => bool_decide (k < 2)) (fun _ => Ret "ab") None.

(** A packet with a fix whose time cannot be read. *)
Definition timeless_packet : Gps.packet :=
  Gps.Packet 3 (Raise PyException) (3408 # 100) (7479 # 100)
             None None None 9 None.

(** Servers that refuse the connection, the session, the change of mode
    and every transfer, and a server on which no directory exists yet and
    every [mkdir] finds the directory made in the meantime. *)
Definition server_refuses_connection : nat -> sftp_call -> option exn :=
  fun _ c => match c with SshConnect => Some OSError | _ => None end.

Definition server_refuses_session : nat -> sftp_call -> option exn :=
  fun _ c => match c with OpenSftp => Some PyException | _ => None end.

Definition server_refuses_chmod : nat -> sftp_call -> option exn :=
  fun _ c => match c with SftpChmod _ => Some OSError | _ => None end.

Definition server_refuses_transfers : nat -> sftp_call -> option exn :=
  fun _ c => match c with SftpPut _ _ => Some OSError | _ => None end.

Definition server_without_directories : nat -> sftp_call -> option exn :=
  fun _ c => match c with
             | SftpStat _ => Some FileNotFoundError
             | SftpMkdir _ => Some OSError
             | _ => None
             end.

(** A stand-in for [json.load] on the texts of [toy_dumps] that list one
    path. *)
Definition toy_loads (text : string) : option json :=
  Some (JObj [("synced_files", JArr [JStr text])]).

(** Noon and the last second of a day, and a clock that reads the
    following midnight. *)
Definition noon : Service.datetime := Service.Datetime 738888 43200000000.

Definition last_second : Service.datetime := Service.Datetime 738888 86399000000.

Definition following_midnight : Service.datetime := Service.Datetime 738889 0.

End Scenario.

(** * Properties *)

(** ** Loading the sync index *)

Module SyncLoad.
Import Py Sync.

Section Facts.
Context (E : os_env) (cfg : config).
Variable json_loads : string -> option json.

Lemma load_never_raises w :
  exists s, (_load_sync_status E cfg json_loads w).1 = Ret s.
Proof.
  unfold _load_sync_status, bind, path_exists, try_except, read_file.
  cbn. case_bool_decide as Hex; cbn; [|eauto].
  destruct (io_raises E (now w)); cbn; [eauto|].
  destruct (w_fs w !! sync_log_file cfg) as [[d t|t]|]; cbn; eauto.
  destruct (json_loads d) as [doc|]; cbn; eauto.
  destruct (get_or_empty doc "synced_files") as [v|]; cbn; eauto.
  destruct (py_set v); cbn; eauto.
Qed.

(** C10: when the index file is missing, unreadable or not valid JSON,
    [_load_sync_status] returns the empty set and does not raise; the
    synchronizer built on it holds an empty [synced_files], so that no
    local path counts as already synced. *)
Theorem load_sync_status_unusable_index w :
  index_unusable E cfg json_loads w ->
  (_load_sync_status E cfg json_loads w).1 = Ret ∅
  /\ (init E cfg json_loads w).1 = Ret tt
  /\ w_synced (init E cfg json_loads w).2 = ∅
  /\ forall p : path,
       bool_decide (str (absolute (cwd cfg) p)
                    ∈ w_synced (init E cfg json_loads w).2) = false.
Proof.
  intros Hbad.
  assert (Hload : exists w', _load_sync_status E cfg json_loads w = (Ret ∅, w')).
  { unfold _load_sync_status, bind, path_exists, try_except, read_file.
    cbn. case_bool_decide as Hex; cbn; [|eauto].
    destruct (io_raises E (now w)) eqn:Hio; cbn; [eauto|].
    destruct Hbad as [Hm|[Hio'|[[t Hd]|(d & t & Hf & Hj)]]].
    - rewrite Hm; cbn; eauto.
    - congruence.
    - rewrite Hd; cbn; eauto.
    - rewrite Hf; cbn. rewrite Hj; cbn; eauto. }
  destruct Hload as [w' Hload].
  unfold init, bind. rewrite Hload. cbn.
  repeat split; try done.
Qed.

Lemma init_loads_index w s :
  index_lists E cfg json_loads w s ->
  init E cfg json_loads w
  = (Ret tt, World (w_fs w) (w_trace w ++ [EvFsRead (sync_log_file cfg) None]) s).
Proof.
  intros (Hio & d & t & doc & v & Hf & Hdoc & Hv & Hs).
  unfold init, _load_sync_status, bind, path_exists, try_except, read_file.
  cbn. rewrite Hf. rewrite bool_decide_eq_true_2 by eauto.
  cbn. rewrite Hio, Hf. cbn. rewrite Hdoc. cbn. rewrite Hv. cbn. by rewrite Hs.
Qed.
End Facts.
End SyncLoad.

(** ** Location sampling without a fix *)

Module GpsFacts.
Import Py Gps.

Section Facts.
Context (E : os_env) (gps_available : bool) (data_dir : path).
Variable gpsd_at : nat -> outcome packet.
Variable random_at : nat -> Q.
Variable json_dumps : json -> string.

Abbreviation log_location :=
  (log_location E gps_available data_dir gpsd_at random_at json_dumps).
Abbreviation start_tracking :=
  (start_tracking E gps_available data_dir gpsd_at random_at json_dumps).

Lemma get_current_location_no_fix w :
  no_fix gpsd_at w ->
  get_current_location gps_available gpsd_at w
  = (Ret None, if gps_available then emit EvGpsd w else w).
Proof.
  unfold no_fix, get_current_location, try_except, bind, gpsd_get_current.
  destruct gps_available; cbn; [|done].
  destruct (gpsd_at (now w)) as [pk|e]; cbn; [|done].
  intros Hm. destruct (Z.leb_spec 2 (mode pk)); [lia|done].
Qed.

(** C9: on a tick without a fix (the packet has a mode below 2, or the
    read from gpsd raises) [log_location] returns [None] without raising,
    makes no call on the file system, so appends nothing to the daily
    log, and the loop of [start_tracking] goes on with the ticks that
    follow. *)
Theorem log_location_no_fix_skips today rest w :
  no_fix gpsd_at w ->
  (log_location today w).1 = Ret None
  /\ w_fs (log_location today w).2 = w_fs w
  /\ appended (drop (now w) (w_trace (log_location today w).2)) = []
  /\ start_tracking (today :: rest) w
     = start_tracking rest (if gps_available then emit EvGpsd w else w).
Proof.
  intros Hno.
  assert (Hlog : log_location today w
                 = (Ret None, if gps_available then emit EvGpsd w else w)).
  { unfold Gps.log_location, bind.
    rewrite (get_current_location_no_fix w Hno). done. }
  rewrite Hlog. cbn. repeat split.
  - by destruct gps_available.
  - unfold now. destruct gps_available; cbn.
    + by rewrite drop_app_length.
    + by rewrite drop_all.
  - unfold Gps.start_tracking, try_except.
    destruct gps_available; cbn; [|done].
    unfold bind at 1. unfold bind at 1. by rewrite Hlog.
Qed.
End Facts.
End GpsFacts.

(** ** Facts about the runtime model *)

Module PyFacts.
Import Py.

Lemma list_ascii_of_string_app s1 s2 :
  String.list_ascii_of_string (s1 +:+ s2)
  = String.list_ascii_of_string s1 ++ String.list_ascii_of_string s2.
Proof. induction s1 as [|c s1 IH]; simpl; [done|]. by f_equal. Qed.

Lemma append_assoc s1 s2 s3 : s1 +:+ s2 +:+ s3 = (s1 +:+ s2) +:+ s3.
Proof. induction s1 as [|c s1 IH]; [done|]. exact (f_equal (String c) IH). Qed.

Lemma ends_with_snoc_ne suf s x y :
  x <> y ->
  ends_with (suf +:+ String x EmptyString) (s +:+ String y EmptyString) = false.
Proof.
  intros Hne. unfold ends_with. apply bool_decide_eq_false.
  rewrite !list_ascii_of_string_app. cbn.
  intros Hs. by apply suffix_snoc_inv_1 in Hs.
Qed.

Lemma ends_with_wav_tmp s : ends_with ".wav" (s +:+ ".tmp") = false.
Proof.
  change ".wav" with (".wa" +:+ "v"). change ".tmp" with (".tm" +:+ "p").
  rewrite append_assoc. by apply ends_with_snoc_ne.
Qed.

Lemma ends_with_wav_json s : ends_with ".wav" (s +:+ ".json") = false.
Proof.
  change ".wav" with (".wa" +:+ "v"). change ".json" with (".jso" +:+ "n").
  rewrite append_assoc. by apply ends_with_snoc_ne.
Qed.

Lemma name_fstr p suf :
  name (fstr p suf) = (match p with [] => "." | _ => name p end) +:+ suf.
Proof.
  unfold fstr, name. destruct p as [|x p]; [done|].
  by rewrite List.last_last.
Qed.

Lemma length_append s1 s2 :
  String.length (s1 +:+ s2) = String.length s1 + String.length s2.
Proof. induction s1 as [|c s1 IH]; simpl; [done|]. by f_equal. Qed.

Lemma fstr_ne p suf : suf <> "" -> fstr p suf <> p.
Proof.
  intros Hsuf Heq. pose proof (name_fstr p suf) as Hn. rewrite Heq in Hn.
  destruct p as [|x p]; [done|].
  apply (f_equal String.length) in Hn. rewrite length_append in Hn.
  destruct suf; [done|]. cbn in Hn. lia.
Qed.

(** *** Sorting by key *)

Lemma insert_by_key_perm {A} (x : Z * A) l : insert_by_key x l ≡ₚ x :: l.
Proof.
  induction l as [|y l IH]; cbn; [done|].
  destruct (x.1 <=? y.1)%Z; [done|]. rewrite IH. apply Permutation_swap.
Qed.

Lemma sort_by_key_perm {A} (l : list (Z * A)) : sort_by_key l ≡ₚ l.
Proof.
  induction l as [|x l IH]; cbn; [done|].
  rewrite insert_by_key_perm. by rewrite IH.
Qed.

Lemma insert_by_key_sorted {A} (x : Z * A) l :
  StronglySorted (fun a b => (a.1 <= b.1)%Z) l ->
  StronglySorted (fun a b => (a.1 <= b.1)%Z) (insert_by_key x l).
Proof.
  induction l as [|y l IH]; cbn; intros Hs; [repeat constructor|].
  apply StronglySorted_inv in Hs as [Hs Hy].
  destruct (Z.leb_spec x.1 y.1).
  - constructor; [by constructor|].
    constructor; [done|]. eapply Forall_impl; [exact Hy|]. cbn. intros; lia.
  - constructor; [by apply IH|].
    rewrite insert_by_key_perm. constructor; [lia|done].
Qed.

Lemma sort_by_key_sorted {A} (l : list (Z * A)) :
  StronglySorted (fun a b => (a.1 <= b.1)%Z) (sort_by_key l).
Proof.
  induction l as [|x l IH]; cbn; [constructor|]. by apply insert_by_key_sorted.
Qed.

(** *** Loops *)


(** *** Rules for [run_spec] *)

Section Rules.
Context (E : os_env).
Context (I : gmap path node -> Prop) (G : event -> Prop).

Lemma replay_app t evs1 evs2 fs :
  replay E t (evs1 ++ evs2) fs
  = replay E (t + length evs1) evs2 (replay E t evs1 fs).
Proof.
  revert t fs. induction evs1 as [|ev evs1 IH]; intros t fs; cbn.
  - by rewrite Nat.add_0_r.
  - rewrite IH. f_equal. lia.
Qed.

(** A computation that makes no call. *)
Lemma rs_silent {A} (Pre : world -> Prop) (c : M A) Post :
  (forall w, Pre w ->
     w_fs (c w).2 = w_fs w /\ w_trace (c w).2 = w_trace w
     /\ Post (c w).1 (c w).2) ->
  run_spec E I G Pre c Post.
Proof.
  intros H w HI Hp. exists []. destruct (H w Hp) as (Hf & Ht & HP).
  rewrite app_nil_r. repeat split; try done. intros k. by rewrite take_nil.
Qed.

(** A computation that makes one call, which leaves the files alone. *)
Lemma rs_event {A} (Pre : world -> Prop) (c : M A) Post :
  (forall w, Pre w ->
     exists ev, (c w).2 = emit ev w /\ G ev /\ (forall op, ev <> EvFs op)
                /\ Post (c w).1 (emit ev w)) ->
  run_spec E I G Pre c Post.
Proof.
  intros H w HI Hp. destruct (H w Hp) as (ev & Hw & Hg & Hne & HP).
  exists [ev]. rewrite Hw. cbn.
  assert (Hstep : step_event E (now w) ev (w_fs w) = w_fs w).
  { destruct ev; try done. by destruct (Hne op). }
  repeat split; try done.
  - intros [|k]; cbn; [done|]. rewrite take_nil. cbn. by rewrite Hstep.
  - by constructor.
Qed.

Lemma rs_fs_call (Pre : world -> Prop) op Post :
  G (EvFs op) -> (forall e, G (EvFsRaised op e)) ->
  (forall w fs', I (w_fs w) -> Pre w ->
     apply_op (clock E (now w)) op (w_fs w) = inr fs' ->
     I fs' /\ Post (Ret tt) (World fs' (w_trace w ++ [EvFs op]) (w_synced w))) ->
  (forall w e, Pre w -> Post (Raise e) (emit (EvFsRaised op e) w)) ->
  run_spec E I G Pre (fs_call E op) Post.
Proof.
  intros Hg Hgr Hok Hfail w HI Hp. unfold fs_call.
  destruct (io_raises E (now w)).
  { exists [EvFsRaised op OSError]. cbn. repeat split; try done.
    - intros [|k]; cbn; [done|]. by rewrite take_nil.
    - by constructor.
    - by apply Hfail. }
  destruct (apply_op (clock E (now w)) op (w_fs w)) as [e|fs'] eqn:Hop.
  { exists [EvFsRaised op e]. cbn. repeat split; try done.
    - intros [|k]; cbn; [done|]. by rewrite take_nil.
    - by constructor.
    - by apply Hfail. }
  destruct (Hok w fs' HI Hp Hop) as [HI' HP].
  exists [EvFs op]. cbn. rewrite Hop. repeat split; try done.
  - intros [|k]; cbn; [done|]. rewrite take_nil. cbn. by rewrite Hop.
  - by constructor.
Qed.

Lemma rs_conseq {A} (Pre Pre' : world -> Prop) (c : M A)
    (Post Post' : outcome A -> world -> Prop) :
  run_spec E I G Pre' c Post' ->
  (forall w, Pre w -> Pre' w) ->
  (forall r w, Post' r w -> Post r w) ->
  run_spec E I G Pre c Post.
Proof.
  intros H Hpre Hpost w HI Hp.
  destruct (H w HI (Hpre w Hp)) as (evs & ? & ? & ? & ? & ?).
  exists evs. repeat split; try done. by apply Hpost.
Qed.

(** A precondition that does not depend on the world may be assumed. *)
Lemma rs_assume {A} (P : Prop) (c : M A) Post :
  (P -> run_spec E I G (fun _ => True) c Post) ->
  run_spec E I G (fun _ => P) c Post.
Proof. intros H w HI HP. by apply H. Qed.

Lemma rs_seen_last w evs :
  (forall k, I (replay E (now w) (take k evs) (w_fs w))) ->
  I (replay E (now w) evs (w_fs w)).
Proof. intros H. specialize (H (length evs)). by rewrite firstn_all in H. Qed.

(** Sequencing, with the handler of a [try] as the second part when the
    first part raises. *)
Lemma rs_seq {A B} (Pre : world -> Prop) (c : M A) (Mid : outcome A -> world -> Prop)
    (k : outcome A -> M B) (Post : outcome B -> world -> Prop) :
  run_spec E I G Pre c Mid ->
  (forall r, run_spec E I G (Mid r) (k r) Post) ->
  run_spec E I G Pre (fun w => k (c w).1 (c w).2) Post.
Proof.
  intros Hc Hk w HI Hpre.
  destruct (Hc w HI Hpre) as (evs1 & Ht1 & Hf1 & Hs1 & Hg1 & Hm1).
  pose proof (rs_seen_last w evs1 Hs1) as HI1. rewrite <- Hf1 in HI1.
  destruct (Hk (c w).1 (c w).2 HI1 Hm1) as (evs2 & Ht2 & Hf2 & Hs2 & Hg2 & Hp2).
  assert (Hnow : now (c w).2 = now w + length evs1).
  { unfold now. rewrite Ht1. by rewrite length_app. }
  exists (evs1 ++ evs2). repeat split.
  - rewrite Ht2, Ht1. by rewrite app_assoc.
  - rewrite Hf2, replay_app. by rewrite Hnow, Hf1.
  - intros n. destruct (decide (n <= length evs1)) as [Hle|Hgt].
    + rewrite take_app_le by done. apply Hs1.
    + rewrite take_app_ge by lia. rewrite replay_app.
      rewrite <- Hf1, <- Hnow. apply Hs2.
  - by apply Forall_app.
  - done.
Qed.

Lemma rs_ret {A} (Pre : world -> Prop) (a : A) Post :
  (forall w, Pre w -> Post (Ret a) w) -> run_spec E I G Pre (ret a) Post.
Proof. intros H. apply rs_silent. intros w Hp. cbn. eauto. Qed.

Lemma rs_raise {A} (Pre : world -> Prop) e (Post : outcome A -> world -> Prop) :
  (forall w, Pre w -> Post (Raise e) w) -> run_spec E I G Pre (raise e) Post.
Proof. intros H. apply rs_silent. intros w Hp. cbn. eauto. Qed.

Lemma rs_bind {A B} (Pre : world -> Prop) (c : M A) Mid (k : A -> M B) Post :
  run_spec E I G Pre c Mid ->
  (forall a, run_spec E I G (Mid (Ret a)) (k a) Post) ->
  (forall e w, Mid (Raise e) w -> Post (Raise e) w) ->
  run_spec E I G Pre (bind c k) Post.
Proof.
  intros Hc Hk Hr.
  pose proof (rs_seq Pre c Mid
                (fun r => match r with Ret a => k a | Raise e => raise e end)
                Post Hc) as H.
  intros w HI Hp. unfold bind.
  destruct H with (w := w) as (evs & Ht & Hf & Hs & Hg & HP); try done.
  { intros [a|e]; [apply Hk|]. apply rs_raise. apply Hr. }
  exists evs. destruct (c w) as [[a|e] w1]; cbn in *; done.
Qed.

Lemma rs_try {A} (Pre : world -> Prop) (c : M A) Mid sel h Post :
  run_spec E I G Pre c Mid ->
  (forall a w, Mid (Ret a) w -> Post (Ret a) w) ->
  (forall e, sel e = true -> run_spec E I G (Mid (Raise e)) (h e) Post) ->
  (forall e w, sel e = false -> Mid (Raise e) w -> Post (Raise e) w) ->
  run_spec E I G Pre (try_except c sel h) Post.
Proof.
  intros Hc Hret Hh Hpass.
  pose proof (rs_seq Pre c Mid
                (fun r => match r with
                          | Ret a => ret a
                          | Raise e => if sel e then h e else raise e
                          end)
                Post Hc) as H.
  intros w HI Hp. unfold try_except.
  destruct H with (w := w) as (evs & Ht & Hf & Hs & Hg & HP); try done.
  { intros [a|e]; [apply rs_ret, Hret|].
    destruct (sel e) eqn:Hsel; [by apply Hh|].
    apply rs_raise. intros w'. by apply Hpass. }
  exists evs. destruct (c w) as [[a|e] w1]; cbn in *; [done|].
  by destruct (sel e).
Qed.

Lemma rs_for_each {A} (Inv : list A -> world -> Prop) (Q : exn -> world -> Prop)
    (body : A -> M unit) xs :
  (forall done x, x ∈ xs ->
     run_spec E I G (Inv done) (body x)
       (fun r w => match r with Ret _ => Inv (done ++ [x]) w | Raise e => Q e w end)) ->
  forall done,
    run_spec E I G (Inv done) (for_each xs body)
      (fun r w => match r with Ret _ => Inv (done ++ xs) w | Raise e => Q e w end).
Proof.
  induction xs as [|x xs IH]; intros Hbody done; cbn.
  - apply rs_ret. intros w. by rewrite app_nil_r.
  - eapply rs_bind.
    + apply Hbody. left.
    + intros u. cbn. eapply rs_conseq.
      * apply (IH (fun d y Hy => Hbody d y (list_elem_of_further _ _ _ Hy))
                  (done ++ [x])).
      * done.
      * intros r w. by rewrite <- app_assoc.
    + done.
Qed.

Lemma rs_while {S} (Inv : S -> world -> Prop) (Q : exn -> world -> Prop)
    (cond : S -> bool) (body : S -> M (option S)) fuel :
  (forall st, cond st = true ->
     run_spec E I G (Inv st) (body st)
       (fun r w => match r with
                   | Ret (Some st') => Inv st' w
                   | Ret None => Inv st w
                   | Raise e => Q e w
                   end)) ->
  forall st,
    run_spec E I G (Inv st) (while_loop fuel cond body st)
      (fun r w => match r with
                  | Ret (CondFalse st') | Ret (Broke st') => Inv st' w
                  | Ret OutOfFuel => True
                  | Raise e => Q e w
                  end).
Proof.
  intros Hbody. induction fuel as [|fuel IH]; intros st; cbn.
  - destruct (cond st); by apply rs_ret.
  - destruct (cond st) eqn:Hc; [|by apply rs_ret].
    eapply rs_bind; [by apply Hbody| |done].
    intros [st'|]; cbn; [apply IH|by apply rs_ret].
Qed.
End Rules.

(** *** Relations every step of a computation keeps *)

Section Keeps.
Context (R : world -> world -> Prop).
Hypothesis R_refl : forall w, R w w.
Hypothesis R_trans : forall w1 w2 w3, R w1 w2 -> R w2 w3 -> R w1 w3.

Abbreviation keeps := (keeps R).

Lemma keeps_ret {A} (a : A) : keeps (ret a).
Proof. intros w. apply R_refl. Qed.

Lemma keeps_raise {A} e : keeps (@raise A e).
Proof. intros w. apply R_refl. Qed.

Lemma keeps_bind {A B} (c : M A) (k : A -> M B) :
  keeps c -> (forall a, keeps (k a)) -> keeps (bind c k).
Proof.
  intros Hc Hk w. unfold bind. specialize (Hc w).
  destruct (c w) as [[a|e] w1]; cbn in *; [|done].
  eapply R_trans; [exact Hc|apply Hk].
Qed.

Lemma keeps_try {A} (c : M A) sel h :
  keeps c -> (forall e, keeps (h e)) -> keeps (try_except c sel h).
Proof.
  intros Hc Hh w. unfold try_except. specialize (Hc w).
  destruct (c w) as [[a|e] w1]; cbn in *; [done|].
  destruct (sel e); [|done]. eapply R_trans; [exact Hc|apply Hh].
Qed.

Lemma keeps_for_each {A} (xs : list A) body :
  (forall x, keeps (body x)) -> keeps (for_each xs body).
Proof.
  intros Hb. induction xs as [|x xs IH]; cbn; [apply keeps_ret|].
  apply keeps_bind; [apply Hb|done].
Qed.
End Keeps.

End PyFacts.

(** ** Storage reclaim *)

Module ReclaimFacts.
Import Py PyFacts Recorder.

Section Facts.
Context (E : os_env) (cfg : config).

Lemma fs_call_cases op w :
  (exists e, fs_call E op w = (Raise e, emit (EvFsRaised op e) w))
  \/ (exists fs', apply_op (clock E (now w)) op (w_fs w) = inr fs'
        /\ fs_call E op w
           = (Ret tt, World fs' (w_trace w ++ [EvFs op]) (w_synced w))).
Proof.
  unfold fs_call. destruct (io_raises E (now w)); [eauto|].
  destruct (apply_op _ op (w_fs w)) as [e|fs']; eauto.
Qed.

Lemma unlink_inr t p fs fs' :
  apply_op t (OpUnlink p) fs = inr fs' -> fs' = delete p fs /\ is_Some (fs !! p).
Proof.
  cbn. destruct (fs !! p) as [[d t'|t']|]; intros [= <-]; eauto.
Qed.

Lemma loop_body_spec used free r rest w :
  exists evs o fs',
    loop_body E (LoopState used free (r :: rest)) w
    = (Ret o, World fs' (w_trace w ++ evs) (w_synced w))
    /\ deletes_pair r rest (w_fs w) evs o fs'.
Proof.
  unfold loop_body, try_except, bind. cbn [recordings].
  destruct (fs_call_cases (OpUnlink r) w) as [[e ->]|(fs1 & Hop & ->)]; cbn.
  { eexists [_], None, _. split; [done|]. constructor. }
  apply unlink_inr in Hop as [-> Hr].
  unfold path_exists. cbn [w_fs].
  assert (Hne : fstr r ".json" <> r) by by apply fstr_ne.
  rewrite lookup_delete_ne by done.
  case_bool_decide as Hsc.
  - match goal with |- context [fs_call E ?op ?w1] =>
      destruct (fs_call_cases op w1) as [[e ->]|(fs2 & Hop2 & ->)] end; cbn.
    { eexists [_; _], None, _. unfold ret, emit; cbn.
      rewrite <- app_assoc. split; [done|]. by constructor. }
    apply unlink_inr in Hop2 as [-> _]. cbn.
    unfold disk_usage. cbn.
    match goal with |- context [disk_usage_at E ?n] =>
      destruct (disk_usage_at E n) as [u|] end;
      unfold ret, emit; cbn; rewrite <- !app_assoc.
    + eexists [_; _; _], _, _. split; [done|].
      constructor. by intros st' [= <-].
    + eexists [_; _; _], None, _. split; [done|]. by constructor.
  - cbn. unfold disk_usage. cbn.
    assert (Hnone : w_fs w !! fstr r ".json" = None).
    { by apply eq_None_not_Some. }
    match goal with |- context [disk_usage_at E ?n] =>
      destruct (disk_usage_at E n) as [u|] end;
      unfold ret, emit; cbn; rewrite <- !app_assoc.
    + eexists [_; _], _, _. split; [done|].
      constructor; [done|]. by intros st' [= <-].
    + eexists [_; _], None, _. split; [done|]. by constructor.
Qed.

(** C7, as the code has it: a pass of the clean-up loop unlinks the
    recording first and its metadata file, when there is one, second.
    When the first unlink raises nothing is deleted; when the second
    raises the recording is gone, its metadata file stays, and the loop
    breaks. *)
Theorem loop_body_deletes_recording_then_metadata used free r rest w :
  exists evs o fs',
    loop_body E (LoopState used free (r :: rest)) w
    = (Ret o, World fs' (w_trace w ++ evs) (w_synced w))
    /\ deletes_pair r rest (w_fs w) evs o fs'.
Proof. apply loop_body_spec. Qed.

Lemma deletes_pair_rest r rest fs evs st' fs' :
  deletes_pair r rest fs evs (Some st') fs' -> recordings st' = rest.
Proof. inversion 1; subst; eauto. Qed.

Lemma loop_cond_true st :
  loop_cond cfg st = true -> exists r rest, recordings st = r :: rest.
Proof.
  unfold loop_cond. destruct st as [u f [|r rest]]; cbn.
  - rewrite andb_false_r. done.
  - eauto.
Qed.






Lemma with_mtime_present ps w :
  Forall (fun p => is_Some (w_fs w !! p)) ps ->
  with_mtime ps w = (Ret ((fun p => (mtime_key (w_fs w) p, p)) <$> ps), w).
Proof.
  induction 1 as [|p ps [n Hp] _ IH]; cbn; [done|].
  unfold bind, getmtime, mtime_key. rewrite Hp, IH. done.
Qed.

Lemma sorted_keys_sorted_values {A} (f : A -> Z) (l : list (Z * A)) :
  StronglySorted (fun a b => (a.1 <= b.1)%Z) l ->
  Forall (fun kp => kp.1 = f kp.2) l ->
  StronglySorted (fun a b => (f a <= f b)%Z) (l.*2).
Proof.
  induction 1 as [|kp l Hs IH Hall]; intros Hk; cbn; [constructor|].
  apply Forall_cons in Hk as [Hkp Hk]. constructor; [by apply IH|].
  apply Forall_fmap. rewrite Forall_forall in Hall, Hk |- *.
  intros x Hx. cbn. rewrite <- Hkp, <- (Hk x Hx). by apply Hall.
Qed.

End Facts.
End ReclaimFacts.

(** ** Reclaim on a device with two recordings *)

Module ReclaimScenario.
Import Py Recorder Scenario.

Example check_storage_run :
  _check_storage (disk None) recorder_cfg start
  = (Ret tt,
     World (<[ jan01 := File "RIFF1" 200 ]>
            (<[ fstr jan01 ".json" := File "{}" 200 ]> ∅))
           [EvDiskUsage; EvFs (OpUnlink jan02);
            EvFs (OpUnlink (fstr jan02 ".json")); EvDiskUsage]
           ∅).
Proof. vm_compute. reflexivity. Qed.


Example check_storage_run_metadata_unlink_fails :
  _check_storage (disk (Some 2)) recorder_cfg start
  = (Ret tt,
     World (<[ jan01 := File "RIFF1" 200 ]>
            (<[ fstr jan01 ".json" := File "{}" 200 ]>
            (<[ fstr jan02 ".json" := File "{}" 100 ]> ∅)))
           [EvDiskUsage; EvFs (OpUnlink jan02);
            EvFsRaised (OpUnlink (fstr jan02 ".json")) OSError]
           ∅).
Proof. vm_compute. reflexivity. Qed.


(** C7 as stated fails: the recording is unlinked before its metadata
    file, and when the unlink of the metadata file raises, the metadata
    file stays behind without its recording. *)
Lemma reclaim_unlinks_recording_before_metadata :
  ~ metadata_unlinked_first
      (w_trace (_check_storage (disk None) recorder_cfg start).2)
  /\ ~ no_orphan_metadata
         (w_fs (_check_storage (disk (Some 2)) recorder_cfg start).2).
Proof.
  split.
  - rewrite check_storage_run. intros H.
    specialize (H jan02 1 2 eq_refl eq_refl). lia.
  - rewrite check_storage_run_metadata_unlink_fails. intros H.
    destruct (H jan02) as [n Hn]; [vm_compute; eauto|].
    vm_compute in Hn. discriminate.
Qed.
End ReclaimScenario.

(** ** The capture cycle and the recording path *)

Module CaptureFacts.
Import Py PyFacts Recorder.

Section Facts.
Context (E : os_env) (cfg : config).
Variable json_dumps : json -> string.
Variable wave_encode : Z -> Z -> Z -> string -> string.
Variable wave_partials : string -> list string.
(** The files before the cycle, the recording path of the cycle and the
    whole file the cycle is to leave there. *)
Context (fs0 : gmap path node) (filename : path) (full : string).
Hypothesis full_is_wave :
  exists payload, full = wave_encode channels sample_size rate payload.

Abbreviation Inv := (cycle_invariant wave_encode fs0 filename full).
Abbreviation spec c := (run_spec E Inv no_write_in_place (fun _ => True) c
                          (fun _ _ => True)).

Lemma Inv_delete p fs : Inv fs -> Inv (delete p fs).
Proof.
  intros [Hc Ho]. split.
  - intros q Hq d t Hl. apply lookup_delete_Some in Hl as [_ Hl].
    by eapply Hc.
  - destruct (decide (p = filename)) as [->|Hne].
    + left. apply lookup_delete_eq.
    + unfold absent_old_or_full. by rewrite lookup_delete_ne.
Qed.

Lemma Inv_insert_other p n fs :
  ends_with ".wav" (name p) = false -> p <> filename ->
  Inv fs -> Inv (<[p := n]> fs).
Proof.
  intros Hp Hne [Hc Ho]. split.
  - intros q Hq d t Hl. destruct (decide (p = q)) as [->|Hpq]; [congruence|].
    rewrite lookup_insert_ne in Hl by done. by eapply Hc.
  - unfold absent_old_or_full. by rewrite lookup_insert_ne.
Qed.

Lemma Inv_rename tmp t fs :
  Inv fs -> Inv (<[filename := File full t]> (delete tmp fs)).
Proof.
  intros Hi. apply (Inv_delete tmp) in Hi as [Hc Ho]. split.
  - intros q Hq d t' Hl. destruct (decide (filename = q)) as [->|Hne].
    + rewrite lookup_insert_eq in Hl. by injection Hl as <- <-.
    + rewrite lookup_insert_ne in Hl by done. by eapply Hc.
  - right; right. exists t. apply lookup_insert_eq.
Qed.

Lemma apply_op_inr t op fs fs' :
  apply_op t op fs = inr fs' ->
  match op with
  | OpMkdir p => fs' = fs \/ fs' = <[p := Dir t]> fs
  | OpCreate p | OpWrite p _ | OpAppend p _ => exists n, fs' = <[p := n]> fs
  | OpRename src dst =>
      exists n, fs !! src = Some n /\ fs' = <[dst := n]> (delete src fs)
  | OpUnlink p => fs' = delete p fs
  end.
Proof.
  destruct op as [p|p|p d|p d|src dst|p]; cbn.
  - destruct (fs !! p) as [[]|]; intros [= <-]; eauto.
  - destruct (fs !! p) as [[]|]; intros [= <-]; eauto.
  - destruct (fs !! p) as [[]|]; intros [= <-]; eauto.
  - destruct (fs !! p) as [[]|]; intros [= <-]; eauto.
  - destruct (fs !! src) as [n|]; [|done].
    destruct (fs !! dst) as [[]|]; intros [= <-]; eauto.
  - destruct (fs !! p) as [[]|]; intros [= <-]; eauto.
Qed.

(** A call that unlinks, or writes to a path that is neither a recording
    path nor [filename], keeps the invariant. *)
Lemma Inv_insert_dir p t fs : p <> filename -> Inv fs -> Inv (<[p := Dir t]> fs).
Proof.
  intros Hne [Hc Ho]. split.
  - intros q Hq d t' Hl. destruct (decide (p = q)) as [->|Hpq].
    + by rewrite lookup_insert_eq in Hl.
    + rewrite lookup_insert_ne in Hl by done. by eapply Hc.
  - unfold absent_old_or_full. by rewrite lookup_insert_ne.
Qed.

Lemma spec_harmless op :
  match op with
  | OpMkdir p => p <> filename
  | OpCreate p | OpWrite p _ | OpAppend p _ =>
      ends_with ".wav" (name p) = false /\ p <> filename
  | OpUnlink _ => True
  | OpRename _ _ => False
  end ->
  spec (fs_call E op).
Proof.
  intros Hop. apply rs_fs_call; try done.
  - destruct op; cbn; tauto.
  - intros w fs' HI _ Happ. split; [|done]. apply apply_op_inr in Happ.
    destruct op as [p|p|p d|p d|src dst|p]; try done.
    + destruct Happ as [->| ->]; [done|]. by apply Inv_insert_dir.
    + destruct Happ as [n ->], Hop. by apply Inv_insert_other.
    + destruct Happ as [n ->], Hop. by apply Inv_insert_other.
    + destruct Happ as [n ->], Hop. by apply Inv_insert_other.
    + subst fs'. by apply Inv_delete.
Qed.

Lemma spec_event {A} (c : M A) :
  (forall w, exists ev, (c w).2 = emit ev w /\ forall op, ev <> EvFs op) ->
  spec c.
Proof.
  intros H. apply rs_event. intros w _. destruct (H w) as (ev & Hw & Hne).
  exists ev. repeat split; try done. destruct ev; try done. by destruct (Hne op).
Qed.

Lemma spec_silent {A} (c : M A) :
  (forall w, (c w).2 = w) -> spec c.
Proof. intros H. apply rs_silent. intros w _. by rewrite H. Qed.

Lemma spec_bind {A B} (c : M A) (k : A -> M B) :
  spec c -> (forall a, spec (k a)) -> spec (bind c k).
Proof. intros Hc Hk. eapply rs_bind; [exact Hc| |done]. intros a. apply Hk. Qed.

Lemma spec_try {A} (c : M A) sel h :
  spec c -> (forall e, spec (h e)) -> spec (try_except c sel h).
Proof. intros Hc Hh. eapply rs_try; [exact Hc|done| |done]. intros e _. apply Hh. Qed.

Lemma spec_ret {A} (a : A) : spec (ret a).
Proof. by apply rs_ret. Qed.

Lemma spec_raise {A} e : spec (@raise A e).
Proof. by apply rs_raise. Qed.

Lemma spec_for_each {A} (xs : list A) body :
  (forall x, spec (body x)) -> spec (for_each xs body).
Proof.
  intros Hb. eapply rs_conseq.
  - apply (rs_for_each E Inv no_write_in_place (fun _ _ => True) (fun _ _ => True)
             body xs) with (done := []).
    intros d x _. eapply rs_conseq; [apply Hb|done|]. by intros [].
  - done.
  - done.
Qed.

Lemma spec_while {S} fuel (cond : S -> bool) body st :
  (forall st, spec (body st)) -> spec (while_loop fuel cond body st).
Proof.
  intros Hb. eapply rs_conseq.
  - apply (rs_while E Inv no_write_in_place (fun _ _ => True) (fun _ _ => True)).
    intros st' _. eapply rs_conseq; [apply Hb|done|]. by intros [[]|].
  - done.
  - done.
Qed.

Lemma spec_disk_usage : spec (disk_usage E).
Proof.
  apply spec_event. intros w. unfold disk_usage.
  destruct (disk_usage_at E (now w)); by exists EvDiskUsage.
Qed.

Lemma spec_loop_body st : spec (loop_body E st).
Proof.
  unfold loop_body. apply spec_try; [|intros; apply spec_ret].
  destruct (recordings st) as [|r rest]; [apply spec_raise|].
  apply spec_bind; [by apply spec_harmless|intros _].
  apply spec_bind; [by apply spec_silent|intros has_meta].
  apply spec_bind.
  { destruct has_meta; [by apply spec_harmless|apply spec_ret]. }
  intros _. apply spec_bind; [apply spec_disk_usage|intros u; apply spec_ret].
Qed.

Lemma spec_with_mtime ps : spec (with_mtime ps).
Proof.
  apply spec_silent. induction ps as [|p ps IH]; intros w; cbn; [done|].
  unfold bind, getmtime. destruct (w_fs w !! p); cbn; [|done].
  specialize (IH w). destruct (with_mtime ps w) as [[ts|e] w']; cbn in *; done.
Qed.

Lemma spec_check_storage : spec (_check_storage E cfg).
Proof.
  unfold _check_storage. apply spec_try; [|intros; apply spec_ret].
  apply spec_bind; [apply spec_disk_usage|intros u].
  destruct (over_limit _ _ _ _); [|apply spec_ret].
  apply spec_bind.
  { unfold sorted_recordings, sorted_by_mtime.
    apply spec_bind; [by apply spec_silent|intros wavs].
    apply spec_bind; [apply spec_with_mtime|intros keyed; apply spec_ret]. }
  intros recs. apply spec_bind; [|intros; apply spec_ret].
  apply spec_while. apply spec_loop_body.
Qed.

Lemma spec_save_metadata iso gps_data :
  spec (save_metadata E cfg json_dumps filename iso gps_data).
Proof.
  assert (Hsc : ends_with ".wav" (name (fstr filename ".json")) = false
                /\ fstr filename ".json" <> filename).
  { split; [rewrite name_fstr; apply ends_with_wav_json|by apply fstr_ne]. }
  unfold save_metadata.
  apply spec_bind; [by apply spec_harmless|intros _]. by apply spec_harmless.
Qed.

Lemma spec_save_recording frames :
  full = wave_encode channels sample_size rate (String.concat "" frames) ->
  spec (save_recording E wave_encode wave_partials filename frames).
Proof.
  intros Hfull.
  assert (Htmp : ends_with ".wav" (name (fstr filename ".tmp")) = false
                 /\ fstr filename ".tmp" <> filename).
  { split; [rewrite name_fstr; apply ends_with_wav_tmp|by apply fstr_ne]. }
  unfold save_recording. apply spec_try; [|intros; apply spec_raise].
  apply spec_bind; [by apply spec_harmless|intros _].
  apply spec_bind.
  { apply spec_for_each. intros d. by apply spec_harmless. }
  intros _. rewrite <- Hfull.
  (* the last write leaves the whole file at the temporary path *)
  eapply (rs_bind E Inv no_write_in_place _ _
            (fun r w => r = Ret tt ->
               exists t, w_fs w !! fstr filename ".tmp" = Some (File full t))).
  - apply rs_fs_call; try done; [by destruct Htmp|].
    intros w fs' HI _ Happ. split.
    + apply apply_op_inr in Happ as [n ->]. destruct Htmp.
      by apply Inv_insert_other.
    + intros _. cbn in Happ |- *.
      destruct (w_fs w !! fstr filename ".tmp") as [[]|]; try done.
      injection Happ as <-. eexists. apply lookup_insert_eq.
  - intros u.
    eapply (rs_bind E Inv no_write_in_place _ _ (fun _ _ => True));
      [|intros u'; by apply spec_event; eexists|done].
    apply rs_fs_call; try done.
    intros w fs' HI Hpre Happ. split; [|done].
    destruct u. destruct (Hpre eq_refl) as [t Ht].
    apply apply_op_inr in Happ as (n & Hn & ->).
    rewrite Ht in Hn. injection Hn as <-. by apply Inv_rename.
  - done.
Qed.

Lemma spec_record_cycle i :
  filename = get_recording_filename cfg (timestamp i) ->
  (forall frames, audio i = Ret frames ->
     full = wave_encode channels sample_size rate (String.concat "" frames)) ->
  spec (record_cycle E cfg json_dumps wave_encode wave_partials i).
Proof.
  intros Hname Hfull. unfold record_cycle. rewrite <- Hname.
  apply spec_try; [|intros; apply spec_ret].
  apply spec_bind.
  { destruct (check_due i); [|apply spec_ret].
    apply spec_bind; [by apply spec_silent|intros free_space].
    destruct (Qltb _ _); [apply spec_check_storage|apply spec_ret]. }
  intros _. apply spec_bind.
  { apply spec_harmless. intros Heq. rewrite Hname in Heq.
    apply (f_equal length) in Heq.
    unfold get_recording_filename, joinpath in Heq.
    rewrite length_app in Heq. cbn in Heq. lia. }
  intros _. apply spec_bind.
  { destruct (sync_due i); [|apply spec_ret].
    unfold _force_sync. apply spec_try; [|intros; apply spec_ret].
    by apply spec_event; eexists. }
  intros _.
  eapply (rs_bind E Inv no_write_in_place _ _
            (fun r _ => r = audio i)).
  - by apply rs_silent.
  - intros frames. apply rs_assume. intros Hau.
    apply spec_bind; [by apply spec_save_recording, Hfull|].
    intros u. apply spec_save_metadata.
  - done.
Qed.
End Facts.

(** C1: throughout a capture cycle the recording path of the cycle is
    absent, or as it was before the cycle, or holds the whole wave file of
    all the frames accumulated; the frames go to the temporary path and no
    call writes in place to a recording path, a rename being the only way
    a file appears there.  Hence, if every [*.wav] file was whole before
    the cycle, then in every file system seen during the cycle every file
    the scan of [_check_storage] lists, and every [*.wav] file the
    enumeration of [sync_files] lists, is whole. *)
Theorem recording_path_never_partial
    (E : os_env) (cfg : config) (json_dumps : json -> string)
    (wave_encode : Z -> Z -> Z -> string -> string)
    (wave_partials : string -> list string) (i : cycle_input) (w : world) :
  wav_complete wave_encode (w_fs w) ->
  exists evs,
    w_trace (record_cycle E cfg json_dumps wave_encode wave_partials i w).2
    = w_trace w ++ evs
    /\ w_fs (record_cycle E cfg json_dumps wave_encode wave_partials i w).2
       = replay E (now w) evs (w_fs w)
    /\ Forall no_write_in_place evs
    /\ forall k,
         let seen := replay E (now w) (take k evs) (w_fs w) in
         absent_old_or_full (w_fs w) (get_recording_filename cfg (timestamp i))
           (whole_file wave_encode (audio i)) seen
         /\ wav_complete wave_encode seen
         /\ (forall tr s l p,
               (glob E (output_dir cfg) "" ".wav" (World seen tr s)).1 = Ret l ->
               p ∈ l -> whole_wave wave_encode seen p)
         /\ (forall dir tr s l p,
               (glob_all E dir (World seen tr s)).1 = Ret l ->
               p ∈ l -> ends_with ".wav" (name p) = true ->
               whole_wave wave_encode seen p).
Proof.
  intros Hw.
  destruct (spec_record_cycle E cfg json_dumps wave_encode wave_partials
              (w_fs w) (get_recording_filename cfg (timestamp i))
              (whole_file wave_encode (audio i))
              ltac:(by eexists) i eq_refl) with (w := w)
    as (evs & Ht & Hf & Hs & Hg & _).
  - intros frames Hau. unfold whole_file. by rewrite Hau.
  - split; [done|]. right; by left.
  - done.
  - exists evs. repeat split; try done; destruct (Hs k) as [Hc Ho]; try done.
    + intros tr s l p [= <-] [Hp _]%list_elem_of_filter.
      apply Hc. apply andb_prop_elim in Hp as [_ Hm]. unfold fnmatch in Hm.
      apply andb_prop_elim in Hm as [Hm _]. apply andb_prop_elim in Hm as [_ Hm].
      by apply Is_true_true.
    + intros dir tr s l p _ _ Hp. by apply Hc.
Qed.

End CaptureFacts.

(** ** Upload of one file and the sync index *)

Module UploadFacts.
Import Py PyFacts Sync.

Section Facts.
Context (E : os_env) (cfg : config).
Variable sftp_at : nat -> sftp_call -> option exn.
Variable json_dumps : json -> string.

Abbreviation idx := (sync_log_file cfg).
Abbreviation save := (_save_sync_status E cfg json_dumps).
Abbreviation upload := (_upload_file E cfg sftp_at json_dumps).

Lemma create_inr t p fs fs' :
  apply_op t (OpCreate p) fs = inr fs' -> fs' = <[p := File "" t]> fs.
Proof. cbn. destruct (fs !! p) as [[]|]; by intros [= <-]. Qed.

Lemma save_sync_status_spec w :
  exists evs fs',
    save w = (Ret tt, World fs' (w_trace w ++ evs) (w_synced w))
    /\ rewrites_index_in_place cfg
         (json_dumps (index_document (w_synced w))) (w_fs w) evs fs'.
Proof.
  unfold _save_sync_status, try_except, bind, get_synced. cbn.
  destruct (ReclaimFacts.fs_call_cases E (OpCreate idx) w)
    as [[e ->]|(fs1 & Hop & ->)]; cbn.
  { eexists [_], _. split; [done|]. constructor. }
  match goal with |- context [fs_call E ?op ?w1] =>
    destruct (ReclaimFacts.fs_call_cases E op w1)
      as [[e ->]|(fs2 & Hop2 & ->)] end; cbn.
  - apply create_inr in Hop as ->.
    eexists [_; _], _. unfold emit; cbn. rewrite <- app_assoc.
    split; [done|]. constructor.
  - apply create_inr in Hop as ->. cbn in Hop2.
    rewrite lookup_insert_eq in Hop2. injection Hop2 as <-.
    rewrite insert_insert_eq.
    eexists [_; _], _. rewrite <- app_assoc. split; [done|]. constructor.
Qed.

Lemma upload_accepted local_path remote_path w :
  sftp_at (now w) (SftpPut local_path remote_path) = None ->
  sftp_at (S (now w)) (SftpChmod remote_path) = None ->
  let added := {[ str (absolute (cwd cfg) local_path) ]} ∪ w_synced w in
  exists evs fs',
    upload local_path remote_path w
    = (Ret true,
       World fs'
         (w_trace w ++ EvSftp (SftpPut local_path remote_path) None
                       :: EvSftp (SftpChmod remote_path) None :: evs)
         added)
    /\ rewrites_index_in_place cfg (json_dumps (index_document added))
         (w_fs w) evs fs'.
Proof.
  intros Hput Hchmod added.
  unfold _upload_file, try_except, bind, sftp, get_synced, set_synced. cbn.
  rewrite Hput. cbn. rewrite !length_app. cbn.
  rewrite !Nat.add_1_r. fold (now w). rewrite Hchmod. cbn.
  match goal with |- context [save ?w1] =>
    destruct (save_sync_status_spec w1) as (evs & fs' & -> & Hrw) end.
  cbn in *. exists evs, fs'. rewrite <- !app_assoc. by split.
Qed.

Lemma upload_put_raises local_path remote_path e w :
  sftp_at (now w) (SftpPut local_path remote_path) = Some e ->
  upload local_path remote_path w
  = (Ret false, emit (EvSftp (SftpPut local_path remote_path) (Some e)) w).
Proof.
  intros Hput. unfold _upload_file, try_except, bind, sftp. cbn.
  by rewrite Hput.
Qed.

Lemma upload_chmod_raises local_path remote_path e w :
  sftp_at (now w) (SftpPut local_path remote_path) = None ->
  sftp_at (S (now w)) (SftpChmod remote_path) = Some e ->
  upload local_path remote_path w
  = (Ret false,
     emit (EvSftp (SftpChmod remote_path) (Some e))
          (emit (EvSftp (SftpPut local_path remote_path) None) w)).
Proof.
  intros Hput Hchmod. unfold _upload_file, try_except, bind, sftp. cbn.
  rewrite Hput. cbn. rewrite !length_app. cbn.
  rewrite !Nat.add_1_r. fold (now w). by rewrite Hchmod.
Qed.
End Facts.
End UploadFacts.

(** ** The synchronization pass *)

Module SyncFacts.
Import Py PyFacts Sync UploadFacts.

Section Facts.
Context (E : os_env) (cfg : config).
Variable sftp_at : nat -> sftp_call -> option exn.
Variable json_dumps : json -> string.

Abbreviation quiet := (no_transfer).
Abbreviation grows := (index_grows cfg).
Abbreviation sync_one := (Sync.sync_one E cfg sftp_at json_dumps).
Abbreviation sync_files := (Sync.sync_files E cfg sftp_at json_dumps).

Lemma quiet_refl w : quiet w w.
Proof. split; [done|]. exists []. by rewrite app_nil_r. Qed.

Lemma quiet_trans w1 w2 w3 : quiet w1 w2 -> quiet w2 w3 -> quiet w1 w3.
Proof.
  intros [[Hf1 Hs1] (evs1 & Ht1 & Hp1)] [[Hf2 Hs2] (evs2 & Ht2 & Hp2)].
  split; [split; congruence|].
  exists (evs1 ++ evs2). rewrite Ht2, Ht1, app_assoc. split; [done|].
  unfold puts in *. by rewrite omap_app, Hp1, Hp2.
Qed.

Lemma grows_refl w : grows w w.
Proof. by split. Qed.

Lemma grows_trans w1 w2 w3 : grows w1 w2 -> grows w2 w3 -> grows w1 w3.
Proof.
  intros [Hf1 Hs1] [Hf2 Hs2]. split.
  - intros p Hp. by rewrite Hf2, Hf1.
  - set_solver.
Qed.

Lemma quiet_grows w w' : quiet w w' -> grows w w'.
Proof. intros [[Hf Hs] _]. split; [by rewrite Hf|by rewrite Hs]. Qed.

Lemma keeps_quiet_grows {A} (c : M A) : keeps quiet c -> keeps grows c.
Proof. intros H w. apply quiet_grows, H. Qed.

Lemma sftp_quiet c :
  (forall l r, c <> SftpPut l r) -> keeps quiet (sftp sftp_at c).
Proof.
  intros Hc w. unfold sftp. cbn. split; [done|].
  eexists [_]. split; [done|]. destruct c; try done. by destruct (Hc local remote).
Qed.

Lemma get_ssh_client_quiet : keeps quiet (_get_ssh_client sftp_at).
Proof.
  unfold _get_ssh_client.
  apply keeps_try; [apply quiet_trans| |intros; apply keeps_ret, quiet_refl].
  apply keeps_bind; [apply quiet_trans|by apply sftp_quiet|].
  intros; apply keeps_ret, quiet_refl.
Qed.

Lemma open_sftp_quiet :
  keeps quiet (try_except (sftp sftp_at OpenSftp >> ret true)%py
                          any_exception (fun _ => ret false)).
Proof.
  apply keeps_try; [apply quiet_trans| |intros; apply keeps_ret, quiet_refl].
  apply keeps_bind; [apply quiet_trans|by apply sftp_quiet|].
  intros; apply keeps_ret, quiet_refl.
Qed.

Lemma stat_or_mkdir_quiet d sel :
  keeps quiet (try_except (sftp sftp_at (SftpStat d)) sel
                          (fun _ => sftp sftp_at (SftpMkdir d))).
Proof.
  apply keeps_try; [apply quiet_trans|by apply sftp_quiet|].
  intros; by apply sftp_quiet.
Qed.

Lemma ensure_remote_directories_quiet :
  keeps quiet (_ensure_remote_directories cfg sftp_at).
Proof.
  unfold _ensure_remote_directories.
  apply keeps_try; [apply quiet_trans| |intros; apply keeps_raise, quiet_refl].
  apply keeps_for_each; [apply quiet_refl|apply quiet_trans|].
  intros d. apply stat_or_mkdir_quiet.
Qed.

Lemma ensure_remote_parent_quiet rp :
  keeps quiet (ensure_remote_parent sftp_at rp).
Proof.
  unfold ensure_remote_parent.
  apply keeps_try; [apply quiet_trans|by apply sftp_quiet|].
  intros e. destruct rp as [|first parts]; [apply keeps_raise, quiet_refl|].
  apply keeps_for_each; [apply quiet_refl|apply quiet_trans|].
  intros p. apply keeps_try; [apply quiet_trans|by apply sftp_quiet|].
  intros; apply keeps_ret, quiet_refl.
Qed.

Lemma rewrites_index_outside doc fs evs fs' p :
  rewrites_index_in_place cfg doc fs evs fs' ->
  p <> sync_log_file cfg -> fs' !! p = fs !! p.
Proof. intros [e|e t|t] Hp; [done|by rewrite lookup_insert_ne..]. Qed.

Lemma upload_grows l r : keeps grows (_upload_file E cfg sftp_at json_dumps l r).
Proof.
  intros w.
  destruct (sftp_at (now w) (SftpPut l r)) as [e|] eqn:Hput.
  { rewrite (upload_put_raises E cfg sftp_at json_dumps l r e w Hput).
    by split. }
  destruct (sftp_at (S (now w)) (SftpChmod r)) as [e|] eqn:Hch.
  { rewrite (upload_chmod_raises E cfg sftp_at json_dumps l r e w Hput Hch).
    by split. }
  destruct (upload_accepted E cfg sftp_at json_dumps l r w Hput Hch)
    as (evs & fs' & -> & Hrw).
  split; cbn.
  - intros p Hp. by eapply rewrites_index_outside.
  - set_solver.
Qed.

Lemma sync_one_grows d rd p : keeps grows (sync_one d rd p).
Proof.
  unfold Sync.sync_one.
  apply keeps_bind; [apply grows_trans|intros w; apply grows_refl|intros isfile].
  apply keeps_bind; [apply grows_trans|intros w; apply grows_refl|intros s].
  destruct (_ && _); [|apply keeps_ret, grows_refl].
  apply keeps_bind; [apply grows_trans| |intros u].
  { apply keeps_quiet_grows, ensure_remote_parent_quiet. }
  apply keeps_bind; [apply grows_trans|apply upload_grows|].
  intros; apply keeps_ret, grows_refl.
Qed.

Lemma sync_one_skip d rd p w :
  is_file (w_fs w !! p) = true ->
  str (absolute (cwd cfg) p) ∈ w_synced w ->
  sync_one d rd p w = (Ret tt, w).
Proof.
  intros Hf Hin. unfold Sync.sync_one, bind, get_synced. cbn.
  rewrite Hf. by rewrite bool_decide_eq_true_2.
Qed.

Lemma sync_one_not_file d rd p w :
  is_file (w_fs w !! p) = false -> sync_one d rd p w = (Ret tt, w).
Proof.
  intros Hf. unfold Sync.sync_one, bind, get_synced. cbn. by rewrite Hf.
Qed.

Lemma for_each_skip {A} (xs : list A) (body : A -> M unit) w :
  (forall x, x ∈ xs -> body x w = (Ret tt, w)) ->
  for_each xs body w = (Ret tt, w).
Proof.
  induction xs as [|x xs IH]; intros Hb; cbn; [done|].
  unfold bind. rewrite (Hb x) by left. apply IH. intros y Hy. apply Hb. by right.
Qed.

(** The loop over one managed directory, lines 150-173. *)
Abbreviation sync_dir d rd :=
  (let* files := glob_all E d in for_each files (sync_one d rd))%py.

Lemma sync_dir_all_synced d rd w :
  d ∈ managed_dirs cfg -> all_synced E cfg w -> sync_dir d rd w = (Ret tt, w).
Proof.
  intros Hd Hall. unfold bind, glob_all. cbn.
  apply for_each_skip. intros p Hp.
  destruct (is_file (w_fs w !! p)) eqn:Hf.
  - apply sync_one_skip; [done|]. by apply (Hall d).
  - by apply sync_one_not_file.
Qed.

Abbreviation quiet_if_synced :=
  (fun w w' => all_synced E cfg w -> no_transfer w w').

Lemma all_synced_unchanged w w' :
  unchanged w w' -> all_synced E cfg w -> all_synced E cfg w'.
Proof. intros [Hf Hs]. unfold all_synced. by rewrite Hf, Hs. Qed.

Lemma quiet_if_synced_trans w1 w2 w3 :
  quiet_if_synced w1 w2 -> quiet_if_synced w2 w3 -> quiet_if_synced w1 w3.
Proof.
  intros H1 H2 Hall. specialize (H1 Hall).
  eapply quiet_trans; [exact H1|]. apply H2.
  eapply all_synced_unchanged; [|exact Hall]. apply H1.
Qed.

Lemma keeps_quiet_if_synced {A} (c : M A) :
  keeps quiet c -> keeps quiet_if_synced c.
Proof. intros H w _. apply H. Qed.

Lemma sync_dir_quiet d rd :
  d ∈ managed_dirs cfg -> keeps quiet_if_synced (sync_dir d rd).
Proof.
  intros Hd w Hall. rewrite (sync_dir_all_synced d rd w Hd Hall). apply quiet_refl.
Qed.

Lemma sync_files_quiet : keeps quiet_if_synced sync_files.
Proof.
  assert (Hrefl : forall w, quiet_if_synced w w) by (intros w _; apply quiet_refl).
  unfold Sync.sync_files.
  destruct (negb _); [by apply keeps_ret|].
  apply keeps_bind; [apply quiet_if_synced_trans| |intros client].
  { apply keeps_quiet_if_synced, get_ssh_client_quiet. }
  destruct client; cbn [negb]; [|by apply keeps_ret].
  apply keeps_bind; [apply quiet_if_synced_trans| |intros opened].
  { apply keeps_quiet_if_synced, open_sftp_quiet. }
  destruct opened; cbn [negb]; [|by apply keeps_raise].
  apply keeps_try; [apply quiet_if_synced_trans| |intros; by apply keeps_ret].
  apply keeps_bind; [apply quiet_if_synced_trans| |intros u].
  { apply keeps_quiet_if_synced, ensure_remote_directories_quiet. }
  apply keeps_bind; [apply quiet_if_synced_trans| |intros; by apply keeps_ret].
  cbn [for_each].
  apply keeps_bind; [apply quiet_if_synced_trans| |intros u1].
  { apply sync_dir_quiet. left. }
  apply keeps_bind; [apply quiet_if_synced_trans| |intros; by apply keeps_ret].
  apply sync_dir_quiet. right; left.
Qed.

Lemma no_puts_when_all_synced w :
  all_synced E cfg w -> puts (drop (now w) (w_trace (sync_files w).2)) = [].
Proof.
  intros Hall. destruct (sync_files_quiet w Hall) as [_ (evs & -> & Hp)].
  unfold now. by rewrite drop_app_length.
Qed.

Lemma sync_one_eq d rd p w :
  sync_one d rd p w
  = if is_file (w_fs w !! p)
       && negb (bool_decide (str (absolute (cwd cfg) p) ∈ w_synced w))
    then (ensure_remote_parent sftp_at (parent (rd ++ drop (length d) p)) >>
          _upload_file E cfg sftp_at json_dumps p (rd ++ drop (length d) p) >>
          ret tt)%py w
    else (Ret tt, w).
Proof.
  unfold Sync.sync_one, get_synced. unfold bind at 1. unfold bind at 1.
  by destruct (_ && _).
Qed.

Lemma sync_one_records d rd p w w1 :
  accepts_transfers sftp_at ->
  sync_one d rd p w = (Ret tt, w1) ->
  is_file (w_fs w !! p) = true ->
  str (absolute (cwd cfg) p) ∈ w_synced w1.
Proof.
  intros Hacc Hrun Hf. rewrite sync_one_eq, Hf in Hrun.
  case_bool_decide as Hin; cbn [negb andb] in Hrun.
  { by injection Hrun as <-. }
  unfold bind in Hrun.
  destruct (ensure_remote_parent sftp_at _ w) as [[u|e] w0]; [|discriminate].
  destruct (upload_accepted E cfg sftp_at json_dumps p
              (rd ++ drop (length d) p) w0
              (proj1 (Hacc _ _ _)) (proj2 (Hacc _ p _)))
    as (evs & fs' & Hup & _).
  rewrite Hup in Hrun. injection Hrun as <-. cbn. set_solver.
Qed.

Lemma for_each_sync_one_grows d rd xs : keeps grows (for_each xs (sync_one d rd)).
Proof.
  apply keeps_for_each; [apply grows_refl|apply grows_trans|].
  intros x. apply sync_one_grows.
Qed.

Lemma inner_loop_records d rd xs : forall w w',
  accepts_transfers sftp_at ->
  for_each xs (sync_one d rd) w = (Ret tt, w') ->
  forall x, x ∈ xs -> x <> sync_log_file cfg ->
    is_file (w_fs w !! x) = true ->
    str (absolute (cwd cfg) x) ∈ w_synced w'.
Proof.
  induction xs as [|a xs IH]; intros w w' Hacc Hrun x Hx Hne Hf.
  { by apply elem_of_nil in Hx. }
  cbn in Hrun. unfold bind in Hrun.
  pose proof (sync_one_grows d rd a w) as Hg1.
  destruct (sync_one d rd a w) as [[u|e] w1] eqn:Hone; [|discriminate].
  pose proof (for_each_sync_one_grows d rd xs w1) as Hg2.
  rewrite Hrun in Hg2. cbn in Hg1, Hg2.
  apply elem_of_cons in Hx as [->|Hx].
  - destruct u. apply Hg2. by eapply sync_one_records.
  - eapply IH; try done. destruct Hg1 as [Hfs _]. by rewrite Hfs.
Qed.

Lemma listing_agree (d : path) (fs fs' : gmap path node) (p : path) :
  fs !! p = fs' !! p -> p ∈ listing E d fs -> p ∈ listing E d fs'.
Proof.
  intros Heq [Hp Hin]%list_elem_of_filter. apply list_elem_of_filter.
  split; [|done]. cbv beta in *.
  apply andb_prop_elim in Hp as [Hp1 Hp2]. apply andb_prop_intro.
  split; [|done]. apply bool_decide_unpack in Hp1 as [n Hn].
  apply bool_decide_pack. exists n. etrans; [symmetry; exact Heq|exact Hn].
Qed.

Lemma listing_below d fs p : p ∈ listing E d fs -> d `prefix_of` p.
Proof.
  intros [Hp _]%list_elem_of_filter. apply andb_prop_elim in Hp as [_ Hp].
  by apply bool_decide_unpack in Hp as [? _].
Qed.

(** A pass that returns [True] while the server accepts every transfer
    leaves every file under the managed directories in the index set. *)
Lemma pass_covers w w1 :
  accepts_transfers sftp_at -> index_outside cfg ->
  sync_files w = (Ret true, w1) -> all_synced E cfg w1.
Proof.
  intros Hacc Hout Hrun. unfold Sync.sync_files in Hrun.
  destruct (negb _); [discriminate|]. unfold bind at 1 in Hrun.
  destruct (_get_ssh_client sftp_at w) as [[[]|e] wa]; cbn in Hrun; try discriminate.
  unfold bind at 1 in Hrun.
  destruct (try_except _ _ _ wa) as [[[]|e] wb]; cbn in Hrun; try discriminate.
  unfold try_except in Hrun. unfold bind at 1 in Hrun.
  destruct (_ensure_remote_directories cfg sftp_at wb) as [[u|e] wc];
    cbn in Hrun; [|discriminate].
  unfold bind at 1 in Hrun. cbn [for_each] in Hrun. unfold bind at 1 in Hrun.
  pose proof (sync_dir_grows_aux := fun d rd w0 =>
    for_each_sync_one_grows d rd (listing E d (w_fs w0)) w0).
  match type of Hrun with context [bind (glob_all E ?d) _ wc] =>
    pose proof (sync_dir_grows_aux d (remote_recordings_dir cfg) wc) as Hg1;
    pose proof (inner_loop_records d (remote_recordings_dir cfg)
                  (listing E d (w_fs wc)) wc) as Hrec1 end.
  unfold bind at 1 in Hrun. unfold glob_all at 1 in Hrun. cbn in Hrun.
  destruct (for_each (listing E (local_recordings_dir cfg) (w_fs wc)) _ wc)
    as [[u1|e] wd] eqn:H1; cbn in Hrun; [|discriminate].
  unfold bind at 1 in Hrun.
  pose proof (sync_dir_grows_aux (local_gps_dir cfg) (remote_gps_dir cfg) wd) as Hg2.
  pose proof (inner_loop_records (local_gps_dir cfg) (remote_gps_dir cfg)
                (listing E (local_gps_dir cfg) (w_fs wd)) wd) as Hrec2.
  unfold bind at 1 in Hrun. unfold glob_all at 1 in Hrun. cbn in Hrun.
  destruct (for_each (listing E (local_gps_dir cfg) (w_fs wd)) _ wd)
    as [[u2|e] we] eqn:H2; cbn in Hrun; [|discriminate].
  injection Hrun as <-. destruct u1, u2. cbn in Hg1, Hg2.
  destruct Hg1 as [Hfs1 Hs1], Hg2 as [Hfs2 Hs2].
  intros dir p Hdir Hp Hf.
  assert (Hne : p <> sync_log_file cfg).
  { intros ->. apply (Hout dir Hdir). by eapply listing_below. }
  unfold managed_dirs in Hdir.
  apply elem_of_cons in Hdir as [->|Hdir]; [|apply list_elem_of_singleton in Hdir as ->].
  - apply Hs2. eapply (Hrec1 wd Hacc eq_refl p); [|done|].
    + eapply listing_agree; [|exact Hp]. by rewrite Hfs2, Hfs1.
    + by rewrite <- Hfs1, <- Hfs2.
  - eapply (Hrec2 we Hacc eq_refl p); [|done|].
    + eapply listing_agree; [|exact Hp]. by rewrite Hfs2.
    + by rewrite <- Hfs2.
Qed.

End Facts.

(** C2: a pass of [sync_files] started when every file under the managed
    directories has its absolute path in the index set attempts no
    transfer; so does a pass of a synchronizer that has just loaded an
    index file listing every such file.  In particular, after a pass that
    returned [True] and had every transfer accepted by the server, an
    immediate second pass over the same files attempts none (the index
    file itself lies outside the managed directories). *)
Theorem second_pass_transfers_nothing
    (E : os_env) (cfg : config) (sftp_at : nat -> sftp_call -> option exn)
    (json_loads : string -> option json)
    (json_dumps : json -> string) (w : world) :
  (all_synced E cfg w ->
   puts (drop (now w) (w_trace (sync_files E cfg sftp_at json_dumps w).2)) = [])
  /\ (forall s, index_lists E cfg json_loads w s -> covered E cfg (w_fs w) s ->
      let w0 := (init E cfg json_loads w).2 in
      puts (drop (now w0) (w_trace (sync_files E cfg sftp_at json_dumps w0).2)) = [])
  /\ (accepts_transfers sftp_at -> index_outside cfg ->
      (sync_files E cfg sftp_at json_dumps w).1 = Ret true ->
      let w1 := (sync_files E cfg sftp_at json_dumps w).2 in
      all_synced E cfg w1
      /\ puts (drop (now w1)
                 (w_trace (sync_files E cfg sftp_at json_dumps w1).2)) = []).
Proof.
  split; [apply no_puts_when_all_synced|]. split.
  - intros s Hidx Hcov w0. apply no_puts_when_all_synced. subst w0.
    by rewrite (SyncLoad.init_loads_index E cfg json_loads w s Hidx).
  - intros Hacc Hout Hret w1.
    assert (Hall : all_synced E cfg w1).
    { apply (pass_covers E cfg sftp_at json_dumps w w1 Hacc Hout).
      subst w1. destruct (sync_files E cfg sftp_at json_dumps w) as [r w']; cbn in *.
      by subst r. }
    split; [done|]. by apply no_puts_when_all_synced.
Qed.

(** C3, as the code has it: once [sftp.put] and [sftp.chmod] have returned
    for a file, and before [_upload_file] returns, hence before the transfer
    of the next file begins, the uploader adds the absolute path of the
    file to [synced_files] and rewrites the index file in place: it opens
    the file for writing, which truncates it, and writes the document of
    the new set.  A call that raises on the way is swallowed; the upload
    counts as done all the same. *)
Theorem upload_records_then_rewrites_index_in_place
    (E : os_env) (cfg : config) (sftp_at : nat -> sftp_call -> option exn)
    (json_dumps : json -> string) (local_path remote_path : path) (w : world) :
  sftp_at (now w) (SftpPut local_path remote_path) = None ->
  sftp_at (S (now w)) (SftpChmod remote_path) = None ->
  let added := {[ str (absolute (cwd cfg) local_path) ]} ∪ w_synced w in
  exists evs fs',
    _upload_file E cfg sftp_at json_dumps local_path remote_path w
    = (Ret true,
       World fs'
         (w_trace w ++ EvSftp (SftpPut local_path remote_path) None
                       :: EvSftp (SftpChmod remote_path) None :: evs)
         added)
    /\ rewrites_index_in_place cfg (json_dumps (index_document added))
         (w_fs w) evs fs'.
Proof. apply upload_accepted. Qed.


End SyncFacts.

(** ** Synchronization on the device with two recordings *)

Module SyncScenario.
Import Py Sync Scenario.

(** The remote path of the second recording. *)
Abbreviation remote_jan02 :=
  (["/"; "srv"; "audio"; "recordings"; "dev_20240102_000000.wav"]).

(** The calls [_upload_file] makes for the second recording when the index
    already lists the first. *)
Example upload_jan02_trace :
  w_trace (_upload_file (disk None) sync_cfg server_accepts toy_dumps
             jan02 remote_jan02 jan01_synced).2
  = [EvSftp (SftpPut jan02 remote_jan02) None;
     EvSftp (SftpChmod remote_jan02) None;
     EvFs (OpCreate index_file);
     EvFs (OpWrite index_file
             (String.concat "," (elements ({[ str jan02 ]} ∪ {[ str jan01 ]}
                                            : gset string))))].
Proof. vm_compute. reflexivity. Qed.

(** C3 as stated fails: the index file is not replaced atomically.  After
    the file was opened for writing and before the new list is written,
    the index file holds neither the old list nor the new one: it is
    empty. *)
Lemma index_truncated_in_place :
  ~ index_replaced_atomically (disk None) sync_cfg jan01_synced
      (w_trace (_upload_file (disk None) sync_cfg server_accepts toy_dumps
                  jan02 remote_jan02 jan01_synced).2)
  /\ replay (disk None) 0
       (take 3 (w_trace (_upload_file (disk None) sync_cfg server_accepts
                           toy_dumps jan02 remote_jan02 jan01_synced).2))
       (w_fs jan01_synced) !! index_file
     = Some (File "" 2).
Proof.
  split.
  - intros H. destruct (H 3) as [H3|H3]; vm_compute in H3; discriminate.
  - by vm_compute.
Qed.

Lemma upload_records_then_rewrites_index_in_place_witness :
  server_accepts (now jan01_synced) (SftpPut jan02 remote_jan02) = None
  /\ server_accepts (S (now jan01_synced)) (SftpChmod remote_jan02) = None
  /\ exists evs fs',
       _upload_file (disk None) sync_cfg server_accepts toy_dumps
         jan02 remote_jan02 jan01_synced
       = (Ret true,
          World fs'
            (w_trace jan01_synced
               ++ EvSftp (SftpPut jan02 remote_jan02) None
                  :: EvSftp (SftpChmod remote_jan02) None :: evs)
            ({[ str (absolute (cwd sync_cfg) jan02) ]} ∪ w_synced jan01_synced))
       /\ rewrites_index_in_place sync_cfg
            (toy_dumps (index_document
               ({[ str (absolute (cwd sync_cfg) jan02) ]} ∪ w_synced jan01_synced)))
            (w_fs jan01_synced) evs fs'.
Proof.
  split; [reflexivity|]. split; [reflexivity|].
  apply (SyncFacts.upload_records_then_rewrites_index_in_place
           (disk None) sync_cfg server_accepts toy_dumps jan02 remote_jan02
           jan01_synced); reflexivity.
Defined.


Lemma server_accepts_transfers : accepts_transfers server_accepts.
Proof. by intros t l r. Qed.

Lemma index_outside_sync_cfg : index_outside sync_cfg.
Proof.
  intros dir Hdir [k Hk]. unfold managed_dirs in Hdir. cbn in Hdir.
  apply elem_of_cons in Hdir as [->|Hdir];
    [|apply list_elem_of_singleton in Hdir as ->]; vm_compute in Hk; discriminate.
Qed.

Lemma second_pass_transfers_nothing_witness :
  accepts_transfers server_accepts
  /\ index_outside sync_cfg
  /\ (sync_files (disk None) sync_cfg server_accepts toy_dumps start).1 = Ret true
  /\ all_synced (disk None) sync_cfg
       (sync_files (disk None) sync_cfg server_accepts toy_dumps start).2
  /\ puts (drop (now (sync_files (disk None) sync_cfg server_accepts toy_dumps
                        start).2)
             (w_trace (sync_files (disk None) sync_cfg server_accepts toy_dumps
                         (sync_files (disk None) sync_cfg server_accepts
                            toy_dumps start).2).2))
     = [].
Proof.
  split; [exact server_accepts_transfers|].
  split; [exact index_outside_sync_cfg|].
  assert (Hret : (sync_files (disk None) sync_cfg server_accepts toy_dumps
                    start).1 = Ret true) by (vm_compute; reflexivity).
  split; [exact Hret|].
  destruct (proj2 (proj2 (SyncFacts.second_pass_transfers_nothing (disk None)
                            sync_cfg server_accepts (fun _ => None) toy_dumps
                            start))
              server_accepts_transfers index_outside_sync_cfg Hret)
    as [Hall _].
  split; [exact Hall|].
  exact (proj1 (SyncFacts.second_pass_transfers_nothing (disk None) sync_cfg
                  server_accepts (fun _ => None) toy_dumps
                  (sync_files (disk None) sync_cfg server_accepts toy_dumps
                     start).2) Hall).
Defined.

(** The world after the parent directory of the first recording was
    looked up on the server. *)
Abbreviation parent_checked :=
  (emit (EvSftp (SftpStat ["/"; "srv"; "audio"; "recordings"]) None) start).

End SyncScenario.

(** ** A capture cycle on the device with two recordings *)

Module CaptureScenario.
Import Py Recorder Scenario.

Lemma two_recordings_whole : wav_complete toy_wave (w_fs start).
Proof.
  intros p Hp d t Hl. cbn in Hl. unfold two_recordings in Hl.
  apply lookup_insert_Some in Hl as [[<- [= <- <-]]|[_ Hl]]; [by exists "1"|].
  apply lookup_insert_Some in Hl as [[<- _]|[_ Hl]]; [by vm_compute in Hp|].
  apply lookup_insert_Some in Hl as [[<- [= <- <-]]|[_ Hl]]; [by exists "2"|].
  apply lookup_insert_Some in Hl as [[<- _]|[_ Hl]]; [by vm_compute in Hp|].
  by rewrite lookup_empty in Hl.
Qed.

Lemma recording_path_never_partial_witness :
  wav_complete toy_wave (w_fs start)
  /\ exists evs,
       w_trace (record_cycle (disk None) recorder_cfg toy_dumps toy_wave
                  (fun _ => ["RI"]) jan03_cycle start).2
       = w_trace start ++ evs
       /\ Forall no_write_in_place evs
       /\ forall k,
            absent_old_or_full (w_fs start) jan03 "RIFFabcd"
              (replay (disk None) (now start) (take k evs) (w_fs start)).
Proof.
  split; [exact two_recordings_whole|].
  destruct (CaptureFacts.recording_path_never_partial (disk None) recorder_cfg
              toy_dumps toy_wave (fun _ => ["RI"]) jan03_cycle start
              two_recordings_whole) as (evs & Ht & _ & Hg & Hseen).
  exists evs. split; [exact Ht|]. split; [exact Hg|].
  intros k. exact (proj1 (Hseen k)).
Defined.

(** The calls of the cycle, and the sidecar it leaves. *)
Example jan03_cycle_trace (json_dumps : json -> string) :
  w_trace (record_cycle (disk None) recorder_cfg json_dumps toy_wave
             (fun _ => ["RI"]) jan03_cycle start).2
  = [EvFs (OpMkdir recordings_dir);
     EvFs (OpCreate (fstr jan03 ".tmp"));
     EvFs (OpWrite (fstr jan03 ".tmp") "RI");
     EvFs (OpWrite (fstr jan03 ".tmp") "RIFFabcd");
     EvFs (OpRename (fstr jan03 ".tmp") jan03);
     EvOsSync;
     EvFs (OpCreate (fstr jan03 ".json"));
     EvFs (OpWrite (fstr jan03 ".json")
             (json_dumps (metadata recorder_cfg "2024-01-03T00:01:00" None)))].
Proof. vm_compute. reflexivity. Qed.

(** The temporary path is not a recording path, and the enumeration of
    [sync_files] does list it: after the first write of the cycle it holds
    a partial file, which the scan of [_check_storage] leaves out. *)
Example temporary_file_is_enumerated :
  let seen := replay disk_scanning_jan03 0
                [EvFs (OpMkdir recordings_dir);
                 EvFs (OpCreate (fstr jan03 ".tmp"));
                 EvFs (OpWrite (fstr jan03 ".tmp") "RI")] (w_fs start) in
  seen !! fstr jan03 ".tmp" = Some (File "RI" 2)
  /\ existsb (fun p => bool_decide (p = fstr jan03 ".tmp"))
       (listing disk_scanning_jan03 recordings_dir seen) = true
  /\ (glob disk_scanning_jan03 recordings_dir "" ".wav" (World seen [] ∅)).1
     = Ret [jan01; jan02].
Proof.
  by vm_compute.
Qed.

(** C8 fails on the code: a fix is available when the sidecar is written,
    [save_metadata] would record a location it is given, yet
    [record_audio] calls it without one, and the sidecar holds an empty
    location next to the audio format. *)
Theorem sidecar_location_empty_despite_fix (json_dumps : json -> string) :
  (exists location,
     (Gps.get_current_location true (fun _ => Ret fix_packet) start).1
     = Ret (Some location)
     /\ Gps.truthy (Some location) = true
     /\ metadata recorder_cfg "2024-01-03T00:01:00" (Some location)
        = JObj [ ("device_id", JStr "dev");
                 ("timestamp", JStr "2024-01-03T00:01:00");
                 ("location", JObj location);
                 ("audio_format", JObj [ ("channels", JInt 6);
                                         ("sample_width", JInt 2);
                                         ("frame_rate", JInt 16000) ]) ])
  /\ w_fs (record_cycle (disk None) recorder_cfg json_dumps toy_wave
             (fun _ => ["RI"]) jan03_cycle start).2 !! fstr jan03 ".json"
     = Some (File (json_dumps
                     (JObj [ ("device_id", JStr "dev");
                             ("timestamp", JStr "2024-01-03T00:01:00");
                             ("location", JObj []);
                             ("audio_format", JObj [ ("channels", JInt 6);
                                                     ("sample_width", JInt 2);
                                                     ("frame_rate", JInt 16000) ]) ]))
                  7).
Proof.
  split.
  - eexists. split; [vm_compute; reflexivity|]. split; reflexivity.
  - vm_compute. reflexivity.
Qed.
End CaptureScenario.

(** ** Start-up and sampling on the device *)

Module StartupScenario.
Import Py Scenario.

Lemma load_sync_status_unusable_index_witness :
  Sync.index_unusable (disk None) sync_cfg (fun _ => None) start
  /\ (Sync._load_sync_status (disk None) sync_cfg (fun _ => None) start).1 = Ret ∅
  /\ w_synced (Sync.init (disk None) sync_cfg (fun _ => None) start).2 = ∅.
Proof.
  assert (H : Sync.index_unusable (disk None) sync_cfg (fun _ => None) start).
  { left. vm_compute. reflexivity. }
  split; [exact H|].
  destruct (SyncLoad.load_sync_status_unusable_index (disk None) sync_cfg
              (fun _ => None) start H) as (Hl & _ & Hs & _).
  split; [exact Hl|exact Hs].
Defined.

Lemma log_location_no_fix_skips_witness :
  Gps.no_fix (fun _ => Ret no_fix_packet) start
  /\ (Gps.log_location (disk None) true gps_dir (fun _ => Ret no_fix_packet)
        (fun _ => 1 # 2) toy_dumps "20240103" start).1 = Ret None
  /\ Gps.start_tracking (disk None) true gps_dir (fun _ => Ret no_fix_packet)
       (fun _ => 1 # 2) toy_dumps ["20240103"; "20240103"; "20240103"] start
     = Gps.start_tracking (disk None) true gps_dir (fun _ => Ret no_fix_packet)
         (fun _ => 1 # 2) toy_dumps ["20240103"; "20240103"] (emit EvGpsd start).
Proof.
  assert (H : Gps.no_fix (fun _ => Ret no_fix_packet) start) by (cbn; lia).
  split; [exact H|].
  destruct (GpsFacts.log_location_no_fix_skips (disk None) true gps_dir
              (fun _ => Ret no_fix_packet) (fun _ => 1 # 2) toy_dumps "20240103"
              ["20240103"; "20240103"] start H) as (Hr & _ & _ & Ht).
  split; [exact Hr|exact Ht].
Defined.
End StartupScenario.

(** ** Recording names, metadata files and the reclaim scan *)

Module NamingFacts.
Import Py PyFacts Recorder.








Section Facts.
Context (E : os_env) (cfg : config).
Variable json_dumps : json -> string.


(** [save_metadata] opens [<filename>.json] for writing, which truncates
    it, and writes the document there; no other file changes.  The
    location is the record it is given, and the empty object when it is
    given none or an empty one. *)
Theorem save_metadata_writes_sidecar filename iso gps_data w :
  io_raises E (now w) = false ->
  io_raises E (S (now w)) = false ->
  (forall t, w_fs w !! fstr filename ".json" <> Some (Dir t)) ->
  let sidecar := fstr filename ".json" in
  let text :=
    json_dumps
      (JObj [ ("device_id", JStr (device_id cfg));
              ("timestamp", JStr iso);
              ("location", JObj (default [] gps_data));
              ("audio_format", JObj [ ("channels", JInt 6);
                                      ("sample_width", JInt 2);
                                      ("frame_rate", JInt 16000) ]) ]) in
  save_metadata E cfg json_dumps filename iso gps_data w
  = (Ret tt,
     World (<[sidecar := File text (clock E (S (now w)))]> (w_fs w))
           (w_trace w ++ [EvFs (OpCreate sidecar); EvFs (OpWrite sidecar text)])
           (w_synced w)).
Proof.
  intros Hio0 Hio1 Hdir sidecar text.
  assert (Hdoc : json_dumps (metadata cfg iso gps_data) = text).
  { subst text. unfold metadata, or_empty. by destruct gps_data as [[|f fs]|]. }
  unfold save_metadata, bind, fs_call. fold sidecar. rewrite Hio0. cbn.
  destruct (w_fs w !! sidecar) as [[d t|t]|] eqn:Hs;
    try (by destruct (Hdir t)); cbn;
    rewrite length_app, Nat.add_1_r; fold (now w); rewrite Hio1;
    rewrite lookup_insert_eq, insert_insert_eq, <- app_assoc, Hdoc; done.
Qed.

(** While the volume holds no more than the budget and its free space is
    at or above the floor, [_check_storage] reads the disk usage once and
    does nothing else: no scan, no deletion.  This includes usage between
    90% and 100% of the budget, where the clean-up loop, once started,
    would go on deleting. *)
Theorem check_storage_idle_within_budget total used free w :
  disk_usage_at E (now w) = Some (total, used, free) ->
  (to_gb used <= max_storage_gb cfg)%Q ->
  (min_free_space_gb cfg <= to_gb free)%Q ->
  _check_storage E cfg w = (Ret tt, emit EvDiskUsage w).
Proof.
  intros Hdu Hused Hfree.
  unfold _check_storage, try_except, bind, disk_usage. rewrite Hdu. cbn.
  assert (Hover : over_limit cfg 1 (to_gb used) (to_gb free) = false).
  { unfold over_limit, Qltb. apply orb_false_iff.
    split; apply negb_false_iff, Qle_bool_iff; [|done].
    by rewrite Qmult_1_r. }
  by rewrite Hover.
Qed.
End Facts.
End NamingFacts.

(** ** What the reclaim may delete *)

Module ReclaimFootprint.
Import Py PyFacts Recorder ReclaimFacts.

Section Facts.
Context (E : os_env) (cfg : config).

Lemma reclaims_refl w : reclaims cfg w w.
Proof.
  split; [done|]. split; [by left|]. exists []. by rewrite app_nil_r.
Qed.

Lemma reclaims_trans w1 w2 w3 :
  reclaims cfg w1 w2 -> reclaims cfg w2 w3 -> reclaims cfg w1 w3.
Proof.
  intros (Hs1 & Hf1 & evs1 & Ht1 & Hg1) (Hs2 & Hf2 & evs2 & Ht2 & Hg2).
  split; [congruence|]. split.
  - intros p. destruct (Hf2 p) as [H2|[H2 Hev]]; [|by right].
    rewrite H2. apply Hf1.
  - exists (evs1 ++ evs2). rewrite Ht2, Ht1, app_assoc. split; [done|].
    by apply Forall_app.
Qed.

Lemma deletes_pair_reclaims r rest w evs o fs' :
  is_recording cfg r = true ->
  deletes_pair r rest (w_fs w) evs o fs' ->
  reclaims cfg w (World fs' (w_trace w ++ evs) (w_synced w)).
Proof.
  intros Hr Hp.
  assert (Hev : evictable cfg r) by by left.
  assert (Hsc : evictable cfg (fstr r ".json")) by (right; eauto).
  assert (Hdel : forall p, delete r (w_fs w) !! p = w_fs w !! p
                           \/ (delete r (w_fs w) !! p = None /\ evictable cfg p)).
  { intros p. destruct (decide (p = r)) as [->|Hne].
    - right. by rewrite lookup_delete_eq.
    - left. by rewrite lookup_delete_ne. }
  split; [done|]. cbn.
  inversion Hp; subst; (split; [|eexists; split; [done|]]);
    try (repeat first [apply Forall_nil | apply Forall_cons; split]; by cbn);
    try exact Hdel; intros p; [by left|].
  destruct (decide (p = fstr r ".json")) as [->|Hne].
  - right. by rewrite lookup_delete_eq.
  - rewrite lookup_delete_ne by done. apply Hdel.
Qed.

Lemma cleanup_loop_reclaims fuel : forall st w,
  Forall (fun p => is_recording cfg p = true) (recordings st) ->
  reclaims cfg w (cleanup_loop E cfg fuel st w).2.
Proof.
  unfold cleanup_loop.
  induction fuel as [|fuel IH]; intros st w Hrec; cbn.
  - destruct (loop_cond cfg st); apply reclaims_refl.
  - destruct (loop_cond cfg st) eqn:Hc; cbn; [|apply reclaims_refl].
    destruct (loop_cond_true cfg st Hc) as (r & rest & Hst).
    destruct st as [u f recs]. cbn in Hst, Hrec |- *. subst recs.
    apply Forall_cons in Hrec as [Hr Hrest].
    destruct (loop_body_spec E u f r rest w) as (evs & o & fs' & Hb & Hp).
    unfold bind. rewrite Hb.
    pose proof (deletes_pair_reclaims r rest w evs o fs' Hr Hp) as Hstep.
    destruct o as [st'|]; cbn; [|exact Hstep].
    eapply reclaims_trans; [exact Hstep|]. apply IH.
    by rewrite (deletes_pair_rest _ _ _ _ _ _ Hp).
Qed.

Lemma sorted_by_mtime_present ps w :
  Forall (fun p => is_Some (w_fs w !! p)) ps ->
  exists l, sorted_by_mtime ps w = (Ret l, w) /\ l ≡ₚ ps
    /\ StronglySorted
         (fun a b => (mtime_key (w_fs w) a <= mtime_key (w_fs w) b)%Z) l.
Proof.
  intros Hps. eexists. unfold sorted_by_mtime, bind.
  rewrite with_mtime_present by done. split; [done|]. split.
  - rewrite sort_by_key_perm. clear.
    induction ps as [|p ps IH]; cbn; [done|]. by f_equiv.
  - apply sorted_keys_sorted_values; [apply sort_by_key_sorted|].
    rewrite sort_by_key_perm. apply Forall_fmap. by apply Forall_true.
Qed.

Lemma sorted_recordings_scanned w :
  exists l, sorted_recordings E cfg w = (Ret l, w)
    /\ Forall (fun p => is_recording cfg p = true) l.
Proof.
  unfold sorted_recordings, bind, glob.
  set (wavs := filter _ (scandir E)).
  assert (Hin : Forall (fun p => is_Some (w_fs w !! p)
                                 /\ is_recording cfg p = true) wavs).
  { apply Forall_forall. intros p [Hp _]%list_elem_of_filter.
    apply andb_prop_elim in Hp as [Hp Hm]. apply andb_prop_elim in Hp as [Hp Hc].
    apply bool_decide_unpack in Hp. split; [done|].
    unfold is_recording. apply Is_true_true. by apply andb_prop_intro. }
  destruct (sorted_by_mtime_present wavs w) as (l & Hl & Hperm & _).
  { eapply Forall_impl; [exact Hin|]. by intros p [? _]. }
  exists l. split; [exact Hl|]. rewrite Hperm.
  eapply Forall_impl; [exact Hin|]. by intros p [_ ?].
Qed.

Lemma check_storage_reclaims w :
  exists w', _check_storage E cfg w = (Ret tt, w') /\ reclaims cfg w w'.
Proof.
  assert (Hdu : reclaims cfg w (emit EvDiskUsage w)).
  { split; [done|]. split; [by left|]. eexists [_]. by repeat constructor. }
  unfold _check_storage, try_except. unfold bind at 1. unfold disk_usage.
  destruct (disk_usage_at E (now w)) as [u|];
    cbn -[sorted_recordings cleanup_loop over_limit reclaims]; [|by eauto].
  destruct (over_limit cfg 1 _ _); [|by eauto].
  unfold bind at 1.
  destruct (sorted_recordings_scanned (emit EvDiskUsage w)) as (l & -> & Hl).
  unfold bind at 1.
  pose proof (cleanup_loop_reclaims (S (length l))
                (LoopState (to_gb u.1.2) (to_gb u.2) l) (emit EvDiskUsage w) Hl)
    as Hloop.
  destruct (cleanup_loop E cfg _ _ _) as [[x|e] w']; cbn in Hloop |- *;
    (eexists; split; [done|]); by eapply reclaims_trans.
Qed.

End Facts.
End ReclaimFootprint.

(** ** The frames of a recording *)

Module FrameFacts.
Import Py Recorder.

Lemma read_frames_spec s n : forall k frames l,
  read_frames s n k frames = Ret l ->
  exists m got,
    l = frames ++ got /\ length got = m /\ m <= n
    /\ (m < n -> recording_at s (k + m) = false)
    /\ (forall j, j < m -> recording_at s (k + j) = true)
    /\ (forall j d, got !! j = Some d -> stream_read s (k + j) = Ret d).
Proof.
  induction n as [|n IH]; intros k frames l; cbn.
  - intros [= <-]. exists 0, []. rewrite app_nil_r.
    repeat split; try done; lia.
  - destruct (recording_at s k) eqn:Hrec; cbn.
    + destruct (stream_read s k) as [data|e] eqn:Hread; [|done].
      intros Hl. destruct (IH _ _ _ Hl) as (m & got & -> & Hlen & Hm & Hstop & Hon & Hgot).
      exists (S m), (data :: got). rewrite <- app_assoc. cbn.
      repeat split; try done; try lia.
      * intros Hlt. rewrite <- Hstop by lia. f_equal. lia.
      * intros [|j] Hj; [by rewrite Nat.add_0_r|].
        rewrite <- (Hon j) by lia. f_equal. lia.
      * intros [|j] d; cbn.
        -- intros [= <-]. by rewrite Nat.add_0_r.
        -- intros Hj. rewrite <- (Hgot j d Hj). f_equal. lia.
    + intros [= <-]. exists 0, []. rewrite app_nil_r, Nat.add_0_r.
      repeat split; try done; lia.
Qed.

(** A recording holds the chunks read from the stream, in order and none
    left out, and at most 937 of them: the loop asks for
    [int(16000 / 1024 * 60)] reads, so a file always stays short of the 60
    seconds [record_seconds] names.  It holds exactly 937 chunks when the
    recorder is not stopped on the way, and when [self.recording] is
    found cleared before read [k] it holds no more than [k] chunks: the
    pass stops within one read and the frames read so far are kept. *)
Theorem capture_reads_at_most_937_chunks s frames :
  capture s = Ret frames ->
  chunks_per_file = 937%Z
  /\ length frames <= 937
  /\ (chunk * Z.of_nat (length frames) < rate * record_seconds)%Z
  /\ (forall j d, frames !! j = Some d -> stream_read s j = Ret d)
  /\ ((forall k, k < 937 -> recording_at s k = true) -> length frames = 937)
  /\ (forall k, recording_at s k = false -> length frames <= k).
Proof.
  assert (Hn : chunks_per_file = 937%Z) by reflexivity.
  unfold capture. rewrite Hn. destruct (stream_open s); [done|].
  remember (Z.to_nat 937) as n eqn:En.
  assert (En' : n = 937) by (subst n; reflexivity). clear En.
  destruct (read_frames s n 0 []) as [l|e] eqn:Hread; [|done].
  destruct (stream_close s); [done|]. intros [= <-].
  destruct (read_frames_spec s n 0 [] l Hread)
    as (m & got & Hl & Hlen & Hm & Hstop & Hon & Hgot).
  clear Hread. rewrite app_nil_l in Hl. subst got n. rewrite Hlen.
  split; [done|]. split; [done|].
  split; [unfold chunk, rate, record_seconds; lia|].
  split; [exact Hgot|]. split.
  - intros Hall. destruct (decide (m = 937)) as [|Hne]; [done|].
    specialize (Hstop ltac:(lia)). rewrite Nat.add_0_l in Hstop.
    rewrite Hall in Hstop by lia. discriminate.
  - intros k Hk. destruct (decide (m <= k)) as [|Hgt]; [done|].
    specialize (Hon k ltac:(lia)). rewrite Nat.add_0_l in Hon. congruence.
Qed.
End FrameFacts.

(** ** The loop of record_audio *)

Module RecordLoopFacts.
Import Py PyFacts Recorder CaptureFacts.

Section Facts.
Context (E : os_env) (cfg : config).
Variable json_dumps : json -> string.
Variable wave_encode : Z -> Z -> Z -> string -> string.
Variable wave_partials : string -> list string.

Abbreviation cycle := (record_cycle E cfg json_dumps wave_encode wave_partials).

Lemma record_cycle_returns i w : (cycle i w).1 = Ret tt.
Proof.
  unfold record_cycle, try_except.
  match goal with |- context [bind ?c ?k w] => destruct (bind c k w) as [[[]|e] w'] end;
    done.
Qed.

Lemma cycle_keeps_whole i :
  run_spec E (wav_complete wave_encode) no_write_in_place (fun _ => True)
    (cycle i) (fun r _ => r = Ret tt).
Proof.
  intros w Hw _.
  destruct (spec_record_cycle E cfg json_dumps wave_encode wave_partials
              (w_fs w) (get_recording_filename cfg (timestamp i))
              (whole_file wave_encode (audio i))
              ltac:(by eexists) i eq_refl) with (w := w)
    as (evs & Ht & Hf & Hs & Hg & _).
  - intros frames Hau. unfold whole_file. by rewrite Hau.
  - split; [done|]. right; by left.
  - done.
  - exists evs. repeat split; try done.
    + intros k. by destruct (Hs k).
    + apply record_cycle_returns.
Qed.

(** However many passes the loop of [record_audio] makes and whatever the
    passes meet (a failing stream, a failing disk, a reclaim), the loop
    does not raise, no call of it writes in place to a [*.wav] path, and
    if every [*.wav] file was a whole wave file before the loop, so is
    every [*.wav] file of every file system seen while it runs. *)
Theorem record_audio_keeps_recordings_whole passes w :
  wav_complete wave_encode (w_fs w) ->
  let run := record_audio E cfg json_dumps wave_encode wave_partials passes w in
  run.1 = Ret tt
  /\ exists evs,
       w_trace run.2 = w_trace w ++ evs
       /\ w_fs run.2 = replay E (now w) evs (w_fs w)
       /\ Forall no_write_in_place evs
       /\ forall k, wav_complete wave_encode (replay E (now w) (take k evs) (w_fs w)).
Proof.
  intros Hw run. subst run. unfold record_audio.
  destruct (rs_for_each E (wav_complete wave_encode) no_write_in_place
              (fun _ _ => True) (fun _ _ => False) cycle passes) with (done := @nil cycle_input) (w := w)
    as (evs & Ht & Hf & Hs & Hg & Hpost); try done.
  - intros d x _. eapply rs_conseq; [apply cycle_keeps_whole|done|].
    by intros r w' ->.
  - split; [|by exists evs].
    destruct (for_each passes cycle w) as [[[]|e] w']; done.
Qed.
End Facts.
End RecordLoopFacts.

(** ** The location log *)

Module TrackerFacts.
Import Py PyFacts Recorder Gps NamingFacts.


Lemma drop_now w : drop (now w) (w_trace w) = [].
Proof. unfold now. by rewrite drop_all. Qed.

Lemma drop_now_app w evs : drop (now w) (w_trace w ++ evs) = evs.
Proof. unfold now. by rewrite drop_app_length. Qed.

Section Facts.
Context (E : os_env) (data_dir : path).
Variable gpsd_at : nat -> outcome packet.
Variable random_at : nat -> Q.
Variable json_dumps : json -> string.

Abbreviation tracks := (Gps.tracks data_dir).
Abbreviation cleanup := (_cleanup_old_logs E data_dir).

Lemma tracks_refl w : tracks w w.
Proof. split; [done|]. split; [done|]. exists []. by rewrite app_nil_r. Qed.

Lemma tracks_trans w1 w2 w3 : tracks w1 w2 -> tracks w2 w3 -> tracks w1 w3.
Proof.
  intros (Hs1 & Hf1 & evs1 & Ht1 & Hg1) (Hs2 & Hf2 & evs2 & Ht2 & Hg2).
  split; [congruence|]. split.
  - intros p Hp. by rewrite Hf2, Hf1.
  - exists (evs1 ++ evs2). rewrite Ht2, Ht1, app_assoc. split; [done|].
    by apply Forall_app.
Qed.

Lemma tracks_emit ev w : tracker_call data_dir ev -> (forall op, ev <> EvFs op) ->
  tracks w (emit ev w).
Proof.
  intros Hev Hne. split; [done|]. split; [done|].
  exists [ev]. split; [done|]. by constructor.
Qed.

(** An unlink or an append on a log file. *)
Lemma fs_call_tracks op w :
  match op with
  | OpUnlink p | OpAppend p _ => is_gps_log data_dir p = true
  | _ => False
  end ->
  tracks w (fs_call E op w).2.
Proof.
  intros Hop.
  destruct (ReclaimFacts.fs_call_cases E op w) as [[e ->]|(fs' & Happ & ->)]; cbn.
  - apply tracks_emit; [|done]. by destruct op.
  - split; [done|]. split.
    + intros p Hp. apply CaptureFacts.apply_op_inr in Happ. cbn.
      destruct op as [q|q|q d|q d|src dst|q]; try done.
      * destruct Happ as [n ->]. rewrite lookup_insert_ne; [done|congruence].
      * subst fs'. rewrite lookup_delete_ne; [done|congruence].
    + exists [EvFs op]. split; [done|]. constructor; [|done]. by destruct op.
Qed.

Lemma cleanup_body_tracks logs w :
  Forall (fun p => is_gps_log data_dir p = true) logs ->
  exists o w', cleanup_body E logs w = (Ret o, w') /\ tracks w w'
    /\ appended (drop (now w) (w_trace w')) = []
    /\ forall rest, o = Some rest -> Forall (fun p => is_gps_log data_dir p = true) rest.
Proof.
  intros Hlogs. unfold cleanup_body, try_except.
  destruct logs as [|old_log rest]; cbn -[now].
  { eexists _, _. split; [done|]. split; [apply tracks_refl|].
    split; [by rewrite drop_now|done]. }
  apply Forall_cons in Hlogs as [Hold Hrest].
  pose proof (fs_call_tracks (OpUnlink old_log) w Hold) as Htr.
  unfold bind.
  destruct (ReclaimFacts.fs_call_cases E (OpUnlink old_log) w)
    as [[e Hc]|(fs' & Happ & Hc)]; rewrite Hc in Htr |- *; cbn -[now] in Htr |- *.
  - eexists _, _. split; [done|]. split; [done|].
    unfold emit. cbn [w_trace]. rewrite drop_now_app. by split.
  - eexists _, _. split; [done|]. split; [done|].
    cbn [w_trace]. rewrite drop_now_app. split; [done|]. by intros ? [= <-].
Qed.

Lemma drop_trace_app (w w1 w2 : world) evs1 evs2 :
  w_trace w1 = w_trace w ++ evs1 -> w_trace w2 = w_trace w1 ++ evs2 ->
  drop (now w) (w_trace w2) = evs1 ++ evs2.
Proof.
  intros H1 H2. unfold now. rewrite H2, H1, <- app_assoc.
  by rewrite drop_app_length.
Qed.

Lemma tracks_new_events w w' :
  tracks w w' -> w_trace w' = w_trace w ++ drop (now w) (w_trace w').
Proof.
  intros (_ & _ & evs & Ht & _). unfold now. rewrite Ht.
  by rewrite drop_app_length.
Qed.

Lemma prune_loop_tracks fuel : forall logs w,
  Forall (fun p => is_gps_log data_dir p = true) logs ->
  let run := while_loop fuel (fun l => bool_decide (max_gps_logs < length l))
               (cleanup_body E) logs w in
  (exists x, run.1 = Ret x) /\ tracks w run.2
  /\ appended (drop (now w) (w_trace run.2)) = [].
Proof.
  induction fuel as [|fuel IH]; intros logs w Hlogs; cbn -[now].
  - destruct (bool_decide _); cbn -[now];
      (split; [by eexists|]); (split; [apply tracks_refl|]); by rewrite drop_now.
  - destruct (bool_decide _); cbn -[now];
      [|(split; [by eexists|]); (split; [apply tracks_refl|]); by rewrite drop_now].
    destruct (cleanup_body_tracks logs w Hlogs) as (o & w1 & Hb & Htr & Hap & Hrest).
    unfold bind. rewrite Hb. destruct o as [rest|]; cbn -[now].
    + destruct (IH rest w1 (Hrest rest eq_refl)) as (Hret & Htr2 & Hap2).
      split; [done|]. split; [by eapply tracks_trans|].
      rewrite (drop_trace_app w w1 _ _ _ (tracks_new_events _ _ Htr)
                 (tracks_new_events _ _ Htr2)).
      unfold appended in *. by rewrite omap_app, Hap, Hap2.
    + split; [by eexists|]. by split.
Qed.

Lemma glob_logs w :
  exists logs, glob E data_dir "gps_" ".jsonl" w = (Ret logs, w)
    /\ Forall (fun p => is_Some (w_fs w !! p) /\ is_gps_log data_dir p = true) logs
    /\ (NoDup (scandir E) -> NoDup logs).
Proof.
  eexists. split; [reflexivity|]. split.
  - apply Forall_forall. intros p [Hp _]%list_elem_of_filter.
    apply andb_prop_elim in Hp as [Hp Hm]. apply andb_prop_elim in Hp as [Hp Hc].
    apply bool_decide_unpack in Hp. split; [done|].
    unfold is_gps_log. apply Is_true_true. by apply andb_prop_intro.
  - apply NoDup_filter.
Qed.

Lemma sorted_logs w :
  exists logs l,
    glob E data_dir "gps_" ".jsonl" w = (Ret logs, w)
    /\ sorted_by_mtime logs w = (Ret l, w)
    /\ l ≡ₚ logs
    /\ Forall (fun p => is_Some (w_fs w !! p) /\ is_gps_log data_dir p = true) l
    /\ StronglySorted
         (fun a b => (mtime_key (w_fs w) a <= mtime_key (w_fs w) b)%Z) l
    /\ (NoDup (scandir E) -> NoDup l).
Proof.
  destruct (glob_logs w) as (logs & Hg & Hin & Hnd).
  destruct (ReclaimFootprint.sorted_by_mtime_present logs w) as (l & Hl & Hperm & Hs).
  { eapply Forall_impl; [exact Hin|]. by intros p [? _]. }
  exists logs, l. split; [done|]. split; [done|]. split; [done|].
  split; [by rewrite Hperm|]. split; [done|]. rewrite Hperm. exact Hnd.
Qed.

Lemma cleanup_tracks w :
  (cleanup w).1 = Ret tt /\ tracks w (cleanup w).2
  /\ appended (drop (now w) (w_trace (cleanup w).2)) = [].
Proof.
  cut (exists w', cleanup w = (Ret tt, w') /\ tracks w w'
                  /\ appended (drop (now w) (w_trace w')) = []).
  { by intros (w' & -> & Hw). }
  destruct (sorted_logs w) as (logs & l & Hg & Hl & _ & Hin & _ & _).
  unfold _cleanup_old_logs, try_except.
  unfold bind at 1. rewrite Hg. unfold bind at 1. rewrite Hl. unfold bind at 1.
  destruct (prune_loop_tracks (S (length l)) l w) as ([x Hx] & Htr & Hap).
  { eapply Forall_impl; [exact Hin|]. by intros p [_ ?]. }
  destruct (while_loop _ _ _ l w) as [r w']. cbn in Hx, Htr, Hap |- *. subst r.
  by exists w'.
Qed.



(** With a fix, [log_location] appends one line, the JSON text of the
    record built from the packet followed by a newline, to the log of the
    day, after what the file already holds, and returns the record.  It
    appends nothing else, also when the draw starts the clean-up; when it
    does not, the files are otherwise as they were. *)
Theorem log_location_appends_fix today pk ts w :
  gpsd_at (now w) = Ret pk -> (2 <= mode pk)%Z -> time pk = Ret ts ->
  io_raises E (S (now w)) = false ->
  (forall t, w_fs w !! daily_log data_dir today <> Some (Dir t)) ->
  let filename := daily_log data_dir today in
  let line := json_dumps (JObj (fix_record pk ts)) +:+ newline in
  let run := log_location E true data_dir gpsd_at random_at json_dumps today w in
  run.1 = Ret (Some (fix_record pk ts))
  /\ appended (drop (now w) (w_trace run.2)) = [(filename, line)]
  /\ (Qltb (random_at (S (S (now w)))) (1 # 100) = false ->
      run.2 = World (<[filename := File (text_of (w_fs w) filename +:+ line)
                                        (clock E (S (now w)))]> (w_fs w))
                    (w_trace w ++ [EvGpsd; EvFs (OpAppend filename line); EvRandom])
                    (w_synced w)).
Proof.
  intros Hpk Hmode Hts Hio Hdir filename line run.
  assert (Hloc : get_current_location true gpsd_at w
                 = (Ret (Some (fix_record pk ts)), emit EvGpsd w)).
  { unfold get_current_location, try_except, bind, gpsd_get_current. cbn.
    rewrite Hpk. cbn. destruct (Z.leb_spec 2 (mode pk)); [|lia]. by rewrite Hts. }
  set (fs1 := <[filename := File (text_of (w_fs w) filename +:+ line)
                                 (clock E (S (now w)))]> (w_fs w)).
  set (w1 := World fs1 (w_trace w ++ [EvGpsd; EvFs (OpAppend filename line)])
                   (w_synced w)).
  assert (Happ : fs_call E (OpAppend filename line) (emit EvGpsd w) = (Ret tt, w1)).
  { unfold fs_call, now. cbn. rewrite length_app, Nat.add_1_r. fold (now w).
    rewrite Hio. subst w1 fs1. unfold text_of. rewrite <- app_assoc. cbn.
    destruct (w_fs w !! filename) as [[d t|t]|] eqn:Hf; try done.
    by destruct (Hdir t). }
  assert (Hnow1 : now w1 = S (S (now w))).
  { unfold now, w1. cbn. rewrite length_app. cbn. lia. }
  assert (Hrun : run = if Qltb (random_at (S (S (now w)))) (1 # 100)
                       then (Ret (Some (fix_record pk ts)),
                             (cleanup (emit EvRandom w1)).2)
                       else (Ret (Some (fix_record pk ts)), emit EvRandom w1)).
  { subst run. unfold log_location. unfold bind at 1. unfold bind at 1.
    rewrite Hloc. cbn [truthy fix_record].
    change (default [] (Some ?x)) with x.
    change (joinpath data_dir ("gps_" +:+ today +:+ ".jsonl")) with filename.
    fold line. unfold try_except. unfold bind at 1. rewrite Happ.
    unfold bind at 1. unfold random. rewrite Hnow1.
    destruct (Qltb (random_at (S (S (now w)))) (1 # 100)); [|done].
    destruct (cleanup_tracks (emit EvRandom w1)) as (Hret & _).
    destruct (cleanup (emit EvRandom w1)) as [r w2]. cbn in Hret. by subst r. }
  rewrite Hrun. clear Hrun.
  destruct (Qltb (random_at (S (S (now w)))) (1 # 100)) eqn:Hdraw.
  - destruct (cleanup_tracks (emit EvRandom w1)) as (_ & Htr & Hap).
    destruct (cleanup (emit EvRandom w1)) as [r w2]. cbn [fst snd] in Htr, Hap |- *.
    split; [done|]. split; [|done].
    destruct Htr as (_ & _ & evs & Ht & _). rewrite Ht in Hap |- *.
    rewrite drop_now_app in Hap. unfold emit, w1. cbn [w_trace].
    rewrite <- !app_assoc, drop_now_app. cbn.
    unfold appended in Hap |- *. by rewrite Hap.
  - cbn [fst snd]. split; [done|]. split.
    + unfold emit, w1. cbn [w_trace]. by rewrite <- !app_assoc, drop_now_app.
    + intros _. unfold emit, w1. cbn. by rewrite <- app_assoc.
Qed.




End Facts.
End TrackerFacts.

(** ** The index file across a restart *)

Module IndexFacts.
Import Py PyFacts Sync.

Lemma hashable_strings_JStr l : hashable_strings (JStr <$> l) = Some l.
Proof. induction l as [|x l IH]; cbn; [done|]. by rewrite IH. Qed.

Lemma find_key_None (fields : list (string * json)) key :
  key ∉ fields.*1 ->
  List.find (fun kv => bool_decide (kv.1 = key)) fields = None.
Proof.
  induction fields as [|[k v] fields IH]; cbn; [done|].
  intros Hin. apply not_elem_of_cons in Hin as [Hne Hin].
  rewrite bool_decide_eq_false_2 by done. by apply IH.
Qed.

Section Facts.
Context (E : os_env) (cfg : config).
Variable json_loads : string -> option json.
Variable json_dumps : json -> string.

Abbreviation idx := (sync_log_file cfg).
Abbreviation load := (_load_sync_status E cfg json_loads).
Abbreviation save := (_save_sync_status E cfg json_dumps).

Lemma load_readable d t w :
  w_fs w !! idx = Some (File d t) -> io_raises E (now w) = false ->
  load w
  = (Ret (default ∅ (json_loads d ≫= fun doc =>
                     get_or_empty doc "synced_files" ≫= py_set)),
     emit (EvFsRead idx None) w).
Proof.
  intros Hf Hio. unfold _load_sync_status, bind, path_exists, try_except, read_file.
  cbn -[now]. rewrite bool_decide_eq_true_2 by (rewrite Hf; by eexists).
  cbn -[now]. rewrite Hio, Hf. cbn -[now]. destruct (json_loads d) as [doc|]; cbn; [|done].
  destruct (get_or_empty doc "synced_files") as [v|]; cbn; [|done].
  by destruct (py_set v).
Qed.

(** What [_save_sync_status] has written, [_load_sync_status] reads back:
    when the saving and the reading meet no error and the JSON library
    parses the document it printed, a synchronizer constructed afresh on
    the files left by the saving holds the set that was saved. *)
Theorem saved_index_loads_back w :
  json_loads (json_dumps (index_document (w_synced w)))
  = Some (index_document (w_synced w)) ->
  io_raises E (now w) = false ->
  io_raises E (S (now w)) = false ->
  io_raises E (S (S (now w))) = false ->
  (forall t, w_fs w !! idx <> Some (Dir t)) ->
  let saved := (_save_sync_status E cfg json_dumps w).2 in
  (_load_sync_status E cfg json_loads saved).1 = Ret (w_synced w)
  /\ w_synced (init E cfg json_loads
                 (World (w_fs saved) (w_trace saved) ∅)).2 = w_synced w.
Proof.
  intros Hjson Hio0 Hio1 Hio2 Hdir saved.
  set (doc := json_dumps (index_document (w_synced w))) in *.
  assert (Hsaved : exists fs' t,
            saved = World fs' (w_trace w ++ [EvFs (OpCreate idx); EvFs (OpWrite idx doc)])
                          (w_synced w)
            /\ fs' !! idx = Some (File doc t)).
  { subst saved. unfold _save_sync_status, try_except, bind, get_synced, fs_call.
    cbn. rewrite Hio0. cbn.
    destruct (w_fs w !! idx) as [[d t|t]|] eqn:Hi; try (by destruct (Hdir t));
      cbn; rewrite length_app, Nat.add_1_r; fold (now w); rewrite Hio1;
      rewrite lookup_insert_eq; cbn; rewrite <- app_assoc;
      (eexists _, _; split; [done|apply lookup_insert_eq]). }
  destruct Hsaved as (fs' & t & -> & Hidx).
  assert (Hset : json_loads doc ≫= (fun d => get_or_empty d "synced_files" ≫= py_set)
                 = Some (w_synced w)).
  { rewrite Hjson.
    change (Some (index_document (w_synced w)) ≫= _)
      with (list_to_set (C := gset string)
              <$> hashable_strings (JStr <$> elements (w_synced w))).
    rewrite hashable_strings_JStr. cbn. by rewrite list_to_set_elements_L. }
  assert (Hload : forall s0,
            load (World fs' (w_trace w ++ [EvFs (OpCreate idx); EvFs (OpWrite idx doc)]) s0)
            = (Ret (w_synced w),
               emit (EvFsRead idx None)
                 (World fs' (w_trace w ++ [EvFs (OpCreate idx); EvFs (OpWrite idx doc)]) s0))).
  { intros s0. rewrite (load_readable doc t); [by rewrite Hset|done|].
    unfold now. cbn. rewrite length_app. cbn.
    replace (length (w_trace w) + 2) with (S (S (length (w_trace w)))) by lia.
    exact Hio2. }
  split.
  - by rewrite Hload.
  - cbn [w_fs w_trace]. unfold init, bind. by rewrite Hload.
Qed.

(** An index file that holds valid JSON of another shape counts as empty
    too: when the document is not an object, or is an object without the
    key [synced_files], [_load_sync_status] returns the empty set. *)
Theorem load_sync_status_without_list d t doc w :
  w_fs w !! sync_log_file cfg = Some (File d t) ->
  json_loads d = Some doc ->
  (forall fields, doc <> JObj fields)
  \/ (exists fields, doc = JObj fields /\ "synced_files" ∉ fields.*1) ->
  (_load_sync_status E cfg json_loads w).1 = Ret ∅.
Proof.
  intros Hf Hdoc Hshape.
  destruct (io_raises E (now w)) eqn:Hio.
  { unfold _load_sync_status, bind, path_exists, try_except, read_file.
    cbn -[now]. rewrite bool_decide_eq_true_2 by (rewrite Hf; by eexists).
    cbn -[now]. by rewrite Hio. }
  rewrite (load_readable d t w Hf Hio), Hdoc. cbn.
  destruct Hshape as [Hno|(fields & -> & Hkey)].
  - destruct doc; try done. by destruct (Hno fields).
  - cbn. by rewrite find_key_None.
Qed.
End Facts.
End IndexFacts.

(** ** A pass without a session, and a transfer that is not recorded *)

Module SessionFacts.
Import Py PyFacts Sync UploadFacts.

Section Facts.
Context (E : os_env) (cfg : config).
Variable sftp_at : nat -> sftp_call -> option exn.
Variable json_dumps : json -> string.

Abbreviation sync_files := (Sync.sync_files E cfg sftp_at json_dumps).

(** With the server address or the user name unset or empty, or when the
    connection cannot be made, [sync_files] returns [False]: no session is
    opened, nothing is transferred, and files and index are as they were.
    The only call it may have made is the failed connect. *)
Theorem sync_files_without_connection w :
  is_set (server_address cfg) && is_set (server_username cfg) = false
  \/ (exists e, sftp_at (now w) SshConnect = Some e) ->
  exists evs,
    sync_files w = (Ret false, World (w_fs w) (w_trace w ++ evs) (w_synced w))
    /\ (evs = [] \/ exists e, evs = [EvSftp SshConnect (Some e)]).
Proof.
  intros Hcase. unfold Sync.sync_files.
  destruct (is_set (server_address cfg) && is_set (server_username cfg)) eqn:Hcfg;
    cbn [negb].
  - destruct Hcase as [|[e He]]; [done|].
    unfold bind, _get_ssh_client, try_except, sftp. cbn -[now]. rewrite He. cbn.
    eexists. split; [done|]. right. by eexists.
  - exists []. rewrite app_nil_r. split; [by destruct w|by left].
Qed.

(** When the connection is made and [open_sftp] raises, [sync_files] does
    not return [False]: its [finally] clause closes a session that was
    never bound, and the call raises.  Nothing was transferred. *)
Theorem sync_files_raises_when_open_sftp_fails e w :
  is_set (server_address cfg) && is_set (server_username cfg) = true ->
  sftp_at (now w) SshConnect = None ->
  sftp_at (S (now w)) OpenSftp = Some e ->
  sync_files w
  = (Raise PyException,
     World (w_fs w)
           (w_trace w ++ [EvSftp SshConnect None; EvSftp OpenSftp (Some e)])
           (w_synced w)).
Proof.
  intros Hcfg Hconn Hopen. unfold Sync.sync_files. rewrite Hcfg. cbn [negb].
  unfold bind, _get_ssh_client, try_except, sftp. cbn -[now]. rewrite Hconn.
  cbn. rewrite length_app, Nat.add_1_r. fold (now w). rewrite Hopen. cbn.
  unfold raise, emit. cbn. by rewrite <- app_assoc.
Qed.

(** A file whose [sftp.put] succeeded and whose [sftp.chmod] raised has
    been transferred but is not recorded: [_upload_file] returns [False],
    adds nothing to [synced_files] and leaves the index file alone, so the
    file is a candidate again at the next pass. *)
Theorem upload_unrecorded_when_chmod_fails local_path remote_path e w :
  sftp_at (now w) (SftpPut local_path remote_path) = None ->
  sftp_at (S (now w)) (SftpChmod remote_path) = Some e ->
  _upload_file E cfg sftp_at json_dumps local_path remote_path w
  = (Ret false,
     World (w_fs w)
           (w_trace w ++ [EvSftp (SftpPut local_path remote_path) None;
                          EvSftp (SftpChmod remote_path) (Some e)])
           (w_synced w)).
Proof.
  intros Hput Hchmod.
  rewrite (upload_chmod_raises E cfg sftp_at json_dumps _ _ e w Hput Hchmod).
  unfold emit. cbn. by rewrite <- app_assoc.
Qed.

End Facts.
End SessionFacts.

(** ** What a pass transfers, and where it stops *)

Module TransferFacts.
Import Py PyFacts Sync UploadFacts SyncFacts.

Lemma keeps_for_each_in {A} (R : world -> world -> Prop) (xs : list A) body :
  (forall w, R w w) -> (forall w1 w2 w3, R w1 w2 -> R w2 w3 -> R w1 w3) ->
  (forall x, x ∈ xs -> keeps R (body x)) -> keeps R (for_each xs body).
Proof.
  intros Hrefl Htrans. induction xs as [|x xs IH]; intros Hb; cbn.
  - by apply keeps_ret.
  - apply keeps_bind; [done|apply Hb; left|]. intros _. apply IH.
    intros y Hy. apply Hb. by right.
Qed.

Section Facts.
Context (E : os_env) (cfg : config).
Variable sftp_at : nat -> sftp_call -> option exn.
Variable json_dumps : json -> string.
(** The index set at the start of the pass. *)
Variable s0 : gset string.

Abbreviation sync_one := (Sync.sync_one E cfg sftp_at json_dumps).
Abbreviation sync_files := (Sync.sync_files E cfg sftp_at json_dumps).
Abbreviation upload := (_upload_file E cfg sftp_at json_dumps).
Abbreviation new := (transfers_new cfg s0).

(** The index set only grows, and while it holds [s0] every transfer is
    mirrored and of a file outside [s0]. *)
Abbreviation fresh :=
  (fun w w' => index_grows cfg w w'
               /\ exists evs, w_trace w' = w_trace w ++ evs
                    /\ (s0 ⊆ w_synced w -> Forall new evs)).

Lemma fresh_refl w : fresh w w.
Proof. split; [by split|]. exists []. by rewrite app_nil_r. Qed.

Lemma fresh_trans w1 w2 w3 : fresh w1 w2 -> fresh w2 w3 -> fresh w1 w3.
Proof.
  intros [Hg1 (evs1 & Ht1 & Hn1)] [Hg2 (evs2 & Ht2 & Hn2)].
  split; [by eapply grows_trans|].
  exists (evs1 ++ evs2). rewrite Ht2, Ht1, app_assoc. split; [done|].
  intros Hs. apply Forall_app. split; [by apply Hn1|].
  apply Hn2. destruct Hg1 as [_ Hsub]. set_solver.
Qed.

Lemma no_puts_new evs : puts evs = [] -> Forall new evs.
Proof.
  induction evs as [|ev evs IH]; [done|]. intros Hp.
  destruct ev as [| | | | | | |[]]; cbn in Hp; try discriminate;
    (constructor; [exact I|by apply IH]).
Qed.

Lemma quiet_fresh w w' : no_transfer w w' -> fresh w w'.
Proof.
  intros Hq. split; [by apply quiet_grows|].
  destruct Hq as [_ (evs & Ht & Hp)]. exists evs. split; [done|].
  intros _. by apply no_puts_new.
Qed.

Lemma keeps_quiet_fresh {A} (c : M A) : keeps no_transfer c -> keeps fresh c.
Proof. intros H w. apply quiet_fresh, H. Qed.

Lemma rewrites_index_new doc fs evs fs' :
  rewrites_index_in_place cfg doc fs evs fs' -> Forall new evs.
Proof. intros []; by repeat constructor. Qed.

Lemma upload_fresh l r w :
  mirrored cfg l r -> str (absolute (cwd cfg) l) ∉ w_synced w ->
  fresh w (upload l r w).2.
Proof.
  intros Hm Hin. split; [apply upload_grows|].
  assert (Hput : forall res, s0 ⊆ w_synced w -> new (EvSftp (SftpPut l r) res)).
  { intros res Hs. split; [done|]. set_solver. }
  destruct (sftp_at (now w) (SftpPut l r)) as [e|] eqn:Hp.
  { rewrite (upload_put_raises E cfg sftp_at json_dumps l r e w Hp).
    eexists [_]. split; [done|]. intros Hs. constructor; [by apply Hput|done]. }
  destruct (sftp_at (S (now w)) (SftpChmod r)) as [e|] eqn:Hc.
  { rewrite (upload_chmod_raises E cfg sftp_at json_dumps l r e w Hp Hc).
    eexists [_; _]. cbn. rewrite <- app_assoc. split; [done|].
    intros Hs. constructor; [by apply Hput|]. by repeat constructor. }
  destruct (upload_accepted E cfg sftp_at json_dumps l r w Hp Hc)
    as (evs & fs' & -> & Hrw).
  eexists. split; [done|]. intros Hs.
  constructor; [by apply Hput|]. constructor; [done|].
  by eapply rewrites_index_new.
Qed.

Lemma mirrored_below d rd p :
  (d = local_recordings_dir cfg /\ rd = remote_recordings_dir cfg)
  \/ (d = local_gps_dir cfg /\ rd = remote_gps_dir cfg) ->
  d `prefix_of` p -> p <> d ->
  mirrored cfg p (rd ++ drop (length d) p).
Proof.
  intros Hd [rel ->] Hne. rewrite drop_app_length. exists rel. split.
  - intros ->. by rewrite app_nil_r in Hne.
  - destruct Hd as [[-> ->]|[-> ->]]; [by left|by right].
Qed.

Lemma sync_one_fresh d rd p :
  (d = local_recordings_dir cfg /\ rd = remote_recordings_dir cfg)
  \/ (d = local_gps_dir cfg /\ rd = remote_gps_dir cfg) ->
  d `prefix_of` p -> p <> d ->
  keeps fresh (sync_one d rd p).
Proof.
  intros Hd Hpre Hne w.
  destruct (sync_one d rd p w) as [res w'] eqn:Hrun. cbn [snd].
  rewrite sync_one_eq in Hrun.
  destruct (_ && _) eqn:Hcond; [|injection Hrun as <- <-; apply fresh_refl].
  apply andb_true_iff in Hcond as [_ Hin].
  apply negb_true_iff, bool_decide_eq_false in Hin.
  unfold bind at 1 in Hrun.
  pose proof (ensure_remote_parent_quiet sftp_at
                (parent (rd ++ drop (length d) p)) w) as Hq.
  destruct (ensure_remote_parent sftp_at _ w) as [[u|e] w0]; cbn [snd] in Hq;
    [|injection Hrun as <- <-; by apply quiet_fresh].
  eapply fresh_trans; [by apply quiet_fresh|].
  assert (Hup : fresh w0 (upload p (rd ++ drop (length d) p) w0).2).
  { apply upload_fresh; [by apply mirrored_below|].
    destruct Hq as [[_ Hs] _]. by rewrite Hs. }
  unfold bind at 1 in Hrun.
  destruct (upload p _ w0) as [[b|e] w1]; cbn [snd] in Hup;
    injection Hrun as <- <-; exact Hup.
Qed.

Lemma listing_proper d fs p : p ∈ listing E d fs -> d `prefix_of` p /\ p <> d.
Proof.
  intros [Hp _]%list_elem_of_filter. apply andb_prop_elim in Hp as [_ Hp].
  by apply bool_decide_unpack in Hp.
Qed.

Lemma sync_dir_fresh d rd :
  (d = local_recordings_dir cfg /\ rd = remote_recordings_dir cfg)
  \/ (d = local_gps_dir cfg /\ rd = remote_gps_dir cfg) ->
  keeps fresh (let* files := glob_all E d in for_each files (sync_one d rd))%py.
Proof.
  intros Hd w. unfold bind, glob_all.
  apply (keeps_for_each_in fresh); [apply fresh_refl|apply fresh_trans|].
  intros p [Hpre Hne]%listing_proper. by apply sync_one_fresh.
Qed.

Lemma sync_files_fresh : keeps fresh sync_files.
Proof.
  unfold Sync.sync_files.
  destruct (negb _); [apply keeps_ret, fresh_refl|].
  apply keeps_bind; [apply fresh_trans| |intros client].
  { apply keeps_quiet_fresh, get_ssh_client_quiet. }
  destruct client; cbn [negb]; [|apply keeps_ret, fresh_refl].
  apply keeps_bind; [apply fresh_trans| |intros opened].
  { apply keeps_quiet_fresh, open_sftp_quiet. }
  destruct opened; cbn [negb]; [|apply keeps_raise, fresh_refl].
  apply keeps_try; [apply fresh_trans| |intros; apply keeps_ret, fresh_refl].
  apply keeps_bind; [apply fresh_trans| |intros u].
  { apply keeps_quiet_fresh, ensure_remote_directories_quiet. }
  apply keeps_bind; [apply fresh_trans| |intros; apply keeps_ret, fresh_refl].
  cbn [for_each].
  apply keeps_bind; [apply fresh_trans| |intros u1].
  { apply sync_dir_fresh. by left. }
  apply keeps_bind; [apply fresh_trans| |intros; apply keeps_ret, fresh_refl].
  apply sync_dir_fresh. by right.
Qed.
End Facts.

(** Every transfer [sync_files] attempts is of a path below one of the two
    managed directories, goes to the path at the same place below the
    matching remote directory, and is of a file whose absolute path was
    not in [synced_files] when the pass began: a file recorded as synced
    is never sent again. *)
Theorem sync_files_transfers_only_new_files
    (E : os_env) (cfg : config) (sftp_at : nat -> sftp_call -> option exn)
    (json_dumps : json -> string) (w : world) :
  Forall (transfers_new cfg (w_synced w))
    (drop (now w) (w_trace (sync_files E cfg sftp_at json_dumps w).2)).
Proof.
  destruct (sync_files_fresh E cfg sftp_at json_dumps (w_synced w) w)
    as [_ (evs & Ht & Hnew)].
  rewrite Ht. unfold now. rewrite drop_app_length. by apply Hnew.
Qed.

End TransferFacts.

Module AbortFacts.
Import Py PyFacts Sync UploadFacts SyncFacts.

Ltac no_failed_stat :=
  repeat first [apply Forall_nil | apply Forall_cons; split];
  try done; try (by intros []).

Section Facts.
Context (E : os_env) (cfg : config).
Variable sftp_at : nat -> sftp_call -> option exn.
Variable json_dumps : json -> string.

Abbreviation sync_one := (Sync.sync_one E cfg sftp_at json_dumps).
Abbreviation sync_files := (Sync.sync_files E cfg sftp_at json_dumps).
Abbreviation upload := (_upload_file E cfg sftp_at json_dumps).

(** No call from [w] to [w'] is a failed stat. *)
Abbreviation clean :=
  (fun w w' => exists evs, w_trace w' = w_trace w ++ evs
                           /\ Forall (fun ev => ~ failed_stat ev) evs).

(** The computation stops at a failed stat, and then it raises. *)
Abbreviation halts c :=
  (forall w, exists evs,
     w_trace (c w).2 = w_trace w ++ evs
     /\ stops_at_failed_stat (fun r => exists e, r = Raise e) evs (c w).1).

Lemma clean_refl w : clean w w.
Proof. exists []. by rewrite app_nil_r. Qed.

Lemma clean_trans w1 w2 w3 : clean w1 w2 -> clean w2 w3 -> clean w1 w3.
Proof.
  intros (evs1 & Ht1 & H1) (evs2 & Ht2 & H2).
  exists (evs1 ++ evs2). rewrite Ht2, Ht1, app_assoc. split; [done|].
  by apply Forall_app.
Qed.

Lemma clean_halts {A} (c : M A) : keeps clean c -> halts c.
Proof. intros H w. destruct (H w) as (evs & Ht & Hc). exists evs. split; [done|by left]. Qed.

Lemma halts_bind {A B} (c : M A) (k : A -> M B) :
  halts c -> (forall a, halts (k a)) -> halts (bind c k).
Proof.
  intros Hc Hk w. unfold bind. destruct (Hc w) as (evs1 & Ht1 & H1).
  destruct (c w) as [[a|e] w1]; cbn in Ht1, H1 |- *.
  - destruct H1 as [H1|(evs0 & ev & _ & _ & _ & [e He])]; [|done].
    destruct (Hk a w1) as (evs2 & Ht2 & H2).
    exists (evs1 ++ evs2). rewrite Ht2, Ht1, app_assoc. split; [done|].
    destruct H2 as [H2|(evs0 & ev & -> & H0 & Hev & Hr)].
    + left. by apply Forall_app.
    + right. exists (evs1 ++ evs0), ev. rewrite app_assoc.
      split; [done|]. split; [by apply Forall_app|done].
  - exists evs1. split; [done|].
    destruct H1 as [H1|(evs0 & ev & -> & H0 & Hev & _)]; [by left|].
    right. exists evs0, ev. repeat split; try done. by eexists.
Qed.

Lemma halts_ret {A} (a : A) : halts (ret a).
Proof. apply clean_halts, keeps_ret, clean_refl. Qed.

Lemma halts_raise {A} e : halts (@raise A e).
Proof. apply clean_halts, keeps_raise, clean_refl. Qed.

Lemma halts_for_each {A} (xs : list A) body :
  (forall x, halts (body x)) -> halts (for_each xs body).
Proof.
  intros Hb. induction xs as [|x xs IH]; cbn; [apply halts_ret|].
  apply halts_bind; [apply Hb|done].
Qed.

Lemma sftp_clean c :
  (forall d, c <> SftpStat d) -> keeps clean (sftp sftp_at c).
Proof.
  intros Hc w. unfold sftp. cbn. eexists [_]. split; [done|].
  constructor; [|done].
  destruct c as [| |d| | |]; try (by destruct (Hc d)); by intros [].
Qed.

Lemma fs_call_clean op : keeps clean (fs_call E op).
Proof.
  intros w.
  destruct (ReclaimFacts.fs_call_cases E op w) as [[e ->]|(fs' & _ & ->)];
    eexists [_]; (split; [done|]); no_failed_stat.
Qed.

(** [sftp.stat], with a handler for [FileNotFoundError] that stats no
    further. *)
Lemma stat_halts d h :
  (forall e, keeps clean (h e)) ->
  halts (try_except (sftp sftp_at (SftpStat d)) is_FileNotFoundError h).
Proof.
  intros Hh w. unfold try_except, sftp. cbn.
  destruct (sftp_at (now w) (SftpStat d)) as [e|] eqn:Hs; cbn.
  - destruct (is_FileNotFoundError e) eqn:Hfnf.
    + destruct (Hh e (emit (EvSftp (SftpStat d) (Some e)) w)) as (evs & Ht & Hc).
      exists (EvSftp (SftpStat d) (Some e) :: evs). rewrite Ht. cbn.
      rewrite <- app_assoc. split; [done|]. left.
      constructor; [|done]. cbn. by rewrite Hfnf.
    + exists [EvSftp (SftpStat d) (Some e)]. split; [done|]. right.
      exists [], (EvSftp (SftpStat d) (Some e)). repeat split; try done.
      by eexists.
  - eexists [_]. split; [done|]. left. no_failed_stat.
Qed.

Lemma ensure_remote_directories_halts :
  halts (_ensure_remote_directories cfg sftp_at).
Proof.
  assert (Hin : halts (for_each [remote_recordings_dir cfg; remote_gps_dir cfg]
            (fun directory =>
               try_except (sftp sftp_at (SftpStat directory)) is_FileNotFoundError
                          (fun _ => sftp sftp_at (SftpMkdir directory))))).
  { apply halts_for_each. intros d. apply stat_halts. intros _. by apply sftp_clean. }
  intros w. destruct (Hin w) as (evs & Ht & Hs). exists evs.
  unfold _ensure_remote_directories, try_except.
  destruct (for_each _ _ w) as [[u|e] w']; cbn in Ht, Hs |- *; done.
Qed.

Lemma ensure_remote_parent_halts rp : halts (ensure_remote_parent sftp_at rp).
Proof.
  unfold ensure_remote_parent. apply stat_halts. intros e.
  destruct rp as [|first parts]; [apply keeps_raise, clean_refl|].
  apply keeps_for_each; [apply clean_refl|apply clean_trans|].
  intros p. apply keeps_try; [apply clean_trans|by apply sftp_clean|].
  intros; apply keeps_ret, clean_refl.
Qed.

Lemma silent_clean {A} (c : M A) :
  (forall w, w_trace (c w).2 = w_trace w) -> keeps clean c.
Proof. intros H w. exists []. by rewrite app_nil_r. Qed.

Lemma save_clean : keeps clean (_save_sync_status E cfg json_dumps).
Proof.
  unfold _save_sync_status.
  apply keeps_try; [apply clean_trans| |intros; apply keeps_ret, clean_refl].
  apply keeps_bind; [apply clean_trans|by apply silent_clean|intros s].
  apply keeps_bind; [apply clean_trans|apply fs_call_clean|intros _].
  apply fs_call_clean.
Qed.

Lemma upload_clean l r : keeps clean (upload l r).
Proof.
  unfold _upload_file.
  apply keeps_try; [apply clean_trans| |intros; apply keeps_ret, clean_refl].
  apply keeps_bind; [apply clean_trans|by apply sftp_clean|intros _].
  apply keeps_bind; [apply clean_trans|by apply sftp_clean|intros _].
  apply keeps_bind; [apply clean_trans|by apply silent_clean|intros s].
  apply keeps_bind; [apply clean_trans|by apply silent_clean|intros _].
  apply keeps_bind; [apply clean_trans|apply save_clean|intros _].
  apply keeps_ret, clean_refl.
Qed.

Lemma sync_one_halts d rd p : halts (sync_one d rd p).
Proof.
  unfold Sync.sync_one.
  apply halts_bind; [by apply clean_halts, silent_clean|intros isfile].
  apply halts_bind; [by apply clean_halts, silent_clean|intros s].
  destruct (_ && _); [|apply halts_ret].
  apply halts_bind; [apply ensure_remote_parent_halts|intros _].
  apply halts_bind; [apply clean_halts, upload_clean|intros _].
  apply halts_ret.
Qed.

(** The body of the [try] of [sync_files]. *)
Abbreviation pass :=
  (_ensure_remote_directories cfg sftp_at >>
   for_each [ (local_recordings_dir cfg, remote_recordings_dir cfg);
              (local_gps_dir cfg, remote_gps_dir cfg) ]
     (fun dirs =>
        let* files := glob_all E dirs.1 in
        for_each files (sync_one dirs.1 dirs.2)) >>
   ret true)%py.

Lemma pass_halts : halts pass.
Proof.
  apply halts_bind; [apply ensure_remote_directories_halts|intros _].
  apply halts_bind; [|intros _; apply halts_ret].
  apply halts_for_each. intros dirs.
  apply halts_bind; [by apply clean_halts, silent_clean|intros files].
  apply halts_for_each. intros p. apply sync_one_halts.
Qed.

Lemma clean_then_stops {A B} (stop : outcome B -> Prop) (c : M A) (k : A -> M B) :
  keeps clean c ->
  (forall a w, exists evs,
     w_trace (k a w).2 = w_trace w ++ evs
     /\ stops_at_failed_stat stop evs (k a w).1) ->
  forall w, exists evs,
    w_trace (bind c k w).2 = w_trace w ++ evs
    /\ stops_at_failed_stat stop evs (bind c k w).1.
Proof.
  intros Hc Hk w. unfold bind. destruct (Hc w) as (evs1 & Ht1 & H1).
  destruct (c w) as [[a|e] w1]; cbn in Ht1 |- *.
  - destruct (Hk a w1) as (evs2 & Ht2 & H2).
    exists (evs1 ++ evs2). rewrite Ht2, Ht1, app_assoc. split; [done|].
    destruct H2 as [H2|(evs0 & ev & -> & H0 & Hev & Hr)].
    + left. by apply Forall_app.
    + right. exists (evs1 ++ evs0), ev. rewrite app_assoc.
      split; [done|]. split; [by apply Forall_app|done].
  - exists evs1. split; [done|by left].
Qed.

Lemma get_ssh_client_clean : keeps clean (_get_ssh_client sftp_at).
Proof.
  unfold _get_ssh_client.
  apply keeps_try; [apply clean_trans| |intros; apply keeps_ret, clean_refl].
  apply keeps_bind; [apply clean_trans|by apply sftp_clean|].
  intros; apply keeps_ret, clean_refl.
Qed.

Lemma open_sftp_clean :
  keeps clean (try_except (sftp sftp_at OpenSftp >> ret true)%py
                          any_exception (fun _ => ret false)).
Proof.
  apply keeps_try; [apply clean_trans| |intros; apply keeps_ret, clean_refl].
  apply keeps_bind; [apply clean_trans|by apply sftp_clean|].
  intros; apply keeps_ret, clean_refl.
Qed.

(** A failed [sftp.stat] ends the pass.  When a stat of a remote directory
    raises anything but [FileNotFoundError], the error is not handled per
    file as a failed transfer is: the failed stat is the last call the
    pass makes on the session before closing it, no transfer follows it,
    and [sync_files] returns [False].  A pass holds at most one such
    stat. *)
Theorem sync_files_stops_at_failed_stat w :
  exists evs,
    w_trace (sync_files w).2 = w_trace w ++ evs
    /\ stops_at_failed_stat (fun r => r = Ret false) evs (sync_files w).1.
Proof.
  assert (Hquiet : forall (r : outcome bool) w0, exists evs,
            w_trace w0 = w_trace w0 ++ evs
            /\ stops_at_failed_stat (fun r => r = Ret false) evs r).
  { intros r w0. exists []. rewrite app_nil_r. split; [done|by left]. }
  unfold Sync.sync_files.
  destruct (negb _); [apply Hquiet|].
  revert w. apply clean_then_stops; [apply get_ssh_client_clean|].
  intros client. destruct client; cbn [negb]; [|intros w; apply Hquiet].
  apply clean_then_stops; [apply open_sftp_clean|].
  intros opened w. destruct opened; cbn [negb]; [|apply Hquiet].
  destruct (pass_halts w) as (evs & Ht & Hs). exists evs.
  unfold try_except. destruct (pass w) as [[b|e] w']; cbn in Ht, Hs |- *.
  - split; [done|].
    destruct Hs as [H|(evs0 & ev & _ & _ & _ & [e He])]; [by left|done].
  - split; [done|].
    destruct Hs as [H|(evs0 & ev & -> & H0 & Hev & _)]; [by left|].
    right. by exists evs0, ev.
Qed.
End Facts.
End AbortFacts.

(** ** The metadata file comes after the recording *)

Module SidecarFacts.
Import Py PyFacts Recorder ReclaimFacts NamingFacts.

Lemma bind_ret_inv {A B} (c : M A) (k : A -> M B) w b w' :
  bind c k w = (Ret b, w') ->
  exists a w1, c w = (Ret a, w1) /\ k a w1 = (Ret b, w').
Proof. unfold bind. destruct (c w) as [[a|e] w1]; [by eauto|done]. Qed.

Lemma fstr_tmp_ne_json p : fstr p ".tmp" <> fstr p ".json".
Proof.
  intros Heq. apply (f_equal name) in Heq. rewrite !name_fstr in Heq.
  apply (f_equal String.length) in Heq. rewrite !length_append in Heq.
  cbn in Heq. lia.
Qed.

Section Facts.
Context (E : os_env) (cfg : config).
Variable json_dumps : json -> string.
Variable wave_encode : Z -> Z -> Z -> string -> string.
Variable wave_partials : string -> list string.
Variable filename : path.

Abbreviation sidecar := (fstr filename ".json").
Abbreviation renamed := (EvFs (OpRename (fstr filename ".tmp") filename)).
Abbreviation no_sidecar :=
  (Forall (fun ev => ev <> EvFs (OpCreate sidecar))).

(** From [w] to [w'] the metadata file was not opened for writing. *)
Abbreviation before :=
  (fun w w' => exists evs, w_trace w' = w_trace w ++ evs /\ no_sidecar evs).

(** The calls split in two parts: the first does not open the metadata
    file, and the second is empty unless the first holds the rename. *)
Abbreviation ordered c :=
  (forall w, exists evs1 evs2,
     w_trace (c w).2 = w_trace w ++ evs1 ++ evs2
     /\ no_sidecar evs1 /\ (evs2 = [] \/ renamed ∈ evs1)).

Lemma before_refl w : before w w.
Proof. exists []. by rewrite app_nil_r. Qed.

Lemma before_trans w1 w2 w3 : before w1 w2 -> before w2 w3 -> before w1 w3.
Proof.
  intros (evs1 & Ht1 & H1) (evs2 & Ht2 & H2).
  exists (evs1 ++ evs2). rewrite Ht2, Ht1, app_assoc. split; [done|].
  by apply Forall_app.
Qed.

Lemma emit_before ev w : ev <> EvFs (OpCreate sidecar) -> before w (emit ev w).
Proof. intros Hev. exists [ev]. split; [done|]. by constructor. Qed.

Lemma fs_call_before op :
  op <> OpCreate sidecar -> keeps before (fs_call E op).
Proof.
  intros Hop w.
  destruct (fs_call_cases E op w) as [[e ->]|(fs' & _ & ->)];
    eexists [_]; (split; [done|]); (constructor; [|done]); congruence.
Qed.

Lemma reclaims_before w w' : reclaims cfg w w' -> before w w'.
Proof.
  intros (_ & _ & evs & Ht & Hev). exists evs. split; [done|].
  eapply Forall_impl; [exact Hev|]. by intros ev Hr ->.
Qed.

Lemma check_storage_before : keeps before (_check_storage E cfg).
Proof.
  intros w. destruct (ReclaimFootprint.check_storage_reclaims E cfg w)
    as (w' & -> & Hr). by apply reclaims_before.
Qed.

Lemma save_recording_before frames :
  keeps before (save_recording E wave_encode wave_partials filename frames).
Proof.
  pose proof (fstr_tmp_ne_json filename) as Hne.
  unfold save_recording.
  apply keeps_try; [apply before_trans| |intros; apply keeps_raise, before_refl].
  apply keeps_bind; [apply before_trans|apply fs_call_before; congruence|intros _].
  apply keeps_bind; [apply before_trans| |intros _].
  { apply keeps_for_each; [apply before_refl|apply before_trans|].
    intros d. by apply fs_call_before. }
  apply keeps_bind; [apply before_trans|by apply fs_call_before|intros _].
  apply keeps_bind; [apply before_trans|by apply fs_call_before|intros _].
  intros w. by apply emit_before.
Qed.

Lemma save_recording_ok frames w w' :
  save_recording E wave_encode wave_partials filename frames w = (Ret tt, w') ->
  exists evs, w_trace w' = w_trace w ++ evs /\ no_sidecar evs /\ renamed ∈ evs.
Proof.
  intros Hrun. pose proof (fstr_tmp_ne_json filename) as Hne.
  unfold save_recording, try_except in Hrun.
  match type of Hrun with context [bind ?c ?k w] =>
    destruct (bind c k w) as [[[]|e] w0] eqn:Hbody end.
  2: { by destruct (is_OSError e). }
  injection Hrun as <-.
  apply bind_ret_inv in Hbody as (u1 & w1 & H1 & Hbody).
  apply bind_ret_inv in Hbody as (u2 & w2 & H2 & Hbody).
  apply bind_ret_inv in Hbody as (u3 & w3 & H3 & Hbody).
  apply bind_ret_inv in Hbody as (u4 & w4 & Hren & Hsync).
  pose proof (fs_call_before (OpCreate (fstr filename ".tmp"))
                ltac:(congruence) w) as (e1 & Ht1 & Hn1).
  rewrite H1 in Ht1. cbn in Ht1.
  pose proof (keeps_for_each before before_refl before_trans
                (wave_partials (String.concat "" frames))
                (fun d => fs_call E (OpWrite (fstr filename ".tmp") d))
                (fun d => fs_call_before (OpWrite (fstr filename ".tmp") d)
                            ltac:(done)) w1) as (e2 & Ht2 & Hn2).
  rewrite H2 in Ht2. cbn in Ht2.
  pose proof (fs_call_before
                (OpWrite (fstr filename ".tmp")
                   (wave_encode channels sample_size rate (String.concat "" frames)))
                ltac:(done) w2) as (e3 & Ht3 & Hn3).
  rewrite H3 in Ht3. cbn in Ht3.
  destruct (fs_call_cases E (OpRename (fstr filename ".tmp") filename) w3)
    as [[e He]|(fs' & _ & Hok)]; [by rewrite He in Hren|].
  rewrite Hok in Hren.
  assert (Hw4 : w_trace w4 = w_trace w3 ++ [renamed]) by by injection Hren as _ <-.
  assert (Hw0 : w_trace w0 = w_trace w4 ++ [EvOsSync]).
  { unfold os_sync in Hsync. by injection Hsync as <-. }
  exists (e1 ++ e2 ++ e3 ++ [renamed; EvOsSync]).
  rewrite Hw0, Hw4, Ht3, Ht2, Ht1, <- !app_assoc. split; [done|]. split.
  - repeat (apply Forall_app; split); try done. by repeat constructor.
  - set_solver.
Qed.

Lemma before_ordered {A} (c : M A) : keeps before c -> ordered c.
Proof.
  intros Hc w. destruct (Hc w) as (evs & Ht & Hn).
  exists evs, []. rewrite app_nil_r. split; [done|]. split; [done|by left].
Qed.

Lemma ordered_bind {A B} (c : M A) (k : A -> M B) :
  keeps before c -> (forall a, ordered (k a)) -> ordered (bind c k).
Proof.
  intros Hc Hk w. unfold bind. destruct (Hc w) as (evs & Ht & Hn).
  destruct (c w) as [[a|e] w1]; cbn in Ht |- *.
  - destruct (Hk a w1) as (evs1 & evs2 & Ht' & Hn' & Hor).
    exists (evs ++ evs1), evs2. rewrite Ht', Ht, <- !app_assoc.
    split; [done|]. split; [by apply Forall_app|].
    destruct Hor as [->|Hin]; [by left|right; set_solver].
  - exists evs, []. rewrite app_nil_r. split; [done|]. split; [done|by left].
Qed.

Lemma trace_grows_fs_call op w :
  exists evs, w_trace (fs_call E op w).2 = w_trace w ++ evs.
Proof.
  destruct (fs_call_cases E op w) as [[e ->]|(fs' & _ & ->)]; by eexists [_].
Qed.

Lemma save_then_metadata_ordered frames iso gps_data :
  ordered (save_recording E wave_encode wave_partials filename frames >>
           save_metadata E cfg json_dumps filename iso gps_data)%py.
Proof.
  intros w. unfold bind at 1.
  destruct (save_recording E wave_encode wave_partials filename frames w)
    as [[[]|e] w1] eqn:Hsave.
  - destruct (save_recording_ok frames w w1 Hsave) as (evs1 & Ht1 & Hn1 & Hin).
    assert (Hmeta : exists evs2,
              w_trace (save_metadata E cfg json_dumps filename iso gps_data w1).2
              = w_trace w1 ++ evs2).
    { unfold save_metadata, bind.
      destruct (trace_grows_fs_call (OpCreate sidecar) w1) as (ea & Ha).
      destruct (fs_call E (OpCreate sidecar) w1) as [[[]|e] w2]; cbn in Ha |- *;
        [|by eexists].
      destruct (trace_grows_fs_call
                  (OpWrite sidecar (json_dumps (metadata cfg iso gps_data))) w2)
        as (eb & Hb).
      exists (ea ++ eb). by rewrite Hb, Ha, app_assoc. }
    destruct Hmeta as (evs2 & Ht2). exists evs1, evs2.
    rewrite Ht2, Ht1, app_assoc. split; [done|]. split; [done|by right].
  - destruct (save_recording_before frames w) as (evs & Ht & Hn).
    rewrite Hsave in Ht. cbn in Ht |- *.
    exists evs, []. rewrite app_nil_r. split; [done|]. split; [done|by left].
Qed.

Lemma ordered_sidecar_after_rename evs1 evs2 k :
  no_sidecar evs1 -> (evs2 = [] \/ renamed ∈ evs1) ->
  (evs1 ++ evs2) !! k = Some (EvFs (OpCreate sidecar)) ->
  exists j, j < k /\ (evs1 ++ evs2) !! j = Some renamed.
Proof.
  intros Hn Hor Hk.
  destruct (decide (k < length evs1)) as [Hlt|Hge].
  { rewrite lookup_app_l in Hk by done.
    rewrite Forall_forall in Hn. destruct (Hn _ (list_elem_of_lookup_2 _ _ _ Hk)).
    done. }
  destruct Hor as [->|Hin].
  { rewrite app_nil_r in Hk. apply lookup_lt_Some in Hk. lia. }
  apply list_elem_of_lookup in Hin as [j Hj]. exists j.
  pose proof (lookup_lt_Some _ _ _ Hj). split; [lia|].
  by rewrite lookup_app_l.
Qed.
End Facts.

(** In a pass of [record_audio] the metadata file is opened for writing
    only after the rename that puts the recording in place has taken
    effect: a pass whose recording could not be saved writes no metadata
    file. *)
Theorem metadata_written_after_rename
    (E : os_env) (cfg : config) (json_dumps : json -> string)
    (wave_encode : Z -> Z -> Z -> string -> string)
    (wave_partials : string -> list string) (i : cycle_input) (w : world) (k : nat) :
  let filename := get_recording_filename cfg (timestamp i) in
  let evs := drop (now w)
               (w_trace (record_cycle E cfg json_dumps wave_encode wave_partials i w).2) in
  evs !! k = Some (EvFs (OpCreate (fstr filename ".json"))) ->
  exists j, j < k
    /\ evs !! j = Some (EvFs (OpRename (fstr filename ".tmp") filename)).
Proof.
  intros filename evs.
  assert (Hord : exists evs1 evs2,
            w_trace (record_cycle E cfg json_dumps wave_encode wave_partials i w).2
            = w_trace w ++ evs1 ++ evs2
            /\ Forall (fun ev => ev <> EvFs (OpCreate (fstr filename ".json"))) evs1
            /\ (evs2 = [] \/ EvFs (OpRename (fstr filename ".tmp") filename) ∈ evs1)).
  { assert (Hbody : forall c : M unit,
              (forall w0, exists evs1 evs2,
                 w_trace (c w0).2 = w_trace w0 ++ evs1 ++ evs2
                 /\ Forall (fun ev => ev <> EvFs (OpCreate (fstr filename ".json"))) evs1
                 /\ (evs2 = [] \/ EvFs (OpRename (fstr filename ".tmp") filename) ∈ evs1)) ->
              exists evs1 evs2,
                w_trace (try_except c any_exception (fun _ => ret tt) w).2
                = w_trace w ++ evs1 ++ evs2
                /\ Forall (fun ev => ev <> EvFs (OpCreate (fstr filename ".json"))) evs1
                /\ (evs2 = [] \/ EvFs (OpRename (fstr filename ".tmp") filename) ∈ evs1)).
    { intros c Hc. destruct (Hc w) as (evs1 & evs2 & Ht & Hn & Hor).
      exists evs1, evs2. unfold try_except.
      destruct (c w) as [[[]|e] w']; by cbn in *. }
    unfold record_cycle. apply Hbody. fold filename.
    apply ordered_bind.
    { destruct (check_due i); [|apply keeps_ret, before_refl].
      apply keeps_bind; [apply before_trans| |intros free_space].
      { intros w0. apply before_refl. }
      destruct (Qltb _ _); [apply check_storage_before|apply keeps_ret, before_refl]. }
    intros _. apply ordered_bind; [by apply fs_call_before|intros _].
    apply ordered_bind.
    { destruct (sync_due i); [|apply keeps_ret, before_refl].
      apply keeps_try; [apply before_trans| |intros; apply keeps_ret, before_refl].
      intros w0. by apply emit_before. }
    intros _. apply ordered_bind; [intros w0; apply before_refl|intros frames].
    apply save_then_metadata_ordered. }
  destruct Hord as (evs1 & evs2 & Ht & Hn & Hor).
  subst evs. rewrite Ht. unfold now. rewrite drop_app_length.
  by apply ordered_sidecar_after_rename.
Qed.

End SidecarFacts.

(** ** A fix without a time *)

Module FixFacts.
Import Py Gps.

(** A packet that has a fix but whose time cannot be read is dropped like
    a packet without a fix: the error raised while the timestamp is built
    is swallowed, [log_location] returns [None], and nothing is written
    for the tick. *)
Theorem fix_without_time_is_dropped
    (E : os_env) (data_dir : path) (gpsd_at : nat -> outcome packet)
    (random_at : nat -> Q) (json_dumps : json -> string)
    (today : string) (pk : packet) (e : exn) (w : world) :
  gpsd_at (now w) = Ret pk -> (2 <= mode pk)%Z -> time pk = Raise e ->
  log_location E true data_dir gpsd_at random_at json_dumps today w
  = (Ret None, emit EvGpsd w).
Proof.
  intros Hpk Hmode Htime.
  unfold log_location, bind, get_current_location, try_except, gpsd_get_current.
  cbn -[now]. rewrite Hpk. cbn -[now].
  destruct (Z.leb_spec 2 (mode pk)); [|lia]. by rewrite Htime.
Qed.
End FixFacts.

(** ** Remote directories *)

Module RemoteDirFacts.
Import Py PyFacts Sync.

Lemma inits_from_take base parts :
  inits_from base parts
  = (fun k => take k (base ++ parts)) <$> seq (length base) (S (length parts)).
Proof.
  revert base. induction parts as [|x parts IH]; intros base; cbn [inits_from].
  - cbn. by rewrite app_nil_r, firstn_all.
  - rewrite IH. cbn [length seq fmap list_fmap]. f_equal.
    + by rewrite take_app_length.
    + rewrite length_app, Nat.add_1_r. cbn. by rewrite <- app_assoc.
Qed.

Section Facts.
Variable sftp_at : nat -> sftp_call -> option exn.

Lemma mkdir_each ps : forall w,
  (forall t p e, sftp_at t (SftpMkdir p) = Some e -> is_OSError e = true) ->
  exists evs w',
    for_each ps (fun current_path =>
      try_except (sftp sftp_at (SftpMkdir current_path)) is_OSError
                 (fun _ => ret tt)) w
    = (Ret tt, w')
    /\ w_trace w' = w_trace w ++ evs /\ mkdirs evs = ps.
Proof.
  induction ps as [|p ps IH]; intros w Hos; cbn [for_each].
  { exists [], w. by rewrite app_nil_r. }
  assert (Hstep : exists r,
            try_except (sftp sftp_at (SftpMkdir p)) is_OSError (fun _ => ret tt) w
            = (Ret tt, emit (EvSftp (SftpMkdir p) r) w)).
  { unfold try_except, sftp. cbn -[now].
    destruct (sftp_at (now w) (SftpMkdir p)) as [e|] eqn:Hm; [|by eexists].
    rewrite (Hos _ _ _ Hm). by eexists. }
  destruct Hstep as [r Hstep]. unfold bind at 1. rewrite Hstep.
  destruct (IH (emit (EvSftp (SftpMkdir p) r) w) Hos) as (evs & w' & -> & Ht & Hmk).
  exists (EvSftp (SftpMkdir p) r :: evs), w'. split; [done|].
  rewrite Ht. unfold emit. cbn [w_trace]. rewrite <- app_assoc.
  split; [done|].
  change (mkdirs (EvSftp (SftpMkdir p) r :: evs)) with (p :: mkdirs evs).
  by rewrite Hmk.
Qed.

(** When the stat of the remote parent directory raises
    [FileNotFoundError], the uploader makes the directory and every one
    above it, from the top down: it calls [sftp.mkdir] once on each
    prefix of the path that has two parts or more, and carries on past
    the calls that raise an [OSError], as the call on a directory that is
    there already does. *)
Theorem ensure_remote_parent_makes_every_ancestor remote_parent e w :
  remote_parent <> [] ->
  sftp_at (now w) (SftpStat remote_parent) = Some e ->
  is_FileNotFoundError e = true ->
  (forall t p e', sftp_at t (SftpMkdir p) = Some e' -> is_OSError e' = true) ->
  let run := ensure_remote_parent sftp_at remote_parent w in
  run.1 = Ret tt
  /\ mkdirs (drop (now w) (w_trace run.2))
     = (fun k => take k remote_parent) <$> seq 2 (length remote_parent - 1).
Proof.
  intros Hne Hstat Hfnf Hos run. subst run.
  destruct remote_parent as [|first parts]; [done|].
  assert (Hrun : ensure_remote_parent sftp_at (first :: parts) w
                 = for_each (tail (inits_from [first] parts))
                     (fun current_path =>
                        try_except (sftp sftp_at (SftpMkdir current_path))
                                   is_OSError (fun _ => ret tt))
                     (emit (EvSftp (SftpStat (first :: parts)) (Some e)) w)).
  { unfold ensure_remote_parent, try_except. unfold sftp at 1.
    cbv beta zeta. rewrite Hstat. cbv beta iota. by rewrite Hfnf. }
  rewrite Hrun.
  destruct (mkdir_each (tail (inits_from [first] parts))
              (emit (EvSftp (SftpStat (first :: parts)) (Some e)) w) Hos)
    as (evs & w' & -> & Ht & Hmk).
  split; [done|]. cbn [snd]. rewrite Ht. unfold emit. cbn [w_trace].
  rewrite <- app_assoc. unfold now. rewrite drop_app_length.
  change (mkdirs ([EvSftp (SftpStat (first :: parts)) (Some e)] ++ evs))
    with (mkdirs evs).
  rewrite Hmk, inits_from_take. cbn [length tail seq fmap list_fmap].
  by replace (S (length parts) - 1) with (length parts) by lia.
Qed.
End Facts.
End RemoteDirFacts.

(** ** What the result of a pass tells *)

Module ResultFacts.
Import Py PyFacts Sync.

Section Facts.
Context (E : os_env) (cfg : config).
Variable sftp_at : nat -> sftp_call -> option exn.
Variable json_dumps : json -> string.
Hypothesis stats_succeed : forall t d, sftp_at t (SftpStat d) = None.

Abbreviation sync_one := (Sync.sync_one E cfg sftp_at json_dumps).
Abbreviation sync_files := (Sync.sync_files E cfg sftp_at json_dumps).

(** The computation does not raise. *)
Abbreviation returns c := (forall w, exists a, (c w).1 = Ret a).

Lemma returns_bind {A B} (c : M A) (k : A -> M B) :
  returns c -> (forall a, returns (k a)) -> returns (bind c k).
Proof.
  intros Hc Hk w. unfold bind. destruct (Hc w) as [a Ha].
  destruct (c w) as [r w1]. cbn in Ha. subst r. apply Hk.
Qed.

Lemma returns_for_each {A} (xs : list A) body :
  (forall x, returns (body x)) -> returns (for_each xs body).
Proof.
  intros Hb. induction xs as [|x xs IH]; cbn; [by eexists|].
  by apply returns_bind.
Qed.

Lemma returns_try_any {A} (c : M A) h :
  (forall e, returns (h e)) -> returns (try_except c any_exception h).
Proof.
  intros Hh w. unfold try_except. destruct (c w) as [[a|e] w1]; [by eexists|].
  apply Hh.
Qed.

Lemma stat_returns d {h} : returns (try_except (sftp sftp_at (SftpStat d))
                                               is_FileNotFoundError h).
Proof.
  intros w. unfold try_except, sftp. cbn. rewrite stats_succeed. by eexists.
Qed.

Lemma sync_one_returns d rd p : returns (sync_one d rd p).
Proof.
  unfold Sync.sync_one.
  apply returns_bind; [by eexists|intros isfile].
  apply returns_bind; [by eexists|intros s].
  destruct (_ && _); [|by eexists].
  apply returns_bind; [apply stat_returns|intros _].
  apply returns_bind; [|by eexists].
  apply returns_try_any. by eexists.
Qed.

Lemma pass_returns_true w :
  (try_except
     (_ensure_remote_directories cfg sftp_at >>
      for_each [ (local_recordings_dir cfg, remote_recordings_dir cfg);
                 (local_gps_dir cfg, remote_gps_dir cfg) ]
        (fun dirs =>
           let* files := glob_all E dirs.1 in
           for_each files (sync_one dirs.1 dirs.2)) >>
      ret true)%py
     any_exception (fun _ => ret false) w).1 = Ret true.
Proof.
  assert (Hdirs : returns (_ensure_remote_directories cfg sftp_at)).
  { intros w0. unfold _ensure_remote_directories, try_except at 1.
    destruct (returns_for_each [remote_recordings_dir cfg; remote_gps_dir cfg]
                (fun directory =>
                   try_except (sftp sftp_at (SftpStat directory))
                              is_FileNotFoundError
                              (fun _ => sftp sftp_at (SftpMkdir directory)))
                (fun d => stat_returns d) w0) as [a Ha].
    destruct (for_each _ _ w0) as [r w1]. cbn in Ha. subst r. by eexists. }
  assert (Hloop : returns
            (for_each [ (local_recordings_dir cfg, remote_recordings_dir cfg);
                        (local_gps_dir cfg, remote_gps_dir cfg) ]
               (fun dirs =>
                  let* files := glob_all E dirs.1 in
                  for_each files (sync_one dirs.1 dirs.2)))%py).
  { apply returns_for_each. intros dirs.
    apply returns_bind; [by eexists|intros files].
    apply returns_for_each. intros p. apply sync_one_returns. }
  unfold try_except. unfold bind at 1.
  destruct (Hdirs w) as [a Ha].
  destruct (_ensure_remote_directories cfg sftp_at w) as [r w1].
  cbn in Ha. subst r. unfold bind at 1.
  destruct (Hloop w1) as [b Hb].
  destruct (for_each _ _ w1) as [r w2]. cbn in Hb. by subst r.
Qed.

(** The result of [sync_files] says nothing about the transfers: with a
    complete configuration, a session that opens and every [sftp.stat]
    succeeding, a pass returns [True] whether its transfers succeeded or
    every one of them failed. *)
Theorem sync_files_true_despite_failed_transfers w :
  is_set (server_address cfg) && is_set (server_username cfg) = true ->
  sftp_at (now w) SshConnect = None ->
  sftp_at (S (now w)) OpenSftp = None ->
  (sync_files w).1 = Ret true.
Proof.
  intros Hcfg Hconn Hopen.
  set (w1 := emit (EvSftp SshConnect None) w).
  assert (H1 : _get_ssh_client sftp_at w = (Ret true, w1)).
  { unfold _get_ssh_client, try_except, bind, sftp. cbn -[now]. by rewrite Hconn. }
  assert (H2 : try_except (sftp sftp_at OpenSftp >> ret true)%py
                          any_exception (fun _ => ret false) w1
               = (Ret true, emit (EvSftp OpenSftp None) w1)).
  { unfold try_except, bind, sftp. cbn -[now].
    replace (now w1) with (S (now w)); [by rewrite Hopen|].
    unfold now, w1, emit. cbn. rewrite length_app. cbn. lia. }
  unfold Sync.sync_files. rewrite Hcfg. cbn [negb].
  unfold bind at 1. rewrite H1. cbn [negb].
  unfold bind at 1. rewrite H2. cbn [negb].
  apply pass_returns_true.
Qed.
End Facts.
End ResultFacts.

(** ** The sync scheduler *)

Module SchedulerFacts.
Import Py Service.

Lemma Qltb_false x y : Qltb x y = false -> (y <= x)%Q.
Proof. unfold Qltb. intros H%negb_false_iff. by apply Qle_bool_iff. Qed.

Lemma Qltb_true x y : Qltb x y = true -> (x < y)%Q.
Proof.
  unfold Qltb. intros H%negb_true_iff. apply Qnot_le_lt. intros Hle.
  apply Qle_bool_iff in Hle. congruence.
Qed.

Lemma sleep_chunk_bounds wait :
  (0 < wait)%Q -> (0 < sleep_chunk wait /\ sleep_chunk wait <= 60)%Q.
Proof.
  intros Hw. unfold sleep_chunk. destruct (Qle_bool 60 wait) eqn:Hc.
  - split; [done|apply Qle_refl].
  - split; [done|]. apply Qlt_le_weak, Qnot_le_lt. intros Hle.
    apply Qle_bool_iff in Hle. congruence.
Qed.

(** The scheduler of the service waits for the next local midnight: the
    wait it computes at the head of a pass is more than zero and at most
    a day, and the time it waits for is the start of the following day.
    The interval read from [SYNC_INTERVAL] plays no part in it. *)
Theorem next_sync_is_the_coming_midnight now next_sync :
  valid now -> next_midnight now = Ret next_sync ->
  ordinal next_sync = (ordinal now + 1)%Z /\ micros next_sync = 0%Z
  /\ (0 < total_seconds next_sync now /\ total_seconds next_sync now <= 86400)%Q.
Proof.
  intros [Hlo Hhi]. unfold next_midnight.
  destruct (ordinal now + 1 <=? max_ordinal)%Z; [|done]. intros [= <-]. cbn.
  split; [done|]. split; [done|].
  unfold total_seconds, micros_per_day in *. cbn.
  unfold Qlt, Qle. cbn. split; lia.
Qed.

Section Facts.
Variable running_at : nat -> bool.
Variable clock_at : nat -> datetime.
(** Once cleared, [self.running] stays cleared. *)
Hypothesis stays_cleared :
  forall i j, i <= j -> running_at i = false -> running_at j = false.

Lemma wait_loop_spec fuel next_sync : forall wait k slept r,
  Forall (fun s => (0 < s /\ s <= 60)%Q) slept ->
  wait_loop running_at clock_at fuel next_sync wait k slept = Some r ->
  Forall (fun s => (0 < s /\ s <= 60)%Q) (sleeps r)
  /\ ((last_wait r <= 0)%Q \/ exists i, i < reads r /\ running_at i = false).
Proof.
  induction fuel as [|fuel IH]; intros wait k slept r Hs; cbn.
  - destruct (Qltb 0 wait) eqn:Hw.
    + destruct (running_at k) eqn:Hr; [done|]. intros [= <-]. cbn.
      split; [done|]. right. exists k. split; [lia|done].
    + intros [= <-]. cbn. split; [done|]. left. by apply Qltb_false.
  - destruct (Qltb 0 wait) eqn:Hw.
    + destruct (running_at k) eqn:Hr.
      * apply IH. apply Forall_app. split; [done|].
        constructor; [|done]. by apply sleep_chunk_bounds, Qltb_true.
      * intros [= <-]. cbn. split; [done|]. right. exists k. split; [lia|done].
    + intros [= <-]. cbn. split; [done|]. left. by apply Qltb_false.
Qed.

(** A pass of the scheduler goes on to [sync_files] only once a clock
    reading has reached the midnight it waited for and [self.running] is
    still set; until then it sleeps in steps of at most 60 seconds, so a
    stop is noticed within a minute. *)
Theorem sync_starts_only_after_midnight fuel now r :
  sync_pass running_at clock_at fuel now = Ret (Some (true, r)) ->
  (last_wait r <= 0)%Q
  /\ Forall (fun s => (0 < s /\ s <= 60)%Q) (sleeps r).
Proof.
  unfold sync_pass. destruct (next_midnight now) as [next_sync|e]; [|done].
  destruct (wait_loop _ _ fuel next_sync _ 0 []) as [r0|] eqn:Hloop; [|done].
  intros [= Hrun <-].
  destruct (wait_loop_spec fuel next_sync _ 0 [] r0 ltac:(done) Hloop)
    as [Hs [Hw|(i & Hi & Hoff)]]; [done|].
  rewrite (stays_cleared i (reads r0)) in Hrun; [done|lia|done].
Qed.
End Facts.
End SchedulerFacts.

(** ** What a pass that returns [True] has tried *)

Module OfferFacts.
Import Py PyFacts Sync UploadFacts SyncFacts.

Section Facts.
Context (E : os_env) (cfg : config).
Variable sftp_at : nat -> sftp_call -> option exn.
Variable json_dumps : json -> string.

Abbreviation idx := (sync_log_file cfg).
Abbreviation key p := (str (absolute (cwd cfg) p)).
Abbreviation sync_one := (Sync.sync_one E cfg sftp_at json_dumps).
Abbreviation sync_files := (Sync.sync_files E cfg sftp_at json_dumps).
Abbreviation upload := (_upload_file E cfg sftp_at json_dumps).

(** From [w] to [w'] the calls [evs] were made, nothing but the index file
    changed, and every path the index set gained was transferred. *)
Abbreviation step w w' evs :=
  (w_trace w' = w_trace w ++ evs
   /\ index_grows cfg w w'
   /\ forall s, s ∈ w_synced w' -> s ∈ w_synced w \/ offers cfg s evs).

(** If [p] is a regular file, it is in the index set of [w] or the calls
    [evs] hold a transfer of it. *)
Abbreviation wants p w evs :=
  (p <> idx -> is_file (w_fs w !! p) = true ->
   key p ∈ w_synced w \/ offers cfg (key p) evs).

Abbreviation serves c T :=
  (forall w, exists evs, step w (c w).2 evs /\ ((c w).1 = Ret tt -> T w evs)).

Lemma bind_eq {A B} (c : M A) (k : A -> M B) w :
  bind c k w = match c w with
               | (Ret a, w') => k a w'
               | (Raise e, w') => (Raise e, w')
               end.
Proof. reflexivity. Qed.

Lemma offers_app_l s evs1 evs2 : offers cfg s evs1 -> offers cfg s (evs1 ++ evs2).
Proof.
  intros (l & r & res & Hs & Hin). exists l, r, res. split; [done|].
  apply elem_of_app. by left.
Qed.

Lemma offers_app_r s evs1 evs2 : offers cfg s evs2 -> offers cfg s (evs1 ++ evs2).
Proof.
  intros (l & r & res & Hs & Hin). exists l, r, res. split; [done|].
  apply elem_of_app. by right.
Qed.

Lemma step_refl w : step w w [].
Proof. rewrite app_nil_r. split; [done|]. split; [by split|]. by left. Qed.

Lemma step_trans w1 w2 w3 evs1 evs2 :
  step w1 w2 evs1 -> step w2 w3 evs2 -> step w1 w3 (evs1 ++ evs2).
Proof.
  intros (Ht1 & Hg1 & Hp1) (Ht2 & Hg2 & Hp2).
  split; [by rewrite Ht2, Ht1, app_assoc|].
  split; [by eapply grows_trans|].
  intros s Hs. destruct (Hp2 s Hs) as [Hin|Hoff].
  - destruct (Hp1 s Hin) as [?|Hoff]; [by left|]. right. by apply offers_app_l.
  - right. by apply offers_app_r.
Qed.

Lemma quiet_step w w' : no_transfer w w' -> exists evs, step w w' evs.
Proof.
  intros Hq. pose proof (quiet_grows cfg w w' Hq) as Hg.
  destruct Hq as [[_ Hs] (evs & Ht & _)]. exists evs.
  split; [done|]. split; [done|]. intros s Hin. left. by rewrite <- Hs.
Qed.

Lemma wants_mono p w evs evs' : wants p w evs -> wants p w (evs ++ evs').
Proof.
  intros Hw Hne Hfile. destruct (Hw Hne Hfile) as [?|?]; [by left|].
  right. by apply offers_app_l.
Qed.

Lemma wants_shift p w w1 evs1 evs2 :
  step w w1 evs1 -> wants p w1 evs2 -> wants p w (evs1 ++ evs2).
Proof.
  intros (_ & [Hfs _] & Hprov) Hw Hne Hfile.
  rewrite <- (Hfs p Hne) in Hfile. destruct (Hw Hne Hfile) as [Hin|Hoff].
  - destruct (Hprov _ Hin) as [?|?]; [by left|]. right. by apply offers_app_l.
  - right. by apply offers_app_r.
Qed.

Lemma for_each_serves {A} (xs : list A) (body : A -> M unit)
    (T : A -> world -> list event -> Prop) :
  (forall x w evs evs', T x w evs -> T x w (evs ++ evs')) ->
  (forall x w w1 evs1 evs2, step w w1 evs1 -> T x w1 evs2 -> T x w (evs1 ++ evs2)) ->
  (forall x, x ∈ xs -> serves (body x) (T x)) ->
  serves (for_each xs body) (fun w evs => forall x, x ∈ xs -> T x w evs).
Proof.
  intros Hmono Hshift. induction xs as [|a xs IH]; intros Hb w.
  - exists []. split; [apply step_refl|]. intros _ x Hx. by apply elem_of_nil in Hx.
  - cbn [for_each]. rewrite bind_eq.
    destruct (Hb a ltac:(left) w) as (evs1 & Hs1 & HT1).
    destruct (body a w) as [[[]|e] w1]; cbn [fst snd] in *.
    + destruct (IH (fun x Hx => Hb x ltac:(by right)) w1) as (evs2 & Hs2 & HT2).
      destruct (for_each xs body w1) as [r w2]; cbn [fst snd] in *.
      exists (evs1 ++ evs2). split; [by eapply step_trans|].
      intros Hret x [->|Hx]%elem_of_cons.
      * by apply Hmono, HT1.
      * eapply Hshift; [done|]. by apply HT2.
    + exists evs1. by split.
Qed.

Lemma upload_step l r w :
  exists evs, step w (upload l r w).2 evs /\ offers cfg (key l) evs.
Proof.
  pose proof (upload_grows E cfg sftp_at json_dumps l r w) as Hg.
  assert (Hhere : forall res evs, offers cfg (key l) (EvSftp (SftpPut l r) res :: evs)).
  { intros res evs. exists l, r, res. split; [done|left]. }
  destruct (sftp_at (now w) (SftpPut l r)) as [e|] eqn:Hp.
  { rewrite (upload_put_raises E cfg sftp_at json_dumps l r e w Hp) in *.
    eexists [_]. split; [|apply Hhere]. split; [done|]. split; [done|]. by left. }
  destruct (sftp_at (S (now w)) (SftpChmod r)) as [e|] eqn:Hc.
  { rewrite (upload_chmod_raises E cfg sftp_at json_dumps l r e w Hp Hc) in *.
    eexists [_; _]. split; [|apply Hhere]. cbn. rewrite <- app_assoc.
    split; [done|]. split; [done|]. by left. }
  destruct (upload_accepted E cfg sftp_at json_dumps l r w Hp Hc)
    as (evs & fs' & Hrun & _).
  rewrite Hrun in *. eexists. split; [|apply Hhere].
  split; [done|]. split; [done|]. cbn. intros s [->%elem_of_singleton|?]%elem_of_union.
  - right. apply Hhere.
  - by left.
Qed.

Lemma sync_one_serves d rd p :
  serves (sync_one d rd p) (fun w evs => wants p w evs).
Proof.
  intros w. rewrite sync_one_eq.
  destruct (is_file (w_fs w !! p)) eqn:Hfile; cbn [andb];
    [|exists []; split; [apply step_refl|]; by intros _ _ ?].
  destruct (bool_decide (key p ∈ w_synced w)) eqn:Hin; cbn [negb].
  { exists []. split; [apply step_refl|]. intros _ _ _. left.
    by apply bool_decide_eq_true in Hin. }
  rewrite bind_eq.
  destruct (quiet_step _ _ (ensure_remote_parent_quiet sftp_at
              (parent (rd ++ drop (length d) p)) w)) as (evs0 & Hs0).
  destruct (ensure_remote_parent sftp_at _ w) as [[u|e] w0]; cbn [fst snd] in *;
    [|exists evs0; by split].
  rewrite bind_eq.
  destruct (upload_step p (rd ++ drop (length d) p) w0) as (evs1 & Hs1 & Hoff).
  destruct (upload p _ w0) as [[b|e] w1]; cbn [fst snd] in *.
  - exists (evs0 ++ evs1). split; [by eapply step_trans|].
    intros _ _ _. right. by apply offers_app_r.
  - exists (evs0 ++ evs1). split; [by eapply step_trans|]. by intros [=].
Qed.

Lemma listing_same d fs fs' p :
  fs' !! p = fs !! p -> p ∈ listing E d fs -> p ∈ listing E d fs'.
Proof.
  unfold listing. rewrite !list_elem_of_filter. intros Heq [Hp Hin].
  split; [|done]. cbn beta in *.
  apply andb_prop_elim in Hp as [[x Hx]%bool_decide_unpack Hd].
  apply andb_prop_intro. split; [|done]. apply bool_decide_pack. exists x.
  etransitivity; [exact Heq|exact Hx].
Qed.

(** Every entry below [d] that is not the index file is wanted. *)
Abbreviation wants_below d w evs :=
  (forall p, p ∈ listing E d (w_fs w) -> wants p w evs).

Lemma sync_dir_serves d rd :
  serves (let* files := glob_all E d in for_each files (sync_one d rd))%py
         (fun w evs => wants_below d w evs).
Proof.
  intros w. rewrite bind_eq. unfold glob_all.
  apply (for_each_serves (listing E d (w_fs w)) (sync_one d rd)
           (fun p w evs => wants p w evs)).
  - intros p w0 evs evs'. apply wants_mono.
  - intros p w0 w1 evs1 evs2. apply wants_shift.
  - intros p _. apply sync_one_serves.
Qed.

Lemma sync_dirs_serve (dirs : list (path * path)) :
  serves (for_each dirs (fun dirs =>
            let* files := glob_all E dirs.1 in
            for_each files (sync_one dirs.1 dirs.2)))%py
         (fun w evs => forall dd, dd ∈ dirs -> wants_below dd.1 w evs).
Proof.
  apply (for_each_serves dirs _ (fun dd w evs => wants_below dd.1 w evs)).
  - intros dd w evs evs' Hw p Hp. by apply wants_mono, Hw.
  - intros dd w w1 evs1 evs2 Hs Hw p Hp Hne.
    apply (wants_shift p w w1); [done| |done]. apply Hw.
    destruct Hs as (_ & [Hfs _] & _). by apply (listing_same _ (w_fs w)); [apply Hfs|].
  - intros dd _. apply sync_dir_serves.
Qed.

(** When [sync_files] returns [True], every regular file found below the
    two managed directories was in [synced_files] already or was put to
    the server during the pass, whether the transfer succeeded or not:
    nothing is passed over.  This holds for every file the scan finds,
    temporary files and metadata files included. *)
Theorem sync_files_true_offers_every_new_file dir p w :
  (sync_files w).1 = Ret true ->
  dir ∈ managed_dirs cfg ->
  p ∈ listing E dir (w_fs w) ->
  is_file (w_fs w !! p) = true ->
  p <> idx ->
  key p ∉ w_synced w ->
  offers cfg (key p) (drop (now w) (w_trace (sync_files w).2)).
Proof.
  intros Hret Hdir Hp Hfile Hne Hnew. unfold Sync.sync_files in *.
  destruct (negb _); [done|].
  rewrite bind_eq in Hret |- *.
  destruct (quiet_step _ _ (get_ssh_client_quiet sftp_at w)) as (evs1 & Hs1).
  destruct (_get_ssh_client sftp_at w) as [[[]|e] w1]; cbn [fst snd negb] in *;
    try done.
  rewrite bind_eq in Hret |- *.
  destruct (quiet_step _ _ (open_sftp_quiet sftp_at w1)) as (evs2 & Hs2).
  destruct (try_except _ _ _ w1) as [[[]|e] w2]; cbn [fst snd negb] in *;
    try done.
  unfold try_except in *. unfold bind at 1 in Hret. unfold bind at 1.
  destruct (quiet_step _ _ (ensure_remote_directories_quiet cfg sftp_at w2))
    as (evs3 & Hs3).
  destruct (_ensure_remote_directories cfg sftp_at w2) as [[[]|e] w3];
    cbn [fst snd] in *; try done.
  rewrite bind_eq in Hret |- *.
  destruct (sync_dirs_serve
              [ (local_recordings_dir cfg, remote_recordings_dir cfg);
                (local_gps_dir cfg, remote_gps_dir cfg) ] w3)
    as (evs4 & Hs4 & Hall).
  destruct (for_each _ _ w3) as [[[]|e] w4]; cbn [fst snd] in *; try done.
  pose proof (step_trans _ _ _ _ _ Hs1 (step_trans _ _ _ _ _ Hs2 Hs3)) as Hs.
  assert (Hwants : wants p w3 evs4).
  { assert (Hfs : w_fs w3 !! p = w_fs w !! p).
    { destruct Hs as (_ & [Hfs _] & _). by apply Hfs. }
    assert (Hin : p ∈ listing E dir (w_fs w3)) by by apply (listing_same _ (w_fs w)).
    apply elem_of_cons in Hdir as [->|Hdir];
      [exact (Hall eq_refl (_, _) ltac:(left) p Hin)|].
    apply list_elem_of_singleton in Hdir as ->.
    exact (Hall eq_refl (_, _) ltac:(right; left) p Hin). }
  pose proof (wants_shift p w w3 _ _ Hs Hwants Hne Hfile) as [?|Hoff]; [done|].
  destruct (step_trans _ _ _ _ _ Hs Hs4) as (Ht & _).
  unfold ret. cbn [fst snd]. rewrite Ht. unfold now. by rewrite drop_app_length.
Qed.
End Facts.
End OfferFacts.

(** ** When the recording loop starts the clean-up *)

Module TriggerFacts.
Import Py PyFacts Recorder ReclaimFacts.

Section Facts.
Context (E : os_env) (cfg : config).
Variable json_dumps : json -> string.
Variable wave_encode : Z -> Z -> Z -> string -> string.
Variable wave_partials : string -> list string.

Abbreviation cycle := (record_cycle E cfg json_dumps wave_encode wave_partials).

(** From [w] to [w'] no call of the clean-up was made. *)
Abbreviation calm :=
  (fun w w' => exists evs, w_trace w' = w_trace w ++ evs
                           /\ Forall (fun ev => ~ cleanup_call ev) evs).

Lemma calm_refl w : calm w w.
Proof. exists []. by rewrite app_nil_r. Qed.

Lemma calm_trans w1 w2 w3 : calm w1 w2 -> calm w2 w3 -> calm w1 w3.
Proof.
  intros (evs1 & Ht1 & H1) (evs2 & Ht2 & H2).
  exists (evs1 ++ evs2). rewrite Ht2, Ht1, app_assoc. split; [done|].
  by apply Forall_app.
Qed.

Lemma fs_call_calm op :
  (forall p, op <> OpUnlink p) -> keeps calm (fs_call E op).
Proof.
  intros Hop w.
  destruct (fs_call_cases E op w) as [[e ->]|(fs' & _ & ->)];
    eexists [_]; (split; [done|]); (constructor; [|done]);
    destruct op as [| | | | |p]; try (by intros []); by destruct (Hop p).
Qed.

Lemma os_sync_calm : keeps calm os_sync.
Proof. intros w. exists [EvOsSync]. split; [done|]. constructor; [by intros []|done]. Qed.

Lemma save_recording_calm filename frames :
  keeps calm (save_recording E wave_encode wave_partials filename frames).
Proof.
  unfold save_recording.
  apply keeps_try; [apply calm_trans| |intros; apply keeps_raise, calm_refl].
  apply keeps_bind; [apply calm_trans|by apply fs_call_calm|intros _].
  apply keeps_bind; [apply calm_trans| |intros _].
  { apply keeps_for_each; [apply calm_refl|apply calm_trans|].
    intros d. by apply fs_call_calm. }
  apply keeps_bind; [apply calm_trans|by apply fs_call_calm|intros _].
  apply keeps_bind; [apply calm_trans|by apply fs_call_calm|intros _].
  apply os_sync_calm.
Qed.

Lemma save_metadata_calm filename iso gps_data :
  keeps calm (save_metadata E cfg json_dumps filename iso gps_data).
Proof.
  unfold save_metadata.
  apply keeps_bind; [apply calm_trans|by apply fs_call_calm|intros _].
  by apply fs_call_calm.
Qed.

(** The recording loop starts the clean-up only in a pass whose
    five-minute check is due and that reads a free space below the floor.
    In every other pass it reads no disk usage and unlinks nothing,
    whatever the recordings take up: exceeding the storage budget alone
    does not start the clean-up. *)
Theorem record_cycle_cleans_up_only_when_space_is_low i w :
  check_due i = false
  \/ (forall free, free_space_gb i = Ret free -> (min_free_space_gb cfg <= free)%Q) ->
  exists evs,
    w_trace (cycle i w).2 = w_trace w ++ evs
    /\ Forall (fun ev => ~ cleanup_call ev) evs.
Proof.
  intros Hcase. revert w. change (keeps calm (cycle i)). unfold record_cycle.
  apply keeps_try; [apply calm_trans| |intros; apply keeps_ret, calm_refl].
  apply keeps_bind; [apply calm_trans| |intros _].
  { destruct (check_due i) eqn:Hdue; [|apply keeps_ret, calm_refl].
    destruct Hcase as [|Hfree]; [done|].
    destruct (free_space_gb i) as [free|e] eqn:Hf.
    - assert (Hge : Qltb free (min_free_space_gb cfg) = false).
      { unfold Qltb. by apply negb_false_iff, Qle_bool_iff, Hfree. }
      intros w. unfold bind. cbn [fst snd]. rewrite Hge. apply calm_refl.
    - intros w. unfold bind. cbn [fst snd]. apply calm_refl. }
  apply keeps_bind; [apply calm_trans|by apply fs_call_calm|intros _].
  apply keeps_bind; [apply calm_trans| |intros _].
  { destruct (sync_due i); [|apply keeps_ret, calm_refl].
    apply keeps_try; [apply calm_trans|apply os_sync_calm|].
    intros; apply keeps_ret, calm_refl. }
  apply keeps_bind; [apply calm_trans|intros w; apply calm_refl|intros frames].
  apply keeps_bind; [apply calm_trans|apply save_recording_calm|intros _].
  apply save_metadata_calm.
Qed.
End Facts.
End TriggerFacts.

(** ** The recorder on the device with two recordings *)

Module RecorderExamples.
Import Py Recorder Scenario.



Lemma two_recordings_are_files p t : w_fs start !! p <> Some (Dir t).
Proof.
  unfold start, two_recordings. cbn [w_fs]. intros Hp.
  repeat (apply lookup_insert_Some in Hp as [[_ Hp]|[_ Hp]]; [discriminate|]).
  by rewrite lookup_empty in Hp.
Qed.

Lemma save_metadata_writes_sidecar_witness :
  save_metadata (disk None) recorder_cfg toy_dumps jan03 "2024-01-03T00:01:00"
    None start
  = (Ret tt,
     World (<[fstr jan03 ".json" := File "" 1]> two_recordings)
           [EvFs (OpCreate (fstr jan03 ".json"));
            EvFs (OpWrite (fstr jan03 ".json") "")]
           ∅).
Proof.
  rewrite (NamingFacts.save_metadata_writes_sidecar (disk None) recorder_cfg
             toy_dumps jan03 "2024-01-03T00:01:00" None start);
    [reflexivity|reflexivity|reflexivity|apply two_recordings_are_files].
Defined.

Lemma check_storage_idle_within_budget_witness :
  _check_storage (disk None) recorder_cfg after_one_call
  = (Ret tt, emit EvDiskUsage after_one_call).
Proof.
  apply (NamingFacts.check_storage_idle_within_budget (disk None) recorder_cfg
           (1000 * gib) (300 * gib) (700 * gib) after_one_call);
    [reflexivity|by vm_compute|by vm_compute].
Defined.

Lemma capture_reads_at_most_937_chunks_witness :
  capture stopped_stream = Ret ["ab"; "ab"]
  /\ (chunk * 2 < rate * record_seconds)%Z.
Proof.
  assert (H : capture stopped_stream = Ret ["ab"; "ab"]) by (vm_compute; reflexivity).
  split; [exact H|].
  destruct (FrameFacts.capture_reads_at_most_937_chunks stopped_stream
              ["ab"; "ab"] H) as (_ & _ & Hlt & _).
  exact Hlt.
Defined.

Lemma record_audio_keeps_recordings_whole_witness :
  (record_audio (disk None) recorder_cfg toy_dumps toy_wave (fun _ => ["RI"])
     [jan03_cycle; jan03_cycle] start).1 = Ret tt.
Proof.
  destruct (RecordLoopFacts.record_audio_keeps_recordings_whole (disk None)
              recorder_cfg toy_dumps toy_wave (fun _ => ["RI"])
              [jan03_cycle; jan03_cycle] start
              CaptureScenario.two_recordings_whole) as [Hret _].
  exact Hret.
Defined.

Lemma metadata_written_after_rename_witness :
  let evs := w_trace (record_cycle (disk None) recorder_cfg toy_dumps toy_wave
                        (fun _ => ["RI"]) jan03_cycle start).2 in
  evs !! 6 = Some (EvFs (OpCreate (fstr jan03 ".json")))
  /\ exists j, j < 6 /\ evs !! j = Some (EvFs (OpRename (fstr jan03 ".tmp") jan03)).
Proof.
  split; [vm_compute; reflexivity|].
  apply (SidecarFacts.metadata_written_after_rename (disk None) recorder_cfg
           toy_dumps toy_wave (fun _ => ["RI"]) jan03_cycle start 6).
  vm_compute. reflexivity.
Defined.
End RecorderExamples.

(** ** The tracker on the same device *)

Module TrackerExamples.
Import Py Gps Scenario RecorderExamples.

Lemma log_location_appends_fix_witness :
  let run := log_location (disk None) true gps_dir (fun _ => Ret fix_packet)
               (fun _ => 1 # 2) toy_dumps "20240103" start in
  run.1 = Ret (Some (fix_record fix_packet "2024-01-03T00:00:59"))
  /\ appended (w_trace run.2)
     = [(daily_log gps_dir "20240103",
         toy_dumps (JObj (fix_record fix_packet "2024-01-03T00:00:59")) +:+ newline)].
Proof.
  destruct (TrackerFacts.log_location_appends_fix (disk None) gps_dir
              (fun _ => Ret fix_packet) (fun _ => 1 # 2) toy_dumps "20240103"
              fix_packet "2024-01-03T00:00:59" start)
    as (Hret & Happ & _);
    [reflexivity|by vm_compute|reflexivity|reflexivity
    |apply two_recordings_are_files|].
  split; [exact Hret|exact Happ].
Defined.



Lemma fix_without_time_is_dropped_witness :
  log_location (disk None) true gps_dir (fun _ => Ret timeless_packet)
    (fun _ => 1 # 2) toy_dumps "20240103" start
  = (Ret None, emit EvGpsd start).
Proof.
  apply (FixFacts.fix_without_time_is_dropped (disk None) gps_dir
           (fun _ => Ret timeless_packet) (fun _ => 1 # 2) toy_dumps "20240103"
           timeless_packet PyException start);
    [reflexivity|by vm_compute|reflexivity].
Defined.
End TrackerExamples.

(** ** The synchronizer of the same device *)

Module SyncExamples.
Import Py Sync Scenario RecorderExamples.

Lemma saved_index_loads_back_witness :
  (_load_sync_status (disk None) sync_cfg toy_loads
     (_save_sync_status (disk None) sync_cfg toy_dumps jan01_synced).2).1
  = Ret (w_synced jan01_synced).
Proof.
  destruct (IndexFacts.saved_index_loads_back (disk None) sync_cfg toy_loads
              toy_dumps jan01_synced) as [Hload _];
    [vm_compute; reflexivity|reflexivity|reflexivity|reflexivity| |exact Hload].
  intros t Ht. vm_compute in Ht. discriminate.
Defined.

Lemma load_sync_status_without_list_witness :
  (_load_sync_status (disk None) sync_cfg (fun _ => Some (JArr [])) jan01_synced).1
  = Ret ∅.
Proof.
  apply (IndexFacts.load_sync_status_without_list (disk None) sync_cfg
           (fun _ => Some (JArr [])) (str jan01) 50 (JArr []) jan01_synced);
    [vm_compute; reflexivity|reflexivity|by left].
Defined.

Lemma sync_files_without_connection_witness :
  (sync_files (disk None) sync_cfg server_refuses_connection toy_dumps start).1
  = Ret false.
Proof.
  destruct (SessionFacts.sync_files_without_connection (disk None) sync_cfg
              server_refuses_connection toy_dumps start) as (evs & Hrun & _).
  - right. by exists OSError.
  - by rewrite Hrun.
Defined.

Lemma sync_files_raises_when_open_sftp_fails_witness :
  (sync_files (disk None) sync_cfg server_refuses_session toy_dumps start).1
  = Raise PyException.
Proof.
  rewrite (SessionFacts.sync_files_raises_when_open_sftp_fails (disk None) sync_cfg
             server_refuses_session toy_dumps PyException start);
    [reflexivity|by vm_compute|reflexivity|reflexivity].
Defined.

Lemma upload_unrecorded_when_chmod_fails_witness :
  let run := _upload_file (disk None) sync_cfg server_refuses_chmod toy_dumps
               jan01 ["/"; "srv"; "audio"; "recordings"; "dev_20240101_000000.wav"]
               start in
  run.1 = Ret false /\ w_synced run.2 = ∅.
Proof.
  intros run. subst run.
  rewrite (SessionFacts.upload_unrecorded_when_chmod_fails (disk None) sync_cfg
             server_refuses_chmod toy_dumps jan01
             ["/"; "srv"; "audio"; "recordings"; "dev_20240101_000000.wav"]
             OSError start); [by split|reflexivity|reflexivity].
Defined.


Lemma ensure_remote_parent_makes_every_ancestor_witness :
  mkdirs (w_trace (ensure_remote_parent server_without_directories
                     ["/"; "srv"; "audio"; "recordings"] start).2)
  = [ ["/"; "srv"]; ["/"; "srv"; "audio"]; ["/"; "srv"; "audio"; "recordings"] ].
Proof.
  destruct (RemoteDirFacts.ensure_remote_parent_makes_every_ancestor
              server_without_directories ["/"; "srv"; "audio"; "recordings"]
              FileNotFoundError start) as [_ Hmk];
    [done|reflexivity|reflexivity| |exact Hmk].
  intros t p e'. cbn. by intros [= <-].
Defined.

Lemma sync_files_true_despite_failed_transfers_witness :
  (sync_files (disk None) sync_cfg server_refuses_transfers toy_dumps start).1
  = Ret true.
Proof.
  apply (ResultFacts.sync_files_true_despite_failed_transfers (disk None) sync_cfg
           server_refuses_transfers toy_dumps (fun _ _ => eq_refl) start);
    [by vm_compute|reflexivity|reflexivity].
Defined.
End SyncExamples.

(** ** The scheduler on the last second of a day *)

Module SchedulerExamples.
Import Py Service Scenario.

Lemma next_sync_is_the_coming_midnight_witness :
  next_midnight noon = Ret following_midnight
  /\ (0 < total_seconds following_midnight noon
      /\ total_seconds following_midnight noon <= 86400)%Q.
Proof.
  assert (H : next_midnight noon = Ret following_midnight) by reflexivity.
  split; [exact H|].
  destruct (SchedulerFacts.next_sync_is_the_coming_midnight noon
              following_midnight) as (_ & _ & Hb); [|exact H|exact Hb].
  unfold valid, micros_per_day. cbn. lia.
Defined.

Lemma sync_starts_only_after_midnight_witness :
  exists r,
    sync_pass (fun _ => true) (fun _ => following_midnight) 1 last_second
    = Ret (Some (true, r))
    /\ (last_wait r <= 0)%Q.
Proof.
  eexists. split; [reflexivity|].
  apply (SchedulerFacts.sync_starts_only_after_midnight (fun _ => true)
           (fun _ => following_midnight) (fun _ _ _ H => H) 1 last_second _ eq_refl).
Defined.
End SchedulerExamples.

(** ** A pass whose transfers are all refused *)

Module OfferExamples.
Import Py Sync Scenario.

Lemma sync_files_true_offers_every_new_file_witness :
  offers sync_cfg (str (absolute (cwd sync_cfg) jan01))
    (drop (now start)
       (w_trace (sync_files (disk None) sync_cfg server_refuses_transfers
                   toy_dumps start).2)).
Proof.
  apply (OfferFacts.sync_files_true_offers_every_new_file (disk None) sync_cfg
           server_refuses_transfers toy_dumps (local_recordings_dir sync_cfg)
           jan01 start).
  - by vm_compute.
  - unfold managed_dirs. left.
  - apply (list_elem_of_lookup_2 _ 0). vm_compute. reflexivity.
  - reflexivity.
  - intros H. vm_compute in H. discriminate.
  - apply not_elem_of_empty.
Defined.
End OfferExamples.

(** ** A pass whose check is due on a disk with room *)

Module TriggerExamples.
Import Py Recorder Scenario.

Lemma record_cycle_cleans_up_only_when_space_is_low_witness :
  let due := CycleInput true (Ret (100 # 1)) "20240103_000000" false
               (Ret ["ab"; "cd"]) "2024-01-03T00:01:00" in
  Forall (fun ev => ~ cleanup_call ev)
    (w_trace (record_cycle (disk None) recorder_cfg toy_dumps toy_wave
                (fun _ => ["RI"]) due start).2).
Proof.
  intros due.
  destruct (TriggerFacts.record_cycle_cleans_up_only_when_space_is_low (disk None)
              recorder_cfg toy_dumps toy_wave (fun _ => ["RI"]) due start)
    as (evs & Ht & Hcalm).
  - right. intros free [= <-]. by vm_compute.
  - rewrite Ht. exact Hcalm.
Defined.
End TriggerExamples.
